(** * MAGI: the deliberation core, embedded and verified

    A shallow embedding of the orchestration core of the MAGI bot:
    - [src/magi/types.ts]: verdicts and the consensus function;
    - [src/groq/ratelimits.ts]: the rate-limit tracker;
    - [src/groq/client.ts]: the chat call, as far as it touches the tracker;
    - [src/magi/engine.ts]: the fallback chains and the orchestrator.

    JavaScript numbers are modelled as exact rationals ([Q]); strings as
    lists of UTF-16 code units; the module-level [Map]s of the tracker as
    [gmap]s threaded through the calls; time as an explicit clock. The
    provider is a script of replies, one per [fetch]; each carries what the
    tasks running alongside do to the shared tracker while it is awaited.
    Writes to the KV store and log lines are left out. *)

From Stdlib Require Import QArith Qminmax Qround Lqa.
From stdpp Require Import gmap strings list fin_maps.

(** ** Numbers *)

Module Num.

(** JS [number]: exact rationals; [x < y] is decided on the cross products. *)
#[global] Instance Qlt_dec (x y : Q) : Decision (x < y)%Q :=
  Z_lt_dec (Qnum x * QDen y) (Qnum y * QDen x).
#[global] Instance Qle_dec (x y : Q) : Decision (x <= y)%Q :=
  Z_le_dec (Qnum x * QDen y) (Qnum y * QDen x).

(** [Array.prototype.length] as a number. *)
Definition len {A} (l : list A) : Q := inject_Z (Z.of_nat (length l)).

End Num.
Export Num.

(** ** Strings *)

Module JS.

(** A JS string: its UTF-16 code units. *)
Definition jsstring := list N.

(** An ASCII literal as a JS string. *)
Definition js (s : string) : jsstring :=
  map Ascii.N_of_ascii (String.list_ascii_of_string s).

(** U+2026, the ellipsis appended after a cut. *)
Definition ellipsis : jsstring := [8230%N].

(** [s.slice(0, n)] for [0 <= n]. *)
Definition slice0 (n : nat) (s : jsstring) : jsstring := take n s.

(** White space and line terminators of [String.prototype.trim] and of
    the regex class [\s]. *)
Definition isSpace (c : N) : bool :=
  ((9 <=? c) && (c <=? 13) || (c =? 32) || (c =? 160) || (c =? 5760)
   || (8192 <=? c) && (c <=? 8202) || (c =? 8232) || (c =? 8233)
   || (c =? 8239) || (c =? 8287) || (c =? 12288) || (c =? 65279))%N.

(** Line terminators: what the regex [.] does not match. *)
Definition isLineTerminator (c : N) : bool :=
  ((c =? 10) || (c =? 13) || (c =? 8232) || (c =? 8233))%N.

Fixpoint trimStart (s : jsstring) : jsstring :=
  match s with
  | c :: s' => if isSpace c then trimStart s' else s
  | [] => []
  end.

Definition trimEnd (s : jsstring) : jsstring := reverse (trimStart (reverse s)).

(** [s.trim()] *)
Definition trim (s : jsstring) : jsstring := trimEnd (trimStart s).

(** [s.startsWith(p)] on code units. *)
Fixpoint startsWith (p s : jsstring) : bool :=
  match p, s with
  | [], _ => true
  | a :: p', b :: s' => (a =? b)%N && startsWith p' s'
  | _ :: _, [] => false
  end.

(** [s.includes(p)] *)
Fixpoint includes (p s : jsstring) : bool :=
  startsWith p s ||
  match s with
  | [] => false
  | _ :: s' => includes p s'
  end.

End JS.
Export JS.

(** ** [src/magi/types.ts] *)

Module Types.

Inductive Verdict := APPROVE | DENY | CONDITIONAL | REFUSE.
Inductive PersonaName := MELCHIOR_1 | BALTHASAR_2 | CASPER_3.
Inductive SupportedLanguage := en | ja | ko.

#[global] Instance Verdict_eq_dec : EqDecision Verdict.
Proof. solve_decision. Defined.
#[global] Instance SupportedLanguage_eq_dec : EqDecision SupportedLanguage.
Proof. solve_decision. Defined.

Record PersonaConfig := {
  name : PersonaName;
  cfg_model : string;
  fallbackModels : list string;
  emergencyModel : string;
  temperature : Q;
  systemPrompt : jsstring;
}.

Record PersonaResponse := {
  persona : PersonaName;
  content : jsstring;
  verdict : Verdict;
  model : string;
  latencyMs : Q;
  error : option jsstring;     (* [error?: string] *)
}.

Record MagiDeliberation := {
  question : jsstring;
  approvalCondition : jsstring;
  searchContext : option jsstring;
  searchFailed : bool;
  imageContext : option jsstring;
  fileContext : option jsstring;
  userContext : option jsstring;
  language : SupportedLanguage;
  melchior : PersonaResponse;
  balthasar : PersonaResponse;
  casper : PersonaResponse;
}.

Inductive DeliberationResult := approved | denied | conditional | noConsensus.

(** Majority-rule deliberation result from three MAGI core verdicts. *)
Definition computeDeliberationResult (d : MagiDeliberation) : DeliberationResult :=
  let verdicts := [verdict (melchior d); verdict (balthasar d); verdict (casper d)] in
  let valid := filter (λ v, v ≠ REFUSE) verdicts in
  let approves := length (filter (λ v, v = APPROVE) valid) in
  let denies := length (filter (λ v, v = DENY) valid) in
  let conditionals := length (filter (λ v, v = CONDITIONAL) valid) in
  if decide (2 ≤ approves) then approved
  else if decide (2 ≤ denies) then denied
  else if decide (2 ≤ approves + conditionals) then conditional
  else noConsensus.

(** [r.verdict = v], the assignment made once a response is classified. *)
Definition setVerdict (r : PersonaResponse) (v : Verdict) : PersonaResponse :=
  {| persona := persona r; content := content r; verdict := v;
     model := model r; latencyMs := latencyMs r; error := error r |}.

End Types.
Export Types.

(** ** [src/groq/personas.ts]: model identifiers *)

Module Models.

Definition GPT_OSS_120B : string := "openai/gpt-oss-120b".
Definition KIMI_K2 : string := "moonshotai/kimi-k2-instruct".
Definition KIMI_K2_0905 : string := "moonshotai/kimi-k2-instruct-0905".
Definition LLAMA4_SCOUT : string := "meta-llama/llama-4-scout-17b-16e-instruct".
Definition LLAMA4_MAVERICK : string := "meta-llama/llama-4-maverick-17b-128e-instruct".
Definition LLAMA33_70B : string := "llama-3.3-70b-versatile".
Definition LLAMA31_8B : string := "llama-3.1-8b-instant".
Definition QWEN3_32B : string := "qwen/qwen3-32b".
Definition COMPOUND : string := "groq/compound".
Definition COMPOUND_MINI : string := "groq/compound-mini".

Definition DATA_PROCESSING_MODEL : string := LLAMA4_SCOUT.
Definition EMERGENCY_MODEL : string := LLAMA31_8B.

End Models.

(** ** [src/groq/ratelimits.ts] *)

Module RateLimits.
Import Models.
Local Open Scope Q_scope.

Record RateLimitInfo := {
  rpdLimit : Q;
  rpdRemaining : Q;
  rpdResetAt : Q;
  tpmLimit : Q;
  tpmRemaining : Q;
  tpmResetAt : Q;
  updatedAt : Q;
}.

Record LoadInfo := {
  tpm : Q;  (* -1 if unknown/stale *)
  rpm : Q;
  rpd : Q;
  tpd : Q;
}.

(** An entry of [MODEL_LIMITS]; [limit_tpd = None] stands for [Infinity]. *)
Record ModelLimits := { limit_rpm : Q; limit_tpd : option Q }.

Record TpdEntry := { tokens : Q; dayStart : Q }.

(** The three module-level maps: [store], [rpmWindows], [tpdWindows]. *)
Record Tracker := {
  store : gmap string RateLimitInfo;
  rpmWindows : gmap string (list Q);
  tpdWindows : gmap string TpdEntry;
}.

(** The tracker of a fresh process, before [initRateLimits]. *)
Definition emptyTracker : Tracker :=
  {| store := ∅; rpmWindows := ∅; tpdWindows := ∅ |}.

Definition setRpmWindow (model : string) (w : list Q) (tr : Tracker) : Tracker :=
  {| store := store tr; rpmWindows := <[model := w]> (rpmWindows tr);
     tpdWindows := tpdWindows tr |}.

Definition setTpdWindow (model : string) (e : TpdEntry) (tr : Tracker) : Tracker :=
  {| store := store tr; rpmWindows := rpmWindows tr;
     tpdWindows := <[model := e]> (tpdWindows tr) |}.

Definition setStore (model : string) (i : RateLimitInfo) (tr : Tracker) : Tracker :=
  {| store := <[model := i]> (store tr); rpmWindows := rpmWindows tr;
     tpdWindows := tpdWindows tr |}.

(** Known rate limits per model from Groq docs. *)
Definition MODEL_LIMITS : gmap string ModelLimits :=
  list_to_map [
    (GPT_OSS_120B,    {| limit_rpm := 30; limit_tpd := Some 200000 |});
    (KIMI_K2,         {| limit_rpm := 60; limit_tpd := Some 300000 |});
    (KIMI_K2_0905,    {| limit_rpm := 60; limit_tpd := Some 300000 |});
    (LLAMA4_SCOUT,    {| limit_rpm := 30; limit_tpd := Some 500000 |});
    (LLAMA4_MAVERICK, {| limit_rpm := 30; limit_tpd := Some 500000 |});
    (LLAMA33_70B,     {| limit_rpm := 30; limit_tpd := Some 100000 |});
    (LLAMA31_8B,      {| limit_rpm := 30; limit_tpd := Some 500000 |});
    (QWEN3_32B,       {| limit_rpm := 60; limit_tpd := Some 500000 |});
    (COMPOUND,        {| limit_rpm := 30; limit_tpd := None |});
    (COMPOUND_MINI,   {| limit_rpm := 30; limit_tpd := None |})
  ].

Definition RPM_WINDOW_MS : Q := 60000.

(** Record a request to a model, at time [now]. Prunes timestamps older
    than 60 s. (The save to the KV store is not modelled.) *)
Definition recordModelRequest (now : Q) (model : string) (tr : Tracker) : Tracker :=
  let cutoff := now - RPM_WINDOW_MS in
  let timestamps := default [] (rpmWindows tr !! model) in
  let pruned := filter (λ ts, cutoff < ts) timestamps in
  setRpmWindow model (pruned ++ [now]) tr.

(** RPM usage as a percentage based on the local sliding window. The
    window is pruned in place: the tracker is returned too. *)
Definition rpmUsagePercent (now : Q) (model : string) (tr : Tracker) : Q * Tracker :=
  match MODEL_LIMITS !! model with
  | None => (-1, tr)
  | Some limits =>
      match rpmWindows tr !! model with
      | None => (-1, tr)
      | Some timestamps =>
          let cutoff := now - RPM_WINDOW_MS in
          let recent := filter (λ ts, cutoff < ts) timestamps in
          ((len recent / limit_rpm limits) * 100, setRpmWindow model recent tr)
      end
  end.

Definition TPD_WINDOW_MS : Q := 86400000.

(** Accumulate tokens used by a model, at time [now]. *)
Definition recordModelTokens (now : Q) (model : string) (n : Q) (tr : Tracker) : Tracker :=
  match tpdWindows tr !! model with
  | Some entry =>
      if decide (TPD_WINDOW_MS <= now - dayStart entry)
      then setTpdWindow model {| tokens := n; dayStart := now |} tr
      else setTpdWindow model
             {| tokens := tokens entry + n; dayStart := dayStart entry |} tr
  | None => setTpdWindow model {| tokens := n; dayStart := now |} tr
  end.

(** TPD usage as a percentage based on the local daily accumulator. *)
Definition tpdUsagePercent (now : Q) (model : string) (tr : Tracker) : Q :=
  match MODEL_LIMITS !! model with
  | None => -1
  | Some limits =>
      match limit_tpd limits with
      | None => -1
      | Some tpdLimit =>
          match tpdWindows tr !! model with
          | None => -1
          | Some entry =>
              if decide (TPD_WINDOW_MS <= now - dayStart entry) then 0
              else Qmin 100 ((tokens entry / tpdLimit) * 100)
          end
      end
  end.

(** The six rate-limit headers of a response, read: a count is [None]
    when the header is missing or empty and otherwise what
    [parseInt(h) || 0] gives; a reset is [None] when missing or empty and
    otherwise the milliseconds [parseDuration] gives. *)
Record Headers := {
  limitReq : option Q;
  remainReq : option Q;
  resetReq : option Q;
  limitTok : option Q;
  remainTok : option Q;
  resetTok : option Q;
}.

Definition updateFromHeaders (now : Q) (model : string) (h : Headers) (tr : Tracker)
  : Tracker :=
  match limitReq h, remainReq h with
  | None, None => tr
  | _, _ =>
      let info := {|
        rpdLimit := default 0 (limitReq h);
        rpdRemaining := default 0 (remainReq h);
        rpdResetAt := match resetReq h with Some d => now + d | None => 0 end;
        tpmLimit := default 0 (limitTok h);
        tpmRemaining := default 0 (remainTok h);
        tpmResetAt := match resetTok h with Some d => now + d | None => 0 end;
        updatedAt := now |} in
      setStore model info tr
  end.

(** Usage percentage for a single header-based dimension.
    Returns -1 if no data (limit unknown). Returns 0 if the reset window
    has expired (usage cleared). Otherwise returns 0-100. *)
Definition dimensionUsage (now : Q) (limit remaining resetAt : Q) : Q :=
  if decide (limit <= 0) then -1
  else if decide (0 < resetAt ∧ resetAt < now) then 0
  else Qmax 0 (Qmin 100 (((limit - remaining) / limit) * 100)).

(** Returns per-dimension load info for a model. *)
Definition getLoadInfo (now : Q) (model : string) (tr : Tracker) : LoadInfo * Tracker :=
  let info := store tr !! model in
  let '(rpm, tr') := rpmUsagePercent now model tr in
  let tpd := tpdUsagePercent now model tr' in
  match info with
  | None =>
      ({| tpm := -1; rpm := if decide (0 <= rpm) then rpm else -1;
          rpd := -1; tpd := tpd |}, tr')
  | Some info =>
      let rpd := dimensionUsage now (rpdLimit info) (rpdRemaining info) (rpdResetAt info) in
      let tpm := dimensionUsage now (tpmLimit info) (tpmRemaining info) (tpmResetAt info) in
      ({| tpm := tpm; rpm := if decide (0 <= rpm) then rpm else -1;
          rpd := rpd; tpd := tpd |}, tr')
  end.

Definition SKIP_THRESHOLD : Q := 95.

(** Should we preemptively skip this model? *)
Definition shouldSkipModel (now : Q) (model : string) (tr : Tracker) : bool * Tracker :=
  let '(load, tr') := getLoadInfo now model tr in
  let skip :=
    bool_decide (SKIP_THRESHOLD <= tpm load) ||
    bool_decide (SKIP_THRESHOLD <= rpm load) ||
    bool_decide (SKIP_THRESHOLD <= rpd load) ||
    bool_decide (SKIP_THRESHOLD <= tpd load) in
  (skip, tr').

End RateLimits.

(** ** The world of a run: tracker, clock, and the provider's replies *)

Module Run.
Import RateLimits.
Local Open Scope Q_scope.

(** What one [fetch] to the provider comes back with. *)
Inductive Reply :=
| NetFail (msg : jsstring)
    (* [fetch] rejects: network error, or abort on the 30 s timeout *)
| HttpFail (h : Headers) (status : N) (body : jsstring)
    (* [!response.ok] *)
| HttpBad (h : Headers) (msg : jsstring)
    (* a 2xx response whose body is not a [GroqResponse]: reading it throws *)
| HttpOk (h : Headers) (rawContent : jsstring) (total_tokens : Q).
    (* [rawContent] is [data.choices[0]?.message?.content], empty if absent *)

(** What is thrown: an [Error] with its message, or a [GroqRateLimitError]. *)
Inductive Err :=
| Error (message : jsstring)
| GroqRateLimitError (status : N) (body : jsstring).

Inductive Result (A : Type) :=
| Ok (a : A)
| Throw (err : Err).
Arguments Ok {A} a.
Arguments Throw {A} err.

(** The purposes a chat call is made for. *)
Inductive CondenseTarget := target_response | target_condition.
Inductive CallKind :=
| Extract | Search | Persona | Purify | Condense (target : CondenseTarget)
| Classify | Describe.

(** Ghost record of one [client.chat] call: what for, on which model, and
    how it ended. *)
Record ChatCall := {
  call_kind : CallKind;
  call_model : string;
  call_result : Result jsstring;
}.

(** One awaited [fetch] as the run sees it: the time it takes, what the
    tasks running concurrently do to the shared tracker in the meantime,
    and the reply. *)
Record Incoming := {
  elapsed : Q;
  meanwhile : Tracker → Tracker;
  reply : Reply;
}.

Record World := {
  tracker : Tracker;
  clock : Q;                    (* what [Date.now()] reads *)
  replies : list Incoming;      (* the fetches to come *)
  calls : list ChatCall;        (* ghost: the chat calls so far, oldest first *)
}.

(** State and exceptions. *)
Definition M (A : Type) : Type := World → Result A * World.

Definition ret {A} (a : A) : M A := λ w, (Ok a, w).
Definition throw {A} (e : Err) : M A := λ w, (Throw e, w).
Definition bind {A B} (m : M A) (f : A → M B) : M B :=
  λ w, match m w with
       | (Ok a, w') => f a w'
       | (Throw e, w') => (Throw e, w')
       end.
(** [try { m } catch (err) { h err }] *)
Definition tryCatch {A} (m : M A) (h : Err → M A) : M A :=
  λ w, match m w with
       | (Ok a, w') => (Ok a, w')
       | (Throw e, w') => h e w'
       end.

Definition now : M Q := λ w, (Ok (clock w), w).
Definition withTracker {A} (f : Q → Tracker → A * Tracker) : M A :=
  λ w, let '(a, tr) := f (clock w) (tracker w) in
       (Ok a, {| tracker := tr; clock := clock w; replies := replies w;
                 calls := calls w |}).
Definition onTracker (f : Q → Tracker → Tracker) : M unit :=
  withTracker (λ t tr, (tt, f t tr)).

(** [await fetch(...)]: the next reply, after the time it takes; a run
    whose replies are used up sees the fetch rejected. *)
Definition fetch : M Reply :=
  λ w, match replies w with
       | i :: rs =>
           (Ok (reply i),
            {| tracker := meanwhile i (tracker w); clock := clock w + elapsed i;
               replies := rs; calls := calls w |})
       | [] => (Ok (NetFail (js "fetch failed")), w)
       end.

Definition logCall (c : ChatCall) : M unit :=
  λ w, (Ok tt, {| tracker := tracker w; clock := clock w; replies := replies w;
                  calls := calls w ++ [c] |}).

End Run.

Declare Scope run_scope.
Delimit Scope run_scope with run.
Notation "'do' x <- m ; k" := (Run.bind m (λ x, k))
  (at level 10, x name, m at level 100, k at level 200) : run_scope.
Notation "m ;; k" := (Run.bind m (λ _, k))
  (at level 100, k at level 200, right associativity) : run_scope.

(** ** [src/groq/client.ts] *)

Module Client.
Import RateLimits Run.
Local Open Scope run_scope.

(** Decimal digits of a status code, as in a template literal. *)
Fixpoint digits (d : Decimal.uint) : jsstring :=
  match d with
  | Decimal.Nil => []
  | Decimal.D0 d' => 48%N :: digits d'
  | Decimal.D1 d' => 49%N :: digits d'
  | Decimal.D2 d' => 50%N :: digits d'
  | Decimal.D3 d' => 51%N :: digits d'
  | Decimal.D4 d' => 52%N :: digits d'
  | Decimal.D5 d' => 53%N :: digits d'
  | Decimal.D6 d' => 54%N :: digits d'
  | Decimal.D7 d' => 55%N :: digits d'
  | Decimal.D8 d' => 56%N :: digits d'
  | Decimal.D9 d' => 57%N :: digits d'
  end.
Definition decimal (n : N) : jsstring := digits (N.to_uint n).

(** [err instanceof Error ? err.message : String(err)] *)
Definition errMessage (e : Err) : jsstring :=
  match e with
  | Error message => message
  | GroqRateLimitError status body =>
      js "Groq rate limit (" ++ decimal status ++ js "): " ++ body
  end.

(** The rest of [s] after the first ["</think>"], if there is one. *)
Fixpoint afterThink (s : jsstring) : option jsstring :=
  if startsWith (js "</think>") s then Some (drop 8 s)
  else match s with
       | [] => None
       | _ :: s' => afterThink s'
       end.

(** [content.replace(/<think>[\s\S]*?<\/think>/g, empty)], by leftmost
    shortest blocks; [fuel] bounds the scan by the length. *)
Fixpoint removeThink (fuel : nat) (s : jsstring) : jsstring :=
  match fuel, s with
  | S fuel', c :: s' =>
      if startsWith (js "<think>") s then
        match afterThink (drop 7 s) with
        | Some rest => removeThink fuel' rest
        | None => s
        end
      else c :: removeThink fuel' s'
  | _, _ => s
  end.

(** Strip <think>...</think> reasoning blocks from model output. *)
Definition stripThinkBlocks (content : jsstring) : jsstring :=
  let stripped := trim (removeThink (length content) content) in
  if decide (0 < length stripped)%nat then stripped else trim content.

Definition chatBody (mdl : string) : M jsstring :=
  (* Record request for local RPM tracking before the call *)
  onTracker (λ t, recordModelRequest t mdl);;
  do r <- fetch;
  match r with
  | NetFail msg => throw (Error msg)
  | HttpFail h status body =>
      (* Capture rate limit headers from every response (including errors) *)
      onTracker (λ t, updateFromHeaders t mdl h);;
      if ((status =? 429) || (status =? 503))%N
      then throw (GroqRateLimitError status body)
      else throw (Error (js "Groq API error " ++ decimal status ++ js ": " ++ body))
  | HttpBad h msg =>
      onTracker (λ t, updateFromHeaders t mdl h);;
      throw (Error msg)
  | HttpOk h rawContent total_tokens =>
      onTracker (λ t, updateFromHeaders t mdl h);;
      let content := stripThinkBlocks rawContent in
      onTracker (λ t, recordModelTokens t mdl total_tokens);;
      ret content
  end.

(** [GroqClient.chat]. The request body (messages, temperature) is left
    out: the scripted provider does not read it. [kind] tags the call in
    the ghost record. *)
Definition chat (kind : CallKind) (mdl : string) : M jsstring :=
  λ w, let '(res, w') := chatBody mdl w in
       (res, snd (logCall {| call_kind := kind; call_model := mdl;
                             call_result := res |} w')).

End Client.

(** ** [src/i18n/detector.ts] and the pattern matching of the engine *)

Module Text.

Definition inRange (lo hi c : N) : bool := ((lo <=? c) && (c <=? hi))%N.

(** [[a-zA-Z]] *)
Definition isLatin (c : N) : bool := inRange 65 90 c || inRange 97 122 c.
(** [\w] *)
Definition isWordChar (c : N) : bool :=
  isLatin c || inRange 48 57 c || (c =? 95)%N.

Definition isKorean (c : N) : bool :=
  inRange 0xAC00 0xD7AF c || inRange 0x1100 0x11FF c || inRange 0x3130 0x318F c.
Definition isKana (c : N) : bool :=
  inRange 0x3040 0x309F c || inRange 0x30A0 0x30FF c.

Definition countIf (f : N → bool) (s : jsstring) : nat := length (List.filter f s).

Definition detectLanguage (text : jsstring) : SupportedLanguage :=
  let korean := countIf isKorean text in
  let japanese := countIf isKana text in
  let english := countIf isLatin text in
  let total := korean + japanese + english in
  if decide (total = 0) then en
  else if decide (japanese ≤ korean ∧ english ≤ korean) then ko
  else if decide (korean ≤ japanese ∧ english ≤ japanese) then ja
  else en.

Fixpoint takeWhile (f : N → bool) (s : jsstring) : jsstring :=
  match s with
  | c :: s' => if f c then c :: takeWhile f s' else []
  | [] => []
  end.

Fixpoint dropWhile (f : N → bool) (s : jsstring) : jsstring :=
  match s with
  | c :: s' => if f c then dropWhile f s' else s
  | [] => []
  end.

(** Case folding of the [i] flag without the [u] flag: only ASCII letters
    match across case. *)
Definition foldCase (c : N) : N := if inRange 65 90 c then (c + 32)%N else c.

(** [p], in lower case, is a prefix of [s] up to ASCII case. *)
Fixpoint startsWithCI (p s : jsstring) : bool :=
  match p, s with
  | [], _ => true
  | a :: p', b :: s' => (a =? foldCase b)%N && startsWithCI p' s'
  | _ :: _, [] => false
  end.

(** [/LANG:\s*(en|ja|ko)/i] anchored at the head of [s]. *)
Definition langAt (s : jsstring) : option SupportedLanguage :=
  if startsWithCI (js "lang:") s then
    let rest := dropWhile isSpace (drop 5 s) in
    if startsWithCI (js "en") rest then Some en
    else if startsWithCI (js "ja") rest then Some ja
    else if startsWithCI (js "ko") rest then Some ko
    else None
  else None.

(** [result.match(/LANG:\s*(en|ja|ko)/i)], its group 1 in lower case. *)
Fixpoint matchLang (s : jsstring) : option SupportedLanguage :=
  match langAt s with
  | Some l => Some l
  | None => match s with
            | [] => None
            | _ :: s' => matchLang s'
            end
  end.

(** Group 1 of [\s*(.+)] at the head of [r], the white space giving back
    from [j] characters down to none. *)
Fixpoint condCapture (j : nat) (r : jsstring) : option jsstring :=
  match takeWhile (λ c, negb (isLineTerminator c)) (drop j r) with
  | c :: cap => Some (c :: cap)
  | [] => match j with
          | O => None
          | S j' => condCapture j' r
          end
  end.

Definition condAt (s : jsstring) : option jsstring :=
  if startsWith (js "CONDITION:") s then
    let r := drop 10 s in
    condCapture (length (takeWhile isSpace r)) r
  else None.

(** [result.match(/CONDITION:\s*(.+)/)], its group 1. *)
Fixpoint matchCondition (s : jsstring) : option jsstring :=
  match condAt s with
  | Some c => Some c
  | None => match s with
            | [] => None
            | _ :: s' => matchCondition s'
            end
  end.

(** [(text.match(/[a-zA-Z]{3,}/g) || []).length]: the runs of three or
    more Latin letters; [run] is the length of the run being read. *)
Fixpoint latinWords (run : nat) (s : jsstring) : nat :=
  match s with
  | [] => if decide (3 ≤ run) then 1 else 0
  | c :: s' =>
      if isLatin c then latinWords (S run) s'
      else (if decide (3 ≤ run) then 1 else 0) + latinWords 0 s'
  end.

Definition hasLanguageMixing (text : jsstring) (language : SupportedLanguage) : bool :=
  match language with
  | ko =>
      existsb (λ c, inRange 0x4E00 0x9FFF c || isKana c
                    || inRange 0x00C0 0x024F c || inRange 0x1E00 0x1EFF c) text
  | en =>
      existsb (λ c, inRange 0x4E00 0x9FFF c || isKana c
                    || inRange 0xAC00 0xD7AF c) text
  | ja => bool_decide (3 ≤ latinWords 0 text)
  end.

(** [/\bword\b/.test(s)] for a [word] of word characters; [prev] tells
    whether the character before [s] is a word character. *)
Fixpoint hasWord (word : jsstring) (prev : bool) (s : jsstring) : bool :=
  (negb prev && startsWith word s
   && negb (match drop (length word) s with
            | c :: _ => isWordChar c
            | [] => false
            end))
  || match s with
     | [] => false
     | c :: s' => hasWord word (isWordChar c) s'
     end.

End Text.

(** ** [src/magi/engine.ts] *)

Module Engine.
Import Models RateLimits Run Client Text.
Local Open Scope run_scope.

Definition CHAR_LIMIT : nat := 240.
Definition CONDITION_LIMIT : nat := 120.
Definition DATA_MODELS : list string := [DATA_PROCESSING_MODEL; EMERGENCY_MODEL].
Definition SEARCH_MODELS : list string := [COMPOUND; COMPOUND_MINI].
Definition IMAGE_DESCRIPTION_LIMIT : nat := 200.

(** The requested language: one of the three, or ["auto"]. *)
Inductive LangRequest := auto | lang (l : SupportedLanguage).

Record DataChatResult := { result : jsstring; data_model : string }.

Record ExtractionResult := {
  condition : option jsstring;
  detectedLang : option SupportedLanguage;
}.

Record SearchResult := { context : option jsstring; failed : bool }.

(** The two canned messages the engine asks the message bundles for. *)
Inductive MessageKey := outputOverflow | coreMalfunction.

(** How one turn of a fallback loop ends: [continue], or [return r]. *)
Inductive Step (A : Type) := Continue | Return (r : A).
Arguments Continue {A}.
Arguments Return {A} r.

(** [i < models.length - 1] fails: nothing comes after this model. *)
Definition isLast (rest : list string) : bool :=
  match rest with [] => true | _ :: _ => false end.

(** Truthiness of a [string | null]: present and not empty. *)
Definition truthy (s : option jsstring) : bool :=
  match s with Some (_ :: _) => true | _ => false end.

(** Try each data processing model in order; throw only if all fail. *)
Fixpoint dataChatLoop (kind : CallKind) (models : list string) : M DataChatResult :=
  match models with
  | [] => throw (Error (js "All data processing models exhausted"))
  | mdl :: rest =>
      do s <- tryCatch
                (do res <- chat kind mdl;
                 ret (Return {| result := res; data_model := mdl |}))
                (λ err, if isLast rest then throw err else ret Continue);
      match s with
      | Return r => ret r
      | Continue => dataChatLoop kind rest
      end
  end.

Definition dataChat (kind : CallKind) : M DataChatResult :=
  dataChatLoop kind DATA_MODELS.

Definition condenseLimit (target : CondenseTarget) : nat :=
  match target with
  | target_response => CHAR_LIMIT
  | target_condition => CONDITION_LIMIT
  end.

Definition condense (mdl : string) (text : jsstring) (language : SupportedLanguage)
    (target : CondenseTarget) : M (option jsstring) :=
  let limit := condenseLimit target in
  tryCatch
    (do res <- chat (Condense target) mdl;
     let trimmed := trim res in
     if decide (length trimmed = 0) then ret None
     else if decide (length trimmed ≤ limit) then ret (Some trimmed)
     else ret (Some (slice0 (limit - 1) trimmed ++ ellipsis)))
    (λ _, ret None).

(** *** Condition extraction *)

(** One turn of the loop of [extractCondition], on [mdl]. *)
Definition extractAttempt (language : LangRequest) (mdl : string) (last : bool)
  : M (Step ExtractionResult) :=
  let isAuto := match language with auto => true | lang _ => false end in
  tryCatch
    (do res <- chat Extract mdl;
     match res with
     | [] =>
         if last then ret (Return {| condition := None; detectedLang := None |})
         else ret Continue
     | _ :: _ =>
         (* Parse detected language (auto mode) *)
         let detected := if isAuto then matchLang res else None in
         let effectiveLang :=
           match language with
           | auto => default en detected
           | lang l => l
           end in
         match matchCondition res with
         | Some cap =>
             if decide (length (trim cap) = 0) then
               if last
               then ret (Return {| condition := None; detectedLang := detected |})
               else ret Continue
             else
               let rawCond := trim cap in
               do cond <-
                 (if decide (CONDITION_LIMIT < length rawCond) then
                    do c <- condense mdl rawCond effectiveLang target_condition;
                    ret (default (slice0 (CONDITION_LIMIT - 1) rawCond ++ ellipsis) c)
                  else ret rawCond);
               ret (Return {| condition := Some cond; detectedLang := detected |})
         | None =>
             if last
             then ret (Return {| condition := None; detectedLang := detected |})
             else ret Continue
         end
     end)
    (λ err,
       if last then ret (Return {| condition := None; detectedLang := None |})
       else ret Continue).

Fixpoint extractLoop (language : LangRequest) (models : list string)
  : M ExtractionResult :=
  match models with
  | [] => ret {| condition := None; detectedLang := None |}
  | mdl :: rest =>
      do s <- extractAttempt language mdl (isLast rest);
      match s with
      | Return r => ret r
      | Continue => extractLoop language rest
      end
  end.

Definition extractCondition (question : jsstring) (language : LangRequest)
    (imageContext fileContext : option jsstring) : M ExtractionResult :=
  extractLoop language DATA_MODELS.

(** *** Search context *)

Definition searchAttempt (mdl : string) (last : bool) : M (Step SearchResult) :=
  tryCatch
    (do res <- chat Search mdl;
     if decide (res = [] ∨ trim res = js "NONE")
     then ret (Return {| context := None; failed := false |})
     else ret (Return {| context := Some (trim res); failed := false |}))
    (λ err,
       if last then ret (Return {| context := None; failed := true |})
       else ret Continue).

Fixpoint searchLoop (models : list string) : M SearchResult :=
  match models with
  | [] => ret {| context := None; failed := true |}
  | mdl :: rest =>
      do s <- searchAttempt mdl (isLast rest);
      match s with
      | Return r => ret r
      | Continue => searchLoop rest
      end
  end.

Definition fetchSearchContext (question approvalCondition : jsstring)
    (language : SupportedLanguage) (imageContext : option jsstring) : M SearchResult :=
  searchLoop SEARCH_MODELS.

(** *** Image description *)

Definition describeImage (imageBase64 : jsstring) (language : SupportedLanguage)
  : M (option jsstring) :=
  tryCatch
    (do res <- chat Describe DATA_PROCESSING_MODEL;
     if decide (length (trim res) = 0) then ret None
     else
       let description := trim res in
       if decide (IMAGE_DESCRIPTION_LIMIT < length description)
       then ret (Some (slice0 (IMAGE_DESCRIPTION_LIMIT - 1) description ++ ellipsis))
       else ret (Some description))
    (λ _, ret None).

Definition purifyLanguage (mdl : string) (text : jsstring)
    (language : SupportedLanguage) (question : jsstring) : M (option jsstring) :=
  tryCatch
    (do res <- chat Purify mdl;
     let trimmed := trim res in
     if decide (length trimmed = 0) then ret None else ret (Some trimmed))
    (λ _, ret None).

(** *** Verdicts, personas and the deliberation

    Taken as given: [String.prototype.toLowerCase], the markup stripping
    of [sanitizeContent] (a chain of regex replacements), the message
    bundles behind [t], and the three prompt builders of
    [groq/personas.ts]. *)

Section Orchestrator.

Variable toLowerCase : jsstring → jsstring.
Variable sanitizeContent : jsstring → jsstring.
Variable t : SupportedLanguage → MessageKey → jsstring.
Variables melchiorPrompt balthasarPrompt casperPrompt : SupportedLanguage → jsstring.

Definition extractVerdictTag (content : jsstring) : option Verdict :=
  let lower := toLowerCase content in
  (* Bracketed (preferred) *)
  if includes (js "[approve]") lower then Some APPROVE
  else if includes (js "[deny]") lower then Some DENY
  else if includes (js "[conditional]") lower then Some CONDITIONAL
  else if includes (js "[refuse]") lower then Some REFUSE
  (* Unbracketed fallback *)
  else if hasWord (js "approve") false lower then Some APPROVE
  else if hasWord (js "deny") false lower then Some DENY
  else if hasWord (js "conditional") false lower then Some CONDITIONAL
  else if hasWord (js "refuse") false lower then Some REFUSE
  else None.

Definition classifyVerdict (content approvalCondition : jsstring) : M Verdict :=
  tryCatch
    (do r <- dataChat Classify;
     match result r with
     | [] => ret REFUSE
     | _ :: _ => ret (default REFUSE (extractVerdictTag (result r)))
     end)
    (λ _, ret REFUSE).

Definition getPersonaConfigs (l : SupportedLanguage)
  : PersonaConfig * PersonaConfig * PersonaConfig :=
  ({| name := MELCHIOR_1; cfg_model := QWEN3_32B;
      fallbackModels := [LLAMA4_MAVERICK]; emergencyModel := EMERGENCY_MODEL;
      temperature := (1 # 10)%Q; systemPrompt := melchiorPrompt l |},
   {| name := BALTHASAR_2; cfg_model := LLAMA33_70B;
      fallbackModels := [GPT_OSS_120B]; emergencyModel := EMERGENCY_MODEL;
      temperature := (3 # 10)%Q; systemPrompt := balthasarPrompt l |},
   {| name := CASPER_3; cfg_model := KIMI_K2;
      fallbackModels := [KIMI_K2_0905]; emergencyModel := EMERGENCY_MODEL;
      temperature := (5 # 10)%Q; systemPrompt := casperPrompt l |}).

Record QueryPersonaOptions := {
  o_config : PersonaConfig;
  o_question : jsstring;
  o_approvalCondition : jsstring;
  o_language : SupportedLanguage;
  o_searchContext : option jsstring;
  o_searchFailed : bool;
  o_imageContext : option jsstring;
  o_fileContext : option jsstring;
  o_userContext : option jsstring;
}.

Definition condenseFailed : jsstring := js "Condense failed after max attempts".

(** The response returned once a model has answered and the answer is
    shaped. *)
Definition answered (opts : QueryPersonaOptions) (start : Q) (mdl : string)
    (final : jsstring) : M (Step PersonaResponse) :=
  let final := sanitizeContent final in
  do t1 <- now;
  ret (Return {| persona := name (o_config opts); content := final;
                 verdict := REFUSE; (* placeholder, classified in deliberate *)
                 model := mdl; latencyMs := (t1 - start)%Q; error := None |}).

(** One turn of the loop of [queryPersona], past the skip test: the
    [try] block on [mdl] and its [catch]. *)
Definition queryAttempt (opts : QueryPersonaOptions) (start : Q) (mdl : string)
    (last : bool) : M (Step PersonaResponse) :=
  let language := o_language opts in
  tryCatch
    (do content <- chat Persona mdl;
     if decide (length (trim content) = 0)
     then throw (Error (js "Empty response from model"))
     else
       let final := trim content in
       do final <-
         (if hasLanguageMixing final language then
            do purified <- purifyLanguage mdl final language (o_question opts);
            ret (if truthy purified then default final purified else final)
          else ret final);
       if decide (CHAR_LIMIT < length final) then
         do condensed <- condense mdl final language target_response;
         match condensed with
         | None =>
             do t1 <- now;
             ret (Return {| persona := name (o_config opts);
                            content := t language outputOverflow;
                            verdict := REFUSE; model := mdl;
                            latencyMs := (t1 - start)%Q;
                            error := Some condenseFailed |})
         | Some c => answered opts start mdl c
         end
       else answered opts start mdl final)
    (λ err,
       let errMsg := errMessage err in
       (* Try next fallback on any error *)
       if last then
         do t1 <- now;
         ret (Return {| persona := name (o_config opts);
                        content := t language coreMalfunction;
                        verdict := REFUSE; model := mdl;
                        latencyMs := (t1 - start)%Q; error := Some errMsg |})
       else ret Continue).

Fixpoint queryLoop (opts : QueryPersonaOptions) (start : Q) (models : list string)
  : M PersonaResponse :=
  match models with
  | [] =>
      do t1 <- now;
      ret {| persona := name (o_config opts);
             content := t (o_language opts) coreMalfunction;
             verdict := REFUSE; model := cfg_model (o_config opts);
             latencyMs := (t1 - start)%Q;
             error := Some (js "All models exhausted") |}
  | mdl :: rest =>
      (* Preemptive skip: if model is near rate limit and not the last resort *)
      do skip <- (if isLast rest then ret false
                  else withTracker (λ t0, shouldSkipModel t0 mdl));
      if (skip : bool) then queryLoop opts start rest
      else
        do s <- queryAttempt opts start mdl (isLast rest);
        match s with
        | Return r => ret r
        | Continue => queryLoop opts start rest
        end
  end.

Definition chainOf (config : PersonaConfig) : list string :=
  cfg_model config :: fallbackModels config ++ [emergencyModel config].

Definition queryPersona (opts : QueryPersonaOptions) : M PersonaResponse :=
  do start <- now;
  queryLoop opts start (chainOf (o_config opts)).

(** [Promise.allSettled], one promise at a time: the outcome is kept,
    nothing is thrown. *)
Definition settle {A} (m : M A) : M (Result A) :=
  λ w, let '(r, w') := m w in (Ok r, w').

Definition unwrap (l : SupportedLanguage) (res : Result PersonaResponse)
    (fallbackConfig : PersonaConfig) : PersonaResponse :=
  match res with
  | Ok value => value
  | Throw reason =>
      {| persona := name fallbackConfig; content := t l coreMalfunction;
         verdict := REFUSE; model := cfg_model fallbackConfig;
         latencyMs := 0%Q; error := Some (errMessage reason) |}
  end.

(** [r.error ? "REFUSE" : classifyVerdict(...)] *)
Definition classifyResponse (r : PersonaResponse) (approvalCondition : jsstring)
  : M Verdict :=
  if truthy (error r) then ret REFUSE
  else classifyVerdict (content r) approvalCondition.

(** The orchestrator. The three persona queries, and then the three
    classifications, run one after the other here: one of the
    interleavings of the concurrent run. *)
Definition deliberate (question : jsstring) (language : LangRequest)
    (imageBase64 userContext fileContext : option jsstring) : M MagiDeliberation :=
  do start <- now;
  (* Step 1: Describe image FIRST *)
  let prelimLang :=
    match language with
    | lang l => l
    | auto => detectLanguage question
    end in
  do imageContext <-
    (match imageBase64 with
     | Some (c :: img) => describeImage (c :: img) prelimLang
     | _ => ret None
     end);
  (* Step 2: Extract approval condition *)
  do extraction <- extractCondition question language imageContext fileContext;
  let approvalCondition := default [] (condition extraction) in
  (* Resolve final language: LLM detection > local detection > default *)
  let l :=
    match language with
    | lang l => l
    | auto => default prelimLang (detectedLang extraction)
    end in
  let '(cfgM, cfgB, cfgC) := getPersonaConfigs l in
  (* Step 3: Fetch search context *)
  do search <- fetchSearchContext question approvalCondition l imageContext;
  (* Step 4: Query 3 cores *)
  let shared config :=
    {| o_config := config; o_question := question;
       o_approvalCondition := approvalCondition; o_language := l;
       o_searchContext := context search; o_searchFailed := failed search;
       o_imageContext := imageContext; o_fileContext := fileContext;
       o_userContext := userContext |} in
  do m <- settle (queryPersona (shared cfgM));
  do b <- settle (queryPersona (shared cfgB));
  do c <- settle (queryPersona (shared cfgC));
  let r0 := unwrap l m cfgM in
  let r1 := unwrap l b cfgB in
  let r2 := unwrap l c cfgC in
  (* Step 5: Classify verdicts *)
  do v0 <- classifyResponse r0 approvalCondition;
  do v1 <- classifyResponse r1 approvalCondition;
  do v2 <- classifyResponse r2 approvalCondition;
  ret {| question := question; approvalCondition := approvalCondition;
         searchContext := context search; searchFailed := failed search;
         imageContext := imageContext; fileContext := fileContext;
         userContext := userContext; language := l;
         melchior := setVerdict r0 v0;
         balthasar := setVerdict r1 v1;
         casper := setVerdict r2 v2 |}.

End Orchestrator.

End Engine.

(** ** [src/magi/engine.ts]: context compression *)

Module Compress.
Import Run Client Engine.
Local Open Scope run_scope.

Definition CONTEXT_LIMIT : nat := 800.

(** [compressContext]. Its three arguments only feed the prompt; [tag] is
    the kind its chat calls are recorded under. *)
Definition compressContext (tag : CallKind) (previousContext : option jsstring)
    (question : jsstring) (result : MagiDeliberation) : M (option jsstring) :=
  tryCatch
    (do r <- dataChat tag;
     let compressed := Engine.result r in
     if decide (length (trim compressed) = 0) then ret None
     else
       let summary := trim compressed in
       if decide (CONTEXT_LIMIT < length summary)
       then ret (Some (slice0 (CONTEXT_LIMIT - 1) summary ++ ellipsis))
       else ret (Some summary))
    (λ _, ret None).

End Compress.

(** ** [src/image/renderer.ts]: the tier of the model that answered *)

Module Renderer.

Definition modelTier (model primary : string) (fallbacks : list string)
    (emergency : string) : string :=
  if decide (model = primary) then "PRIMARY"
  else if decide (fallbacks !! 0%nat = Some model) then "SUB"
  else if decide (fallbacks !! 1%nat = Some model) then "BACKUP"
  else if decide (model = emergency) then "EMERGENCY"
  else "UNKNOWN".

End Renderer.

(** ** [src/storage.ts]: user preferences and the cooldown clock *)

Module Storage.

Record UserPref := {
  fixedLang : option SupportedLanguage;
  detectedLang : option SupportedLanguage;
}.

(** The entries [["user", userId, "pref"]] of the KV store. *)
Definition getUserPref (userId : Z) (kv : gmap Z UserPref) : option UserPref :=
  kv !! userId.

Definition setUserPref (userId : Z) (pref : UserPref) (kv : gmap Z UserPref)
  : gmap Z UserPref :=
  let clean := {| fixedLang := fixedLang pref; detectedLang := detectedLang pref |} in
  <[userId := clean]> kv.

(** [String(n)] for an integer. *)
Definition showZ (n : Z) : jsstring :=
  if (n <? 0)%Z then js "-" ++ Client.decimal (Z.to_N (Z.abs n))
  else Client.decimal (Z.to_N n).

(** [s.padStart(2, "0")] *)
Definition padStart2 (s : jsstring) : jsstring :=
  replicate (2 - length s) 48%N ++ s.

Definition formatRemaining (ms : Q) : jsstring :=
  let totalSec := Qceiling (ms / 1000) in
  let h := (totalSec / 3600)%Z in
  let m := (Z.rem totalSec 3600 / 60)%Z in
  let s := Z.rem totalSec 60 in
  padStart2 (showZ h) ++ js ":" ++ padStart2 (showZ m) ++ js ":" ++ padStart2 (showZ s).

End Storage.

(** ** [src/bot.ts]: helpers of the command handlers *)

Module Bot.
Import RateLimits Storage.

(** [text.replace(/c/g, rep)] for a one-character pattern. *)
Definition replaceChar (c : N) (rep : jsstring) (text : jsstring) : jsstring :=
  flat_map (λ x, if (x =? c)%N then rep else [x]) text.

(** Escape HTML special characters to prevent Telegram parse errors. *)
Definition escapeHtml (text : jsstring) : jsstring :=
  replaceChar 34 (js "&quot;")
    (replaceChar 62 (js "&gt;")
       (replaceChar 60 (js "&lt;")
          (replaceChar 38 (js "&amp;") text))).

(** [isActive] of the status command: [(active, highLoad)]. *)
Definition isActive (now : Q) (model : string) (tr : Tracker) : (bool * bool) * Tracker :=
  let '(load, tr') := getLoadInfo now model tr in
  let dims := filter (λ v, 0 <= v)%Q [tpm load; rpm load; rpd load; tpd load] in
  if decide (length dims = 0%nat) then ((false, false), tr')
  else if forallb (λ v, Qeq_bool v 0) dims then ((false, false), tr')
  else ((true, existsb (λ v, bool_decide (90 <= v)%Q) dims), tr').

(** [resolveLang]: fixed language, else the language detected from the
    text (and saved), else the one saved before, else English.
    [userId = None] stands for [undefined]; [0] is falsy too. *)
Definition resolveLang (userId : option Z) (text : option jsstring)
    (kv : gmap Z UserPref) : SupportedLanguage * gmap Z UserPref :=
  match userId with
  | None => (en, kv)
  | Some uid =>
      if decide (uid = 0%Z) then (en, kv)
      else
        let pref := getUserPref uid kv in
        match text with
        | Some (c :: txt) =>
            let detected := Text.detectLanguage (c :: txt) in
            let kv' := setUserPref uid
                         {| fixedLang := pref ≫= fixedLang;
                            detectedLang := Some detected |} kv in
            (default detected (pref ≫= fixedLang), kv')
        | _ =>
            (default (default en (pref ≫= detectedLang)) (pref ≫= fixedLang), kv)
        end
  end.

End Bot.

(** ** Definitions on the side of the specification *)

Module Spec.
Import RateLimits.

(** The votes of a deliberation, in persona order. *)
Definition votes (d : MagiDeliberation) : list Verdict :=
  [verdict (melchior d); verdict (balthasar d); verdict (casper d)].

(** The consensus in the words of the specification: discard REFUSE, count
    [a], [d], [c] among the remaining votes, and decide on the counts. *)
Definition consensus (vs : list Verdict) : DeliberationResult :=
  let remaining := List.filter (λ v, negb (bool_decide (v = REFUSE))) vs in
  let a := count_occ Verdict_eq_dec remaining APPROVE in
  let d := count_occ Verdict_eq_dec remaining DENY in
  let c := count_occ Verdict_eq_dec remaining CONDITIONAL in
  if 2 <=? a then approved
  else if 2 <=? d then denied
  else if 2 <=? a + c then conditional
  else noConsensus.

(** A deliberation whose three responses carry the given verdicts. *)
Definition withVerdicts (d : MagiDeliberation) (v1 v2 v3 : Verdict)
  : MagiDeliberation :=
  {| question := question d; approvalCondition := approvalCondition d;
     searchContext := searchContext d; searchFailed := searchFailed d;
     imageContext := imageContext d; fileContext := fileContext d;
     userContext := userContext d; language := language d;
     melchior := setVerdict (melchior d) v1;
     balthasar := setVerdict (balthasar d) v2;
     casper := setVerdict (casper d) v3 |}.

(** A percentage, or the mark of an unmeasured dimension. *)
Definition inRange (x : Q) : Prop := (x == -1 ∨ (0 <= x ∧ x <= 100))%Q.

(** [(limit - remaining) / limit * 100] *)
Definition usage (limit remaining : Q) : Q := ((limit - remaining) / limit * 100)%Q.

(** The tracker after requests recorded at the given times, in order. *)
Definition recordAll (model : string) (times : list Q) (tr : Tracker) : Tracker :=
  foldl (λ tr t, recordModelRequest t model tr) tr times.

(** No daily token counter is negative. *)
Definition tokensOk (tr : Tracker) : Prop :=
  ∀ model entry, tpdWindows tr !! model = Some entry → (0 <= tokens entry)%Q.

(** The trackers a process can be in: it starts empty and is changed by
    requests, token counts (never negative), response headers, and the
    pruning done while the load is read. *)
Inductive reachable : Tracker → Prop :=
| reach_empty : reachable emptyTracker
| reach_request t model tr :
    reachable tr → reachable (recordModelRequest t model tr)
| reach_tokens t model n tr :
    (0 <= n)%Q → reachable tr → reachable (recordModelTokens t model n tr)
| reach_headers t model h tr :
    reachable tr → reachable (updateFromHeaders t model h tr)
| reach_load t model tr :
    reachable tr → reachable (getLoadInfo t model tr).2.

End Spec.

(** ** Statements about runs *)

Module Triple.
Import Run.

(** [m] always returns, never throws, and what it returns satisfies [P]. *)
Definition total {A} (m : M A) (P : A → Prop) : Prop :=
  ∀ w, ∃ a w', m w = (Ok a, w') ∧ P a.

(** What [m] returns, when it does not throw, satisfies [P]. *)
Definition post {A} (m : M A) (P : A → Prop) : Prop :=
  ∀ w, match (m w).1 with Ok a => P a | Throw _ => True end.

(** [m] only appends to the record of chat calls. *)
Definition grows {A} (m : M A) : Prop :=
  ∀ w, ∃ more, calls (m w).2 = calls w ++ more.

(** [m], run in [w], makes the chat call [c] before any other. *)
Definition opens {A} (m : M A) (w : World) (c : ChatCall) : Prop :=
  ∃ more, calls (m w).2 = calls w ++ c :: more.

(** A chat call that gave nothing to work with: it threw, or its text is
    empty once trimmed. *)
Definition failedAnswer (res : Result jsstring) : Prop :=
  match res with
  | Ok s => trim s = []
  | Throw _ => True
  end.

Definition setTracker (tr : RateLimits.Tracker) (w : World) : World :=
  {| tracker := tr; clock := clock w; replies := replies w; calls := calls w |}.

(** The record entry of a chat call of [kind] on [mdl] made in world [w]. *)
Definition entry (kind : CallKind) (mdl : string) (w : World) : ChatCall :=
  {| call_kind := kind; call_model := mdl;
     call_result := (Client.chat kind mdl w).1 |}.

(** No constraint on what is returned. *)
Definition any {A} : A → Prop := λ _, True.

(** The chat call a fallback chain can end in failure on: a condensation of
    a persona's answer, or the persona call on the last model. *)
Definition chainFailure (lastModel : string) (c : ChatCall) : Prop :=
  failedAnswer (call_result c)
  ∧ (call_kind c = Condense target_response
     ∨ (call_kind c = Persona ∧ call_model c = lastModel)).

(** How a turn of the persona loop ends, read off the last chat call it
    made: [c] fails and is a condensation or the persona call itself exactly
    when the response carries an error; a failed persona call ends the turn
    with a response only on the last model. *)
Definition turnOutcome (mdl : string) (lastTurn : bool) (more : list ChatCall)
    (s : Engine.Step PersonaResponse) : Prop :=
  ∃ c, last more = Some c ∧
    match s with
    | Engine.Continue => lastTurn = false
    | Engine.Return r =>
        (is_Some (error r) ↔
           failedAnswer (call_result c)
           ∧ (call_kind c = Condense target_response ∨ call_kind c = Persona))
        ∧ (call_kind c = Persona → failedAnswer (call_result c) →
           lastTurn = true ∧ call_model c = mdl)
    end.

(** The condition of an extraction result, if any, fits the limit. *)
Definition conditionFits (r : Engine.ExtractionResult) : Prop :=
  ∀ c, Engine.condition r = Some c → length c ≤ Engine.CONDITION_LIMIT.

End Triple.

(** ** Sample values *)

Module Samples.
Import Models RateLimits Run.

Definition someResponse (p : PersonaName) (v : Verdict) : PersonaResponse :=
  {| persona := p; content := js "ok"; verdict := v; model := EMERGENCY_MODEL;
     latencyMs := 0%Q; error := None |}.

Definition someDeliberation (v1 v2 v3 : Verdict) : MagiDeliberation :=
  {| question := js "q"; approvalCondition := js "c"; searchContext := None;
     searchFailed := false; imageContext := None; fileContext := None;
     userContext := None; language := en;
     melchior := someResponse MELCHIOR_1 v1;
     balthasar := someResponse BALTHASAR_2 v2;
     casper := someResponse CASPER_3 v3 |}.

(** Thirty-one requests to the emergency model, one a second from 1 s to
    31 s, on a fresh tracker. *)
Definition burstTimes : list Q :=
  map (λ i, inject_Z (Z.of_nat i * 1000)) (seq 1 31).
Definition burst : Tracker := Spec.recordAll LLAMA31_8B burstTimes emptyTracker.

Definition noHeaders : Headers :=
  {| limitReq := None; remainReq := None; resetReq := None;
     limitTok := None; remainTok := None; resetTok := None |}.

(** A reply after [dt] ms during which no other task touches the tracker. *)
Definition after (dt : Q) (r : Reply) : Incoming :=
  {| elapsed := dt; meanwhile := λ tr, tr; reply := r |}.

(** Header data of a model whose token budget of the minute is spent. *)
Definition spent : RateLimitInfo :=
  {| rpdLimit := 0; rpdRemaining := 0; rpdResetAt := 0;
     tpmLimit := 100; tpmRemaining := 0; tpmResetAt := 0; updatedAt := 0 |}.

(** The data processing model is at 100 % TPM; it answers all the same. *)
Definition overloaded : World :=
  {| tracker := setStore DATA_PROCESSING_MODEL spent emptyTracker;
     clock := 1000%Q;
     replies := [after 5 (HttpOk noHeaders (js "CONDITION: the plan is carried out") 10)];
     calls := [] |}.

(** The primary model of MELCHIOR is at 100 % TPM. *)
Definition primaryOverloaded : World :=
  {| tracker := setStore QWEN3_32B spent emptyTracker;
     clock := 1000%Q;
     replies := [after 5 (HttpOk noHeaders (js "Approved.") 10)];
     calls := [] |}.

(** The primary model answers at length; the condense call then fails. *)
Definition verbose : World :=
  {| tracker := emptyTracker; clock := 1000%Q;
     replies := [after 5 (HttpOk noHeaders (replicate 300 97%N) 10);
                 after 7 (NetFail (js "network down"))];
     calls := [] |}.

(** A model answers with a condition of 130 characters; the condense call
    fails. *)
Definition longCondition : World :=
  {| tracker := emptyTracker; clock := 1000%Q;
     replies := [after 5 (HttpOk noHeaders (js "CONDITION: " ++ replicate 130 97%N) 10);
                 after 7 (NetFail (js "network down"))];
     calls := [] |}.

Definition messages (l : SupportedLanguage) (key : Engine.MessageKey) : jsstring :=
  match key with
  | Engine.outputOverflow => js "OUTPUT OVERFLOW"
  | Engine.coreMalfunction => js "CORE MALFUNCTION"
  end.

Definition melchiorOptions : Engine.QueryPersonaOptions :=
  {| Engine.o_config :=
       {| name := MELCHIOR_1; cfg_model := QWEN3_32B;
          fallbackModels := [LLAMA4_MAVERICK]; emergencyModel := EMERGENCY_MODEL;
          temperature := (1 # 10)%Q; systemPrompt := [] |};
     Engine.o_question := js "q"; Engine.o_approvalCondition := [];
     Engine.o_language := en; Engine.o_searchContext := None;
     Engine.o_searchFailed := false; Engine.o_imageContext := None;
     Engine.o_fileContext := None; Engine.o_userContext := None |}.

End Samples.

(** ** More definitions for statements *)

Module More.

(** No white space at the head of [s]. *)
Definition cleanHead (s : jsstring) : Prop :=
  match s with c :: _ => isSpace c = false | [] => True end.

(** [s] holds no line terminator. *)
Definition oneLine (s : jsstring) : Prop :=
  Forall (λ c, isLineTerminator c = false) s.

(** What every response of a persona query looks like: it carries the
    persona's name, the placeholder verdict, and either a shaped answer
    within the length limit or one of the two canned messages with an
    error. *)
Definition wellShaped (sanitizeContent : jsstring → jsstring)
    (t : SupportedLanguage → Engine.MessageKey → jsstring)
    (opts : Engine.QueryPersonaOptions) (r : PersonaResponse) : Prop :=
  persona r = name (Engine.o_config opts)
  ∧ verdict r = REFUSE
  ∧ (error r = None →
     ∃ s, content r = sanitizeContent s ∧ 0 < length s ≤ Engine.CHAR_LIMIT)
  ∧ (is_Some (error r) →
     content r = t (Engine.o_language opts) Engine.outputOverflow
     ∨ content r = t (Engine.o_language opts) Engine.coreMalfunction).

(** A text of at least one and at most [n] code units, if there is one. *)
Definition within (n : nat) (r : option jsstring) : Prop :=
  ∀ s, r = Some s → 0 < length s ≤ n.

(** One core of a finished deliberation: it carries the persona's name and
    a model of the persona's chain, and if its error is set (and not the
    empty string) its verdict is REFUSE. *)
Definition core (nm : PersonaName) (chain : list string) (p : PersonaResponse) : Prop :=
  persona p = nm ∧ model p ∈ chain
  ∧ (Engine.truthy (error p) = true → verdict p = REFUSE).

(** An extraction reply that yields no condition: the call threw, or the
    text has no CONDITION line, or the line is blank. *)
Definition noCondition (res : Run.Result jsstring) : Prop :=
  match res with
  | Run.Throw _ => True
  | Run.Ok s =>
      match Text.matchCondition s with
      | None => True
      | Some cap => trim cap = []
      end
  end.

(** The four characters [escapeHtml] rewrites: [&], [<], [>] and the
    double quote. *)
Definition isHtmlSpecial (c : N) : bool :=
  ((c =? 38) || (c =? 60) || (c =? 62) || (c =? 34))%N.

(** [hh:mm:ss]: eight code units, colons at 2 and 5, digits elsewhere. *)
Definition isDigit (c : N) : bool := ((48 <=? c) && (c <=? 57))%N.
Definition clockShaped (s : jsstring) : Prop :=
  ∃ h1 h2 m1 m2 s1 s2,
    s = [h1; h2; 58; m1; m2; 58; s1; s2]%N
    ∧ forallb isDigit [h1; h2; m1; m2; s1; s2] = true.

(** A record entry. *)
Definition call (kind : Run.CallKind) (mdl : string) (res : Run.Result jsstring)
  : Run.ChatCall :=
  {| Run.call_kind := kind; Run.call_model := mdl; Run.call_result := res |}.

End More.

(** ** More sample values *)

Module Samples2.
Import Models RateLimits Run Samples.

(** The data processing model declines; the emergency model extracts. *)
Definition softFailure : World :=
  {| tracker := emptyTracker; clock := 1000%Q;
     replies := [after 5 (HttpOk noHeaders (js "I cannot help with that.") 10);
                 after 6 (HttpOk noHeaders
                            (js "PROPOSITION: p CONDITION: using the backup plan") 12)];
     calls := [] |}.

(** The primary model of MELCHIOR is at 100 % TPM, its fallback is down,
    the emergency model answers. *)
Definition degraded : World :=
  {| tracker := setStore QWEN3_32B spent emptyTracker; clock := 1000%Q;
     replies := [after 5 (NetFail (js "network down"));
                 after 6 (HttpOk noHeaders (js " Approved, with reason. ") 12)];
     calls := [] |}.

End Samples2.

(** ** Reading the record of chat calls *)

Module Trace.
Import Models RateLimits Run Client Text Engine Triple More.

#[global] Instance CondenseTarget_eq_dec : EqDecision CondenseTarget.
Proof. solve_decision. Defined.
#[global] Instance CallKind_eq_dec : EqDecision CallKind.
Proof. solve_decision. Defined.

(** The models on which a call of [kind] was made, oldest first. *)
Definition attempted (kind : CallKind) (cs : list ChatCall) : list string :=
  call_model <$> filter (λ c, call_kind c = kind) cs.

(** Two worlds that differ at most in the rate limit tracker. *)
Definition sameButLoad (w1 w2 : World) : Prop :=
  clock w1 = clock w2 ∧ replies w1 = replies w2 ∧ calls w1 = calls w2.

(** [m] does not look at the load: run in two worlds that differ at most
    in the tracker, it ends the same way and leaves two such worlds. *)
Definition blind {A} (m : M A) : Prop :=
  ∀ w1 w2, sameButLoad w1 w2 →
           (m w1).1 = (m w2).1 ∧ sameButLoad (m w1).2 (m w2).2.

(** What stands for a raw condition over the limit, in the words of the
    specification: the result of the condense call, cut to the limit with an
    ellipsis if still too long, or, when that call failed (it threw, or gave
    a blank text), the first 119 characters of the raw condition and an
    ellipsis. *)
Definition replacement (rawCond : jsstring) (condensed : Result jsstring) : jsstring :=
  match condensed with
  | Ok s =>
      if decide (trim s = []) then take 119 rawCond ++ ellipsis
      else if decide (length (trim s) ≤ 120) then trim s
      else take 119 (trim s) ++ ellipsis
  | Throw _ => take 119 rawCond ++ ellipsis
  end.

(** The attempt on [mdl], made in world [w], gives the condition of [r]:
    the reply has a CONDITION line that is not blank; within the limit it is
    returned as it is and no further call is made, over the limit one
    condense call on the same model follows and its [replacement] is
    returned. [more] is what the attempt adds to the record after the
    extraction call itself. *)
Definition yields (mdl : string) (w : World) (more : list ChatCall)
    (r : ExtractionResult) : Prop :=
  ∃ s cap,
    (chat Extract mdl w).1 = Ok s ∧ matchCondition s = Some cap ∧ trim cap ≠ []
    ∧ ((length (trim cap) ≤ CONDITION_LIMIT ∧ more = []
        ∧ condition r = Some (trim cap))
       ∨ (CONDITION_LIMIT < length (trim cap)
          ∧ more = [entry (Condense target_condition) mdl (chat Extract mdl w).2]
          ∧ condition r
            = Some (replacement (trim cap)
                      (chat (Condense target_condition) mdl
                         (chat Extract mdl w).2).1))).

(** The message of what a failed persona call throws: the error of the
    call, or that of the empty answer. *)
Definition failureMessage (res : Result jsstring) : jsstring :=
  match res with
  | Throw e => errMessage e
  | Ok _ => js "Empty response from model"
  end.

(** Among the calls [more], [mdl] gave a text (its answer, or the purified
    form of it) that is over the length limit once trimmed. *)
Definition overLimit (mdl : string) (more : list ChatCall) : Prop :=
  ∃ p s, p ∈ more ∧ call_model p = mdl
         ∧ (call_kind p = Persona ∨ call_kind p = Purify)
         ∧ call_result p = Ok s ∧ CHAR_LIMIT < length (trim s).

(** What the response [r] of a chain is, given the last chat call [c] of
    the run: after a failed condense call the overflow notice, under the
    model that was condensed, with the fixed error; after a failed persona
    call the malfunction notice with the message of the failure. *)
Definition responseDetail (t : SupportedLanguage → MessageKey → jsstring)
    (l : SupportedLanguage) (more : list ChatCall) (c : ChatCall)
    (r : PersonaResponse) : Prop :=
  (failedAnswer (call_result c) → call_kind c = Condense target_response →
   error r = Some condenseFailed ∧ content r = t l outputOverflow
   ∧ model r = call_model c ∧ overLimit (call_model c) more)
  ∧ (failedAnswer (call_result c) → call_kind c = Persona →
     error r = Some (failureMessage (call_result c))
     ∧ content r = t l coreMalfunction ∧ model r = call_model c).

End Trace.

(** * Theorems *)

Section Consensus.
Import Spec.

Lemma computeDeliberationResult_votes d :
  computeDeliberationResult d = consensus (votes d).
Proof.
  destruct d as [? ? ? ? ? ? ? ? [? ? v1 ? ? ?] [? ? v2 ? ? ?] [? ? v3 ? ? ?]].
  destruct v1, v2, v3; reflexivity.
Qed.

Lemma consensus_perm vs vs' : vs ≡ₚ vs' → consensus vs = consensus vs'.
Proof.
  intros Hp. unfold consensus.
  assert (Hf : List.filter (λ v, negb (bool_decide (v = REFUSE))) vs
               ≡ₚ List.filter (λ v, negb (bool_decide (v = REFUSE))) vs').
  { induction Hp; simpl; repeat case_match; eauto using Permutation. }
  set (r := List.filter _ vs) in *. set (r' := List.filter _ vs') in *.
  assert (Hc : ∀ v, count_occ Verdict_eq_dec r v = count_occ Verdict_eq_dec r' v).
  { intros v. clearbody r r'. induction Hf; simpl; repeat case_match; congruence. }
  by rewrite !Hc.
Qed.

(** C1. For every triple of verdicts, [computeDeliberationResult] discards
    the REFUSE votes and decides on the counts of the rest: approved if
    a >= 2, else denied if d >= 2, else conditional if a + c >= 2, else
    noConsensus. The five sample triples of the specification come out as
    it says. *)
Theorem computeDeliberationResult_spec :
  (∀ d v1 v2 v3,
     computeDeliberationResult (withVerdicts d v1 v2 v3) = consensus [v1; v2; v3])
  ∧ (∀ d, computeDeliberationResult (withVerdicts d APPROVE APPROVE DENY) = approved)
  ∧ (∀ d, computeDeliberationResult (withVerdicts d DENY DENY CONDITIONAL) = denied)
  ∧ (∀ d, computeDeliberationResult (withVerdicts d APPROVE CONDITIONAL REFUSE)
          = conditional)
  ∧ (∀ d, computeDeliberationResult (withVerdicts d APPROVE DENY REFUSE) = noConsensus)
  ∧ (∀ d, computeDeliberationResult (withVerdicts d REFUSE REFUSE REFUSE) = noConsensus).
Proof.
  split; [|repeat split; intros d; by rewrite computeDeliberationResult_votes].
  intros d v1 v2 v3. by rewrite computeDeliberationResult_votes.
Qed.

(** C7. [computeDeliberationResult] is defined on every deliberation and
    depends only on the multiset of the three verdicts: two deliberations
    whose votes are permutations of each other get the same result. *)
Theorem computeDeliberationResult_permutation d d' :
  votes d ≡ₚ votes d' →
  computeDeliberationResult d = computeDeliberationResult d'.
Proof.
  intros Hp. rewrite !computeDeliberationResult_votes. by apply consensus_perm.
Qed.

Lemma computeDeliberationResult_permutation_witness :
  votes (Samples.someDeliberation APPROVE DENY APPROVE)
    ≡ₚ votes (Samples.someDeliberation DENY APPROVE APPROVE)
  ∧ computeDeliberationResult (Samples.someDeliberation APPROVE DENY APPROVE)
    = computeDeliberationResult (Samples.someDeliberation DENY APPROVE APPROVE).
Proof.
  assert (Hp : votes (Samples.someDeliberation APPROVE DENY APPROVE)
               ≡ₚ votes (Samples.someDeliberation DENY APPROVE APPROVE))
    by (unfold votes; simpl; apply perm_swap).
  split; [exact Hp | exact (computeDeliberationResult_permutation _ _ Hp)].
Defined.

End Consensus.

Section Tracker.
Import Models RateLimits Spec.
Local Open Scope Q_scope.

Lemma clamp_range x : 0 <= Qmax 0 (Qmin 100 x) ∧ Qmax 0 (Qmin 100 x) <= 100.
Proof.
  split; [apply Q.le_max_l|].
  apply Q.max_lub; [lra | apply Q.le_min_l].
Qed.

Lemma dimensionUsage_inRange now limit remaining resetAt :
  inRange (dimensionUsage now limit remaining resetAt).
Proof.
  unfold dimensionUsage, inRange. repeat case_decide.
  - left; reflexivity.
  - right; lra.
  - right; apply clamp_range.
Qed.

(** C3, as amended. [dimensionUsage] returns -1 when no limit is known
    (limit <= 0); with a known limit it returns 0 when a reset time is set
    (resetAt > 0) and has passed (now > resetAt); otherwise it returns
    (limit - remaining) / limit * 100 clamped to [0, 100]. In particular
    limit = 100, remaining = 100 and a reset time in the past give 0, and
    limit = 0 gives -1. *)
Theorem dimensionUsage_cases now limit remaining resetAt :
  (limit <= 0 → dimensionUsage now limit remaining resetAt == -1)
  ∧ (0 < limit → 0 < resetAt → resetAt < now →
     dimensionUsage now limit remaining resetAt == 0)
  ∧ (0 < limit → ¬ (0 < resetAt ∧ resetAt < now) →
     let u := usage limit remaining in
     let r := dimensionUsage now limit remaining resetAt in
     0 <= r ∧ r <= 100
     ∧ (u <= 0 → r == 0) ∧ (0 <= u → u <= 100 → r == u) ∧ (100 <= u → r == 100))
  ∧ (0 < resetAt → resetAt < now → dimensionUsage now 100 100 resetAt == 0)
  ∧ dimensionUsage now 0 remaining resetAt == -1.
Proof.
  unfold dimensionUsage, usage.
  set (u := (limit - remaining) / limit * 100).
  split; [|split; [|split; [|split]]].
  - intros. case_decide; [reflexivity | lra].
  - intros. case_decide; [lra|]. case_decide; [reflexivity | tauto].
  - intros Hl Hr. cbv zeta.
    case_decide; [lra|]. case_decide; [tauto|].
    destruct (clamp_range u) as [Hlo Hhi].
    split; [exact Hlo|]. split; [exact Hhi|].
    split; [|split].
    + intros Hu. rewrite Q.max_l; [reflexivity|].
      pose proof (Q.le_min_r 100 u). lra.
    + intros Hu0 Hu1. rewrite Q.min_r by exact Hu1. by rewrite Q.max_r.
    + intros Hu. rewrite Q.min_l by exact Hu. rewrite Q.max_r; [reflexivity | lra].
  - intros. case_decide; [lra|]. case_decide; [reflexivity | tauto].
  - case_decide; [reflexivity | lra].
Qed.

Lemma dimensionUsage_cases_witness :
  (0 < 100 ∧ 0 < 500 ∧ 500 < 1000) ∧ dimensionUsage 1000 100 100 500 == 0.
Proof.
  assert (H1 : 0 < 100) by reflexivity.
  assert (H2 : 0 < 500) by reflexivity.
  assert (H3 : 500 < 1000) by reflexivity.
  split; [auto|].
  exact (proj1 (proj2 (dimensionUsage_cases 1000 100 100 500)) H1 H2 H3).
Defined.

(** C3, as the specification words it, fails: with no reset time on record
    (resetAt = 0, as [updateFromHeaders] stores it when the header is
    missing) every [now] is later, yet a spent budget reads 100, not 0. *)
Lemma dimensionUsage_unset_reset :
  ¬ (∀ now limit remaining resetAt,
       0 < limit → resetAt < now →
       dimensionUsage now limit remaining resetAt == 0).
Proof.
  intros H. specialize (H 1000 100 0 0). vm_compute in H.
  specialize (H eq_refl eq_refl). discriminate H.
Qed.

Lemma MODEL_LIMITS_positive model limits :
  MODEL_LIMITS !! model = Some limits →
  0 < limit_rpm limits ∧ ∀ l, limit_tpd limits = Some l → 0 < l.
Proof.
  intros Hm. apply elem_of_list_to_map_2 in Hm.
  unfold GPT_OSS_120B, KIMI_K2, KIMI_K2_0905, LLAMA4_SCOUT, LLAMA4_MAVERICK,
    LLAMA33_70B, LLAMA31_8B, QWEN3_32B, COMPOUND, COMPOUND_MINI in Hm.
  repeat (apply elem_of_cons in Hm as [Hm | Hm];
          [injection Hm as _ ->; split; [reflexivity |];
           intros l Hl; simplify_eq/=; reflexivity |]).
  by apply elem_of_nil in Hm.
Qed.

(** C4. [shouldSkipModel] is true exactly when one of the four dimensions
    of [getLoadInfo] is at or over 95; a model whose four dimensions all
    read -1 is not skipped, and such is every model the tracker holds no
    data on. *)
Theorem shouldSkipModel_iff now model tr :
  let load := (getLoadInfo now model tr).1 in
  ((shouldSkipModel now model tr).1 = true ↔
     95 <= tpm load ∨ 95 <= rpm load ∨ 95 <= rpd load ∨ 95 <= tpd load)
  ∧ (tpm load == -1 → rpm load == -1 → rpd load == -1 → tpd load == -1 →
     (shouldSkipModel now model tr).1 = false)
  ∧ (store tr !! model = None → rpmWindows tr !! model = None →
     tpdWindows tr !! model = None →
     load = {| tpm := -1; rpm := -1; rpd := -1; tpd := -1 |}
     ∧ (shouldSkipModel now model tr).1 = false).
Proof.
  cbv zeta. unfold shouldSkipModel.
  assert (Hskip : ∀ load : LoadInfo,
    (bool_decide (SKIP_THRESHOLD <= tpm load) || bool_decide (SKIP_THRESHOLD <= rpm load)
     || bool_decide (SKIP_THRESHOLD <= rpd load)
     || bool_decide (SKIP_THRESHOLD <= tpd load)) = true
    ↔ 95 <= tpm load ∨ 95 <= rpm load ∨ 95 <= rpd load ∨ 95 <= tpd load).
  { intros load. rewrite !orb_true_iff, !bool_decide_eq_true.
    unfold SKIP_THRESHOLD. tauto. }
  split; [|split].
  - destruct (getLoadInfo now model tr) as [load tr']. simpl. apply Hskip.
  - destruct (getLoadInfo now model tr) as [load tr']. simpl.
    intros H1 H2 H3 H4. apply not_true_is_false. rewrite Hskip.
    rewrite H1, H2, H3, H4. intros [H | [H | [H | H]]]; lra.
  - intros Hs Hr Ht.
    assert (Hl : (getLoadInfo now model tr).1
                 = {| tpm := -1; rpm := -1; rpd := -1; tpd := -1 |}).
    { unfold getLoadInfo, rpmUsagePercent, tpdUsagePercent.
      rewrite Hs, Hr. destruct (MODEL_LIMITS !! model) as [limits|]; simpl.
      - rewrite Ht. by destruct (limit_tpd limits).
      - reflexivity. }
    split; [exact Hl|].
    destruct (getLoadInfo now model tr) as [load tr']. simpl in *. by subst load.
Qed.

Lemma shouldSkipModel_iff_witness :
  (store emptyTracker !! LLAMA31_8B = None
   ∧ rpmWindows emptyTracker !! LLAMA31_8B = None
   ∧ tpdWindows emptyTracker !! LLAMA31_8B = None)
  ∧ (shouldSkipModel 1000 LLAMA31_8B emptyTracker).1 = false.
Proof.
  assert (H1 : store emptyTracker !! LLAMA31_8B = None) by reflexivity.
  assert (H2 : rpmWindows emptyTracker !! LLAMA31_8B = None) by reflexivity.
  assert (H3 : tpdWindows emptyTracker !! LLAMA31_8B = None) by reflexivity.
  split; [auto|].
  exact (proj2 (proj2 (proj2 (shouldSkipModel_iff 1000 LLAMA31_8B emptyTracker))
                  H1 H2 H3)).
Defined.

(** *** The token counters of a reachable tracker are never negative *)

Lemma tokensOk_reachable tr : reachable tr → tokensOk tr.
Proof.
  induction 1 as [| t model tr _ IH | t model n tr Hn _ IH
                  | t model h tr _ IH | t model tr _ IH]; intros m e.
  - simpl. by rewrite lookup_empty.
  - apply IH.
  - unfold recordModelTokens.
    destruct (tpdWindows tr !! model) as [entry|] eqn:He;
      [case_decide|]; simpl;
      (destruct (decide (model = m)) as [->|Hne];
        [rewrite lookup_insert_eq; intros [= <-]; simpl
        |rewrite lookup_insert_ne by done; apply IH]); try done.
    specialize (IH _ _ He). lra.
  - unfold updateFromHeaders.
    destruct (limitReq h), (remainReq h); simpl; apply IH.
  - unfold getLoadInfo, rpmUsagePercent.
    destruct (MODEL_LIMITS !! model), (rpmWindows tr !! model), (store tr !! model);
      simpl; apply IH.
Qed.

Lemma tpdUsagePercent_inRange now model tr :
  tokensOk tr → inRange (tpdUsagePercent now model tr).
Proof.
  intros Hok. unfold tpdUsagePercent, inRange.
  destruct (MODEL_LIMITS !! model) as [limits|] eqn:Hm; [|left; reflexivity].
  destruct (limit_tpd limits) as [l|] eqn:Hl; [|left; reflexivity].
  destruct (tpdWindows tr !! model) as [entry|] eqn:He; [|left; reflexivity].
  case_decide; right; [lra|].
  destruct (MODEL_LIMITS_positive _ _ Hm) as [_ Hpos].
  specialize (Hpos _ Hl). specialize (Hok _ _ He).
  split; [|apply Q.le_min_l].
  apply Q.min_glb; [lra|].
  apply Qmult_le_0_compat; [|lra].
  apply Qle_shift_div_l; [exact Hpos | lra].
Qed.

(** The three clamped dimensions keep to the documented range on every
    reachable tracker. *)
Lemma getLoadInfo_clamped_inRange now model tr :
  reachable tr →
  let load := (getLoadInfo now model tr).1 in
  inRange (tpm load) ∧ inRange (rpd load) ∧ inRange (tpd load).
Proof.
  intros Hr. cbv zeta. unfold getLoadInfo.
  destruct (rpmUsagePercent now model tr) as [r tr'] eqn:Er.
  assert (Hok : tokensOk tr').
  { apply tokensOk_reachable in Hr. unfold rpmUsagePercent in Er.
    destruct (MODEL_LIMITS !! model), (rpmWindows tr !! model);
      simplify_eq; exact Hr. }
  destruct (store tr !! model) as [info|]; simpl;
    (split; [|split]); try apply dimensionUsage_inRange;
    try (left; reflexivity); by apply tpdUsagePercent_inRange.
Qed.

(** C5 fails on the RPM dimension. Thirty-one requests to the emergency
    model (30 requests a minute) within 31 seconds are a reachable state
    of the tracker, and there the RPM field of [getLoadInfo] reads
    310/3, over 100: [rpmUsagePercent] does not clamp, where
    [dimensionUsage] and [tpdUsagePercent] do. *)
Theorem getLoadInfo_rpm_over_100 :
  reachable Samples.burst
  ∧ rpm (getLoadInfo 31000 LLAMA31_8B Samples.burst).1 == 310 # 3
  ∧ ¬ inRange (rpm (getLoadInfo 31000 LLAMA31_8B Samples.burst).1).
Proof.
  split; [|split].
  - unfold Samples.burst, Samples.burstTimes, recordAll. simpl. repeat constructor.
  - vm_compute. reflexivity.
  - intros [H | [_ H]]; vm_compute in H; [discriminate H | by apply H].
Qed.

(** *** The RPM window after the horizon *)

Lemma prune_all (cutoff tmax : Q) (w : list Q) :
  Forall (λ ts, ts <= tmax) w → tmax < cutoff →
  filter (λ ts, cutoff < ts) w = [].
Proof.
  intros Hw Hc. induction Hw as [|ts w Hts _ IH]; [done|].
  rewrite filter_cons. case_decide; [lra | exact IH].
Qed.

Lemma prune_Forall (P : Q → Prop) (cutoff : Q) (w : list Q) :
  Forall P w → Forall P (filter (λ ts, cutoff < ts) w).
Proof.
  intros Hw. induction Hw as [|ts w Hts _ IH]; [done|].
  rewrite filter_cons. case_decide; [by constructor | exact IH].
Qed.

Lemma recordAll_window model tmax times : ∀ tr w,
  rpmWindows tr !! model = Some w →
  Forall (λ ts, ts <= tmax) w →
  Forall (λ t, t <= tmax) times →
  ∃ w', rpmWindows (recordAll model times tr) !! model = Some w'
        ∧ Forall (λ ts, ts <= tmax) w'.
Proof.
  induction times as [|t times IH]; intros tr w Hw Hle Ht; [by exists w|].
  apply Forall_cons in Ht as [Ht Hts].
  unfold recordAll. simpl.
  apply (IH _ (filter (λ ts, t - RPM_WINDOW_MS < ts) w ++ [t])); [| |exact Hts].
  - unfold recordModelRequest. simpl. rewrite lookup_insert_eq, Hw. reflexivity.
  - apply Forall_app. split; [by apply prune_Forall | by constructor].
Qed.

(** C8. For a model with a known RPM limit, once one or more requests
    have been recorded and more than 60 s have gone by since the last
    timestamp on record, with nothing recorded in between, the RPM field
    of [getLoadInfo] reads 0. *)
Theorem rpm_cleared_after_window model limits tr times tmax now :
  MODEL_LIMITS !! model = Some limits →
  times ≠ [] →
  Forall (λ t, t <= tmax) times →
  Forall (λ ts, ts <= tmax) (default [] (rpmWindows tr !! model)) →
  tmax + RPM_WINDOW_MS < now →
  rpm (getLoadInfo now model (recordAll model times tr)).1 == 0.
Proof.
  intros Hm Hne Ht Hw Hnow.
  destruct times as [|t times]; [done|].
  apply Forall_cons in Ht as [Ht Hts].
  destruct (recordAll_window model tmax times (recordModelRequest t model tr)
              (filter (λ ts, t - RPM_WINDOW_MS < ts)
                      (default [] (rpmWindows tr !! model)) ++ [t]))
    as (w' & Hw' & Hle'); [| |exact Hts|].
  - unfold recordModelRequest. simpl. by rewrite lookup_insert_eq.
  - apply Forall_app. split; [by apply prune_Forall | by constructor].
  - change (recordAll model (t :: times) tr)
      with (recordAll model times (recordModelRequest t model tr)).
    unfold getLoadInfo, rpmUsagePercent. rewrite Hm, Hw'.
    rewrite (prune_all _ tmax) by (try done; unfold RPM_WINDOW_MS in *; lra).
    assert (Hz : len (@nil Q) / limit_rpm limits * 100 == 0)
      by (unfold len; simpl; unfold Qdiv; ring).
    destruct (store _ !! model); cbn [fst rpm];
      (destruct (decide _) as [_|Hd]; [exact Hz | rewrite Hz in Hd; lra]).
Qed.

Lemma rpm_cleared_after_window_witness :
  (MODEL_LIMITS !! LLAMA31_8B = Some {| limit_rpm := 30; limit_tpd := Some 500000 |}
   ∧ [1000; 2000] ≠ []
   ∧ Forall (λ t, t <= 2000) [1000; 2000]
   ∧ Forall (λ ts, ts <= 2000) (default [] (rpmWindows emptyTracker !! LLAMA31_8B))
   ∧ 2000 + RPM_WINDOW_MS < 62001)
  ∧ rpm (getLoadInfo 62001 LLAMA31_8B
           (recordAll LLAMA31_8B [1000; 2000] emptyTracker)).1 == 0.
Proof.
  assert (H1 : MODEL_LIMITS !! LLAMA31_8B
               = Some {| limit_rpm := 30; limit_tpd := Some 500000 |})
    by reflexivity.
  assert (H2 : [1000; 2000] ≠ @nil Q) by discriminate.
  assert (H3 : Forall (λ t, t <= 2000) [1000; 2000])
    by (repeat constructor; discriminate).
  assert (H4 : Forall (λ ts, ts <= 2000)
                 (default [] (rpmWindows emptyTracker !! LLAMA31_8B)))
    by constructor.
  assert (H5 : 2000 + RPM_WINDOW_MS < 62001) by reflexivity.
  split; [auto|].
  exact (rpm_cleared_after_window LLAMA31_8B _ emptyTracker [1000; 2000] 2000 62001
           H1 H2 H3 H4 H5).
Defined.

End Tracker.

Section Runs.
Import Run Client Triple.
Local Open Scope run_scope.

Context {A B : Type}.

Lemma total_ret (a : A) (P : A → Prop) : P a → total (ret a) P.
Proof. intros Ha w. by exists a, w. Qed.

Lemma total_bind (m : M A) (f : A → M B) (P : A → Prop) (Q : B → Prop) :
  total m P → (∀ a, P a → total (f a) Q) → total (bind m f) Q.
Proof.
  intros Hm Hf w. destruct (Hm w) as (a & w1 & Em & Ha).
  destruct (Hf a Ha w1) as (b & w2 & Ef & Hb).
  exists b, w2. unfold bind. by rewrite Em.
Qed.

Lemma total_mono (m : M A) (P Q : A → Prop) :
  total m P → (∀ a, P a → Q a) → total m Q.
Proof.
  intros Hm HPQ w. destruct (Hm w) as (a & w1 & Em & Ha). exists a, w1. auto.
Qed.

Lemma post_ret (a : A) (P : A → Prop) : P a → post (ret a) P.
Proof. intros Ha w. exact Ha. Qed.

Lemma post_throw (e : Err) (P : A → Prop) : post (throw e) P.
Proof. intros w. exact I. Qed.

Lemma post_any (m : M A) : post m (λ _, True).
Proof. intros w. by destruct (m w).1. Qed.

Lemma post_bind (m : M A) (f : A → M B) (P : A → Prop) (Q : B → Prop) :
  post m P → (∀ a, P a → post (f a) Q) → post (bind m f) Q.
Proof.
  intros Hm Hf w. specialize (Hm w). unfold bind.
  destruct (m w) as [[a|e] w1]; simpl in *; [|exact I].
  apply (Hf a Hm w1).
Qed.

Lemma total_post (m : M A) (P : A → Prop) : total m P → post m P.
Proof. intros Hm w. destruct (Hm w) as (a & w1 & -> & Ha). exact Ha. Qed.

Lemma total_tryCatch (m : M A) (h : Err → M A) (P : A → Prop) :
  post m P → (∀ e, total (h e) P) → total (tryCatch m h) P.
Proof.
  intros Hm Hh w. specialize (Hm w). unfold tryCatch.
  destruct (m w) as [[a|e] w1]; simpl in *; [by exists a, w1 | apply Hh].
Qed.

Lemma grows_ret (a : A) : grows (ret a).
Proof. intros w. exists []. simpl. by rewrite app_nil_r. Qed.

Lemma grows_throw (e : Err) : grows (@throw A e).
Proof. intros w. exists []. simpl. by rewrite app_nil_r. Qed.

Lemma grows_bind (m : M A) (f : A → M B) :
  grows m → (∀ a, grows (f a)) → grows (bind m f).
Proof.
  intros Hm Hf w. destruct (Hm w) as [more1 H1]. unfold bind.
  destruct (m w) as [[a|e] w1]; simpl in *.
  - destruct (Hf a w1) as [more2 H2]. exists (more1 ++ more2).
    by rewrite H2, H1, app_assoc.
  - by exists more1.
Qed.

Lemma grows_tryCatch (m : M A) (h : Err → M A) :
  grows m → (∀ e, grows (h e)) → grows (tryCatch m h).
Proof.
  intros Hm Hh w. destruct (Hm w) as [more1 H1]. unfold tryCatch.
  destruct (m w) as [[a|e] w1]; simpl in *.
  - by exists more1.
  - destruct (Hh e w1) as [more2 H2]. exists (more1 ++ more2).
    by rewrite H2, H1, app_assoc.
Qed.

End Runs.

Section ChatCalls.
Import RateLimits Run Client Triple.

Lemma chatBody_calls mdl w : calls (chatBody mdl w).2 = calls w.
Proof.
  unfold chatBody, bind, onTracker, withTracker, fetch. simpl.
  destruct (replies w) as [|[dt f r] rs]; simpl; [reflexivity|].
  destruct r as [msg | h status body | h msg | h raw n]; simpl; try reflexivity.
  by destruct ((status =? 429)%N || (status =? 503)%N).
Qed.

(** A chat call adds exactly its own entry to the record. *)
Lemma chat_calls kind mdl w :
  calls (chat kind mdl w).2
  = calls w ++ [{| call_kind := kind; call_model := mdl;
                   call_result := (chat kind mdl w).1 |}].
Proof.
  unfold chat. pose proof (chatBody_calls mdl w) as Hc.
  destruct (chatBody mdl w) as [res w1]. simpl in *. by rewrite Hc.
Qed.

Lemma grows_chat kind mdl : grows (chat kind mdl).
Proof. intros w. eexists. apply chat_calls. Qed.

Lemma grows_now : grows now.
Proof. intros w. exists []. simpl. by rewrite app_nil_r. Qed.

Lemma total_now (P : Q → Prop) : (∀ t, P t) → total now P.
Proof. intros HP w. by exists (clock w), w. Qed.

End ChatCalls.

Section Shaping.
Import Models Run Client Text Engine Triple.
Local Open Scope run_scope.

Lemma cut_length (n : nat) (s : jsstring) :
  length (slice0 n s ++ ellipsis) ≤ S n.
Proof.
  unfold slice0, ellipsis. rewrite length_app, length_take. simpl. lia.
Qed.

Lemma cut_length_exact (n : nat) (s : jsstring) :
  n < length s → length (slice0 n s ++ ellipsis) = S n.
Proof.
  intros Hn. unfold slice0, ellipsis. rewrite length_app, length_take. simpl. lia.
Qed.

(** [condense] never throws, and what it returns fits the limit of its
    target. *)
Lemma condense_total mdl text language target :
  total (condense mdl text language target)
        (λ r, ∀ s, r = Some s → 0 < length s ≤ condenseLimit target).
Proof.
  unfold condense. cbv zeta. apply total_tryCatch.
  - apply post_bind with (P := λ _, True); [apply post_any|].
    intros res _. repeat case_decide; apply post_ret; intros s [= <-].
    + lia.
    + split; [rewrite length_app; unfold ellipsis; simpl; lia|].
      pose proof (cut_length (condenseLimit target - 1) (trim res)).
      destruct target; unfold condenseLimit, CHAR_LIMIT, CONDITION_LIMIT in *; lia.
  - intros e. by apply total_ret.
Qed.

Lemma extractAttempt_total language mdl last :
  total (extractAttempt language mdl last)
        (λ s, ∀ r, s = Return r → conditionFits r).
Proof.
  unfold extractAttempt. apply total_tryCatch.
  - apply post_bind with (P := λ _, True); [apply post_any|].
    intros res _. destruct res as [|c0 res].
    { destruct last; apply post_ret; intros r [= <-]; by intros c. }
    destruct (matchCondition (c0 :: res)) as [cap|].
    2:{ destruct last; apply post_ret; intros r [= <-]; by intros c. }
    case_decide.
    { destruct last; apply post_ret; intros r [= <-]; by intros c. }
    apply post_bind with (P := λ c, length c ≤ CONDITION_LIMIT).
    + case_decide; [|apply post_ret; lia].
      eapply post_bind; [apply total_post, condense_total|].
      intros [s|] Hs; apply post_ret; simpl.
      * by destruct (Hs s eq_refl).
      * apply (cut_length (CONDITION_LIMIT - 1)).
    + intros cond Hc. apply post_ret. intros r [= <-] c [= <-]. exact Hc.
  - intros e. destruct last; apply total_ret; intros r [= <-]; by intros c.
Qed.

Lemma extractLoop_total language models :
  total (extractLoop language models) conditionFits.
Proof.
  induction models as [|mdl rest IH]; simpl.
  - apply total_ret. by intros c.
  - eapply total_bind; [apply extractAttempt_total|].
    intros [|r] Hr; [exact IH | apply total_ret; by apply Hr].
Qed.

End Shaping.

Section Deliberation.
Import Models Run Client Text Engine Triple.
Local Open Scope run_scope.

Variable toLowerCase : jsstring → jsstring.
Variable sanitizeContent : jsstring → jsstring.
Variable t : SupportedLanguage → MessageKey → jsstring.
Variables melchiorPrompt balthasarPrompt casperPrompt : SupportedLanguage → jsstring.

Lemma total_catch_all {A} (m : M A) (h : Err → M A) :
  (∀ e, total (h e) any) → total (tryCatch m h) any.
Proof. intros Hh. apply total_tryCatch; [apply post_any | exact Hh]. Qed.

Lemma describeImage_total img l : total (describeImage img l) any.
Proof. apply total_catch_all. intros e. by apply total_ret. Qed.

Lemma searchLoop_total models : total (searchLoop models) any.
Proof.
  induction models as [|mdl rest IH]; simpl; [by apply total_ret|].
  apply total_bind with (P := any).
  - apply total_catch_all. intros e. destruct (isLast rest); by apply total_ret.
  - intros [|r] _; [exact IH | by apply total_ret].
Qed.

Lemma classifyResponse_total r approvalCondition :
  total (classifyResponse toLowerCase r approvalCondition) any.
Proof.
  unfold classifyResponse. destruct (truthy (error r)); [by apply total_ret|].
  apply total_catch_all. intros e. by apply total_ret.
Qed.

Lemma settle_total {A} (m : M A) : total (settle m) any.
Proof. intros w. unfold settle. destruct (m w) as [r w']. by exists r, w'. Qed.

Lemma extractAttempt_noLang l mdl lastTurn :
  total (extractAttempt (lang l) mdl lastTurn)
        (λ s, ∀ r, s = Return r → detectedLang r = None).
Proof.
  unfold extractAttempt. cbv zeta. apply total_tryCatch.
  - apply post_bind with (P := any); [apply post_any|].
    intros res _. destruct res as [|c0 res].
    { destruct lastTurn; apply post_ret; by intros r [= <-]. }
    destruct (matchCondition (c0 :: res)) as [cap|].
    2:{ destruct lastTurn; apply post_ret; by intros r [= <-]. }
    case_decide.
    { destruct lastTurn; apply post_ret; by intros r [= <-]. }
    apply post_bind with (P := any); [apply post_any|].
    intros cond _. apply post_ret. by intros r [= <-].
  - intros e. destruct lastTurn; apply total_ret; by intros r [= <-].
Qed.

Lemma extractLoop_noLang l models :
  total (extractLoop (lang l) models) (λ r, detectedLang r = None).
Proof.
  induction models as [|mdl rest IH]; simpl; [by apply total_ret|].
  eapply total_bind; [apply extractAttempt_noLang|].
  intros [|r] Hr; [exact IH | apply total_ret; by apply Hr].
Qed.

(** C10. For a request in a language other than "auto", [deliberate]
    returns, whatever the models reply, a deliberation whose language is the
    requested one; and the extraction then reports no detected language at
    all: the LANG line of the reply is not read. *)
Theorem deliberate_language question (l : SupportedLanguage)
    imageBase64 userContext fileContext w :
  (∃ d w',
     deliberate toLowerCase sanitizeContent t melchiorPrompt balthasarPrompt casperPrompt
       question (lang l) imageBase64 userContext fileContext w = (Ok d, w')
     ∧ language d = l)
  ∧ (∀ imageContext, ∃ r w',
       extractCondition question (lang l) imageContext fileContext w = (Ok r, w')
       ∧ detectedLang r = None).
Proof.
  split; [|intros imageContext; apply (extractLoop_noLang l DATA_MODELS w)].
  revert w. change (total (deliberate toLowerCase sanitizeContent t melchiorPrompt
    balthasarPrompt casperPrompt question (lang l) imageBase64 userContext fileContext)
    (λ d, language d = l)).
  unfold deliberate.
  apply total_bind with (P := any); [by apply total_now|]. intros start _.
  apply total_bind with (P := any).
  { destruct imageBase64 as [[|c img]|]; try by apply total_ret.
    apply describeImage_total. }
  intros imageContext _.
  apply total_bind with (P := any).
  { eapply total_mono; [apply extractLoop_total | done]. }
  intros extraction _. simpl.
  apply total_bind with (P := any); [apply searchLoop_total|]. intros search _.
  do 3 (apply total_bind with (P := any); [apply settle_total|]; intros ? _).
  do 3 (apply total_bind with (P := any); [apply classifyResponse_total|]; intros ? _).
  by apply total_ret.
Qed.

End Deliberation.

Section Blindness.
Import RateLimits Run Client Triple Trace.
Context {A B : Type}.

Lemma blind_ret (a : A) : blind (ret a).
Proof. by intros w1 w2 Hs. Qed.

Lemma blind_throw (e : Err) : blind (@throw A e).
Proof. by intros w1 w2 Hs. Qed.

Lemma blind_bind (m : M A) (f : A → M B) :
  blind m → (∀ a, blind (f a)) → blind (bind m f).
Proof.
  intros Hm Hf w1 w2 Hs. unfold bind. destruct (Hm w1 w2 Hs) as [E Hs'].
  destruct (m w1) as [[a1|e1] w1'], (m w2) as [[a2|e2] w2']; simpl in *;
    try discriminate E.
  - injection E as ->. by apply Hf.
  - injection E as ->. by split.
Qed.

Lemma blind_tryCatch (m : M A) (h : Err → M A) :
  blind m → (∀ e, blind (h e)) → blind (tryCatch m h).
Proof.
  intros Hm Hh w1 w2 Hs. unfold tryCatch. destruct (Hm w1 w2 Hs) as [E Hs'].
  destruct (m w1) as [[a1|e1] w1'], (m w2) as [[a2|e2] w2']; simpl in *;
    try discriminate E.
  - by split.
  - injection E as ->. by apply Hh.
Qed.

Lemma blind_onTracker (f : Q → Tracker → Tracker) : blind (onTracker f).
Proof. intros w1 w2 (Hc & Hr & Hl). unfold onTracker, withTracker. by simpl. Qed.

Lemma blind_fetch : blind fetch.
Proof.
  intros w1 w2 (Hc & Hr & Hl). unfold fetch. rewrite Hr.
  destruct (replies w2) as [|i rs] eqn:E2; unfold sameButLoad; simpl;
    repeat split; congruence.
Qed.

End Blindness.

Section BlindCalls.
Import RateLimits Run Client Triple Trace.
Local Open Scope run_scope.

Lemma blind_now : blind now.
Proof. intros w1 w2 (Hc & Hr & Hl). unfold now. simpl. by rewrite Hc. Qed.

Lemma blind_chatBody mdl : blind (chatBody mdl).
Proof.
  unfold chatBody.
  apply blind_bind; [apply blind_onTracker|]. intros _.
  apply blind_bind; [apply blind_fetch|]. intros [msg | h status body | h msg | h raw n].
  - apply blind_throw.
  - apply blind_bind; [apply blind_onTracker|]. intros _.
    destruct ((status =? 429)%N || (status =? 503)%N); apply blind_throw.
  - apply blind_bind; [apply blind_onTracker | intros _; apply blind_throw].
  - apply blind_bind; [apply blind_onTracker|]. intros _. cbv zeta.
    apply blind_bind; [apply blind_onTracker | intros _; apply blind_ret].
Qed.

(** A chat call ends the same way whatever the tracker holds. *)
Lemma blind_chat kind mdl : blind (chat kind mdl).
Proof.
  intros w1 w2 Hs. unfold chat. destruct (blind_chatBody mdl w1 w2 Hs) as [E Hs'].
  destruct (chatBody mdl w1) as [r1 w1'], (chatBody mdl w2) as [r2 w2'].
  simpl in *. subst r2. split; [done|].
  destruct Hs' as (Hc & Hr & Hl). unfold sameButLoad. simpl. by rewrite Hl.
Qed.

(** Replacing the tracker of a world gives a world that differs at most in
    the tracker. *)
Lemma sameButLoad_setTracker tr w : sameButLoad (setTracker tr w) w.
Proof. by unfold sameButLoad, setTracker. Qed.

End BlindCalls.

(** One step of a proof that a computation does not look at the load. *)
Ltac blind_step :=
  match goal with
  | |- ∀ _, Trace.blind _ => intro
  | |- Trace.blind (Run.ret _) => apply blind_ret
  | |- Trace.blind (Run.throw _) => apply blind_throw
  | |- Trace.blind Run.now => apply blind_now
  | |- Trace.blind (Client.chat _ _) => apply blind_chat
  | |- Trace.blind (Run.bind _ _) => apply blind_bind
  | |- Trace.blind (Run.tryCatch _ _) => apply blind_tryCatch
  | |- Trace.blind (if ?b then _ else _) => destruct b
  | |- Trace.blind (match ?x with _ => _ end) => destruct x
  end.
Ltac solve_blind := cbv zeta; repeat blind_step.

Create HintDb grows.

(** One step of a proof that a computation only appends to the record:
    through the monad operations, and by cases on what the code tests. *)
Ltac grows_step :=
  match goal with
  | |- ∀ _, Triple.grows _ => intro
  | |- Triple.grows (Run.ret _) => apply grows_ret
  | |- Triple.grows (Run.throw _) => apply grows_throw
  | |- Triple.grows Run.now => apply grows_now
  | |- Triple.grows (Client.chat _ _) => apply grows_chat
  | |- Triple.grows (Run.bind _ _) => apply grows_bind
  | |- Triple.grows (Run.tryCatch _ _) => apply grows_tryCatch
  | |- Triple.grows (if ?b then _ else _) => destruct b
  | |- Triple.grows (match ?x with _ => _ end) => destruct x
  | |- Triple.grows _ => solve [auto with grows]
  end.
Ltac solve_grows := cbv zeta; repeat grows_step.

Section Chains.
Import Models RateLimits Run Client Text Engine Triple More Trace.
Local Open Scope run_scope.

Variable sanitizeContent : jsstring → jsstring.
Variable t : SupportedLanguage → MessageKey → jsstring.

(** A [try] block that opens with a chat call logs that call first. *)
Lemma opens_try_chat {A} kind mdl (f : jsstring → M A) (h : Err → M A) w :
  (∀ s, grows (f s)) → (∀ e, grows (h e)) →
  opens (tryCatch (bind (chat kind mdl) f) h) w (entry kind mdl w).
Proof.
  intros Hf Hh. pose proof (chat_calls kind mdl w) as Hc.
  assert (E : tryCatch (bind (chat kind mdl) f) h w
              = match chat kind mdl w with
                | (Ok s, w1) => tryCatch (f s) h w1
                | (Throw e, w1) => h e w1
                end).
  { unfold tryCatch, bind. by destruct (chat kind mdl w) as [[s|e] w1]. }
  unfold opens. rewrite E. unfold entry.
  destruct (chat kind mdl w) as [[s|e] w1]; simpl in *.
  - destruct (grows_tryCatch (f s) h (Hf s) Hh w1) as [more Hm].
    exists more. by rewrite Hm, Hc, <- app_assoc.
  - destruct (Hh e w1) as [more Hm]. exists more. by rewrite Hm, Hc, <- app_assoc.
Qed.

(** What follows a computation does not change what it logged first. *)
Lemma opens_bind {A B} (m : M A) (k : A → M B) w c :
  opens m w c → (∀ a, grows (k a)) → opens (bind m k) w c.
Proof.
  intros [more1 H1] Hk. unfold opens, bind.
  destruct (m w) as [[a|e] w1]; simpl in *.
  - destruct (Hk a w1) as [more2 H2]. exists (more1 ++ more2).
    rewrite H2, H1, <- app_assoc. reflexivity.
  - by exists more1.
Qed.

Lemma grows_withTracker {A} (f : Q → Tracker → A * Tracker) : grows (withTracker f).
Proof.
  intros w. exists []. unfold withTracker.
  destruct (f (clock w) (tracker w)) as [a tr]. simpl. by rewrite app_nil_r.
Qed.

Lemma grows_condense mdl text l target : grows (condense mdl text l target).
Proof. unfold condense. solve_grows. Qed.

Lemma grows_purifyLanguage mdl text l q : grows (purifyLanguage mdl text l q).
Proof. unfold purifyLanguage. solve_grows. Qed.

#[local] Hint Resolve grows_withTracker grows_condense grows_purifyLanguage : grows.

Lemma grows_queryAttempt opts start mdl lastTurn :
  grows (queryAttempt sanitizeContent t opts start mdl lastTurn).
Proof. unfold queryAttempt, answered. solve_grows. Qed.

Lemma grows_extractAttempt language mdl lastTurn :
  grows (extractAttempt language mdl lastTurn).
Proof. unfold extractAttempt. solve_grows. Qed.

Lemma grows_searchAttempt mdl lastTurn : grows (searchAttempt mdl lastTurn).
Proof. unfold searchAttempt. solve_grows. Qed.

#[local] Hint Resolve grows_queryAttempt grows_extractAttempt grows_searchAttempt
  : grows.

Lemma grows_queryLoop opts start models :
  grows (queryLoop sanitizeContent t opts start models).
Proof. induction models as [|mdl rest IH]; simpl; solve_grows. Qed.

Lemma grows_extractLoop language models : grows (extractLoop language models).
Proof. induction models as [|mdl rest IH]; simpl; solve_grows. Qed.

Lemma grows_searchLoop models : grows (searchLoop models).
Proof. induction models as [|mdl rest IH]; simpl; solve_grows. Qed.

#[local] Hint Resolve grows_queryLoop grows_extractLoop grows_searchLoop : grows.

Lemma blind_condense mdl text l target : blind (condense mdl text l target).
Proof. unfold condense. solve_blind. Qed.

Lemma blind_extractLoop language models : blind (extractLoop language models).
Proof.
  induction models as [|mdl rest IH]; simpl; [apply blind_ret|].
  apply blind_bind; [|intros [|r]; [exact IH | apply blind_ret]].
  unfold extractAttempt. cbv zeta. apply blind_tryCatch; [|solve_blind].
  apply blind_bind; [apply blind_chat|]. intros res.
  repeat first [apply blind_condense | blind_step].
Qed.

Lemma blind_searchLoop models : blind (searchLoop models).
Proof.
  induction models as [|mdl rest IH]; simpl; [apply blind_ret|].
  apply blind_bind; [|intros [|r]; [exact IH | apply blind_ret]].
  unfold searchAttempt. solve_blind.
Qed.

(** What [condense] returns, read off its chat call. *)
Lemma condense_exact mdl text l target w :
  condense mdl text l target w
  = (Ok (match (chat (Condense target) mdl w).1 with
         | Ok s =>
             if decide (length (trim s) = 0) then None
             else if decide (length (trim s) ≤ condenseLimit target)
                  then Some (trim s)
                  else Some (slice0 (condenseLimit target - 1) (trim s) ++ ellipsis)
         | Throw _ => None
         end), (chat (Condense target) mdl w).2).
Proof.
  unfold condense, tryCatch, bind. cbv zeta.
  destruct (chat (Condense target) mdl w) as [[s|e] w1]; simpl; [|done].
  by repeat case_decide.
Qed.

(** One turn of the extraction loop, read off its chat calls: it goes on
    to the next model exactly when it is not the last and the reply gave no
    condition; otherwise it returns the condition the reply [yields], or
    none on the last model. *)
Lemma extractAttempt_trace language mdl lastTurn w :
  ∃ s w' more,
    extractAttempt language mdl lastTurn w = (Ok s, w')
    ∧ calls w' = calls w ++ entry Extract mdl w :: more
    ∧ match s with
      | Continue =>
          lastTurn = false ∧ noCondition (chat Extract mdl w).1
          ∧ more = [] ∧ w' = (chat Extract mdl w).2
      | Return r =>
          yields mdl w more r
          ∨ (lastTurn = true ∧ noCondition (chat Extract mdl w).1
             ∧ more = [] ∧ condition r = None)
      end.
Proof.
  pose proof (chat_calls Extract mdl w) as Hc.
  unfold yields, entry, extractAttempt. cbv zeta. unfold tryCatch at 1, bind at 1.
  destruct (chat Extract mdl w) as [[res|e] w1] eqn:Echat; simpl in Hc |- *.
  2:{ destruct lastTurn; eexists _, w1, []; (split; [reflexivity|]);
        (split; [exact Hc|]); [right|]; done. }
  destruct res as [|c0 res].
  { destruct lastTurn; eexists _, w1, []; (split; [reflexivity|]);
      (split; [exact Hc|]); [right|]; done. }
  destruct (matchCondition (c0 :: res)) as [cap|] eqn:Em.
  2:{ destruct lastTurn; eexists _, w1, []; (split; [reflexivity|]);
        (split; [exact Hc|]); [right|]; done. }
  destruct (decide (length (trim cap) = 0)) as [Hz|Hz].
  { apply length_zero_iff_nil in Hz.
    destruct lastTurn; eexists _, w1, []; (split; [reflexivity|]);
      (split; [exact Hc|]); [right|]; done. }
  assert (Hne : trim cap ≠ []) by (intros E; by rewrite E in Hz).
  destruct (decide (CONDITION_LIMIT < length (trim cap))) as [Hlong|Hshort].
  - unfold bind. rewrite condense_exact.
    pose proof (chat_calls (Condense target_condition) mdl w1) as Hc2.
    destruct (chat (Condense target_condition) mdl w1) as [cres w2] eqn:Ec.
    cbn [fst snd] in *.
    eexists _, w2, [_]. split; [reflexivity|].
    split; [rewrite Hc2, Hc, <- app_assoc; reflexivity|].
    left. exists (c0 :: res), cap. do 3 (split; [done|]). right.
    split; [exact Hlong|]. split; [reflexivity|]. cbn [condition]. f_equal.
    unfold replacement, condenseLimit, CONDITION_LIMIT, slice0.
    destruct cres as [s|e]; [|reflexivity].
    destruct (decide (length (trim s) = 0)) as [Hs|Hs].
    + apply length_zero_iff_nil in Hs. by rewrite (decide_True (P := trim s = [])).
    + rewrite (decide_False (P := trim s = [])) by (intros E; apply Hs; by rewrite E).
      by case_decide.
  - eexists _, w1, []. split; [reflexivity|]. split; [exact Hc|].
    left. exists (c0 :: res), cap. do 3 (split; [done|]). left.
    split; [lia|]. done.
Qed.

(** A reply that [yields] a condition is not one without a condition. *)
Lemma yields_condition mdl w more r :
  yields mdl w more r → ¬ noCondition (chat Extract mdl w).1.
Proof.
  intros (s & cap & E & Em & Hne & _) Hno. rewrite E in Hno. simpl in Hno.
  by rewrite Em in Hno.
Qed.

(** The run of the extraction chain: on the data processing model, and
    then, exactly when its reply gave no condition, on the emergency
    model. *)
Lemma extractLoop_chain language w :
  let first := chat Extract DATA_PROCESSING_MODEL w in
  ∃ r w',
    extractLoop language DATA_MODELS w = (Ok r, w')
    ∧ ((¬ noCondition first.1
        ∧ ∃ more, calls w' = calls w ++ entry Extract DATA_PROCESSING_MODEL w :: more
                  ∧ yields DATA_PROCESSING_MODEL w more r)
       ∨ (noCondition first.1
          ∧ ∃ more, calls w' = calls w ++ entry Extract DATA_PROCESSING_MODEL w
                                 :: entry Extract EMERGENCY_MODEL first.2 :: more
                    ∧ (yields EMERGENCY_MODEL first.2 more r
                       ∨ (noCondition (chat Extract EMERGENCY_MODEL first.2).1
                          ∧ more = [] ∧ condition r = None)))).
Proof.
  cbv zeta. unfold DATA_MODELS. cbn [extractLoop isLast].
  destruct (extractAttempt_trace language DATA_PROCESSING_MODEL false w)
    as (s1 & w1 & more1 & E1 & Hc1 & H1).
  unfold bind at 1. rewrite E1. destruct s1 as [|r1].
  - destruct H1 as (_ & Hno & -> & ->).
    destruct (extractAttempt_trace language EMERGENCY_MODEL true
                (chat Extract DATA_PROCESSING_MODEL w).2)
      as (s2 & w2 & more2 & E2 & Hc2 & H2).
    unfold bind at 1. rewrite E2. destruct s2 as [|r2]; [by destruct H2|].
    exists r2, w2. split; [reflexivity|]. right. split; [exact Hno|].
    exists more2. split.
    + rewrite Hc2, Hc1, <- app_assoc. reflexivity.
    + destruct H2 as [Hy | (_ & Hno2 & -> & Hr)]; [by left | by right].
  - exists r1, w1. split; [reflexivity|].
    destruct H1 as [Hy | (Hl & _)]; [|discriminate Hl].
    left. split; [by apply yields_condition in Hy|]. by exists more1.
Qed.

(** One turn of the search loop: it goes on to the next model exactly
    when it is not the last and the call threw. *)
Lemma searchAttempt_trace mdl lastTurn w :
  ∃ s, searchAttempt mdl lastTurn w = (Ok s, (chat Search mdl w).2)
       ∧ (s = Continue ↔ lastTurn = false ∧ ∃ e, (chat Search mdl w).1 = Throw e).
Proof.
  unfold searchAttempt, tryCatch, bind.
  destruct (chat Search mdl w) as [[res|e] w1]; simpl.
  - case_decide; eexists; (split; [reflexivity|]);
      (split; [discriminate | by intros (_ & e & [=])]).
  - destruct lastTurn; eexists; (split; [reflexivity|]).
    + split; [discriminate | by intros [[=] _]].
    + split; [eauto | done].
Qed.

(** What the record shows of a turn of one of the two data chains. *)
Lemma attempted_turn kind mdl w (more : list ChatCall) :
  Forall (λ c, call_kind c ≠ kind) more →
  attempted kind (entry kind mdl w :: more) = [mdl].
Proof.
  intros Hm. unfold attempted. rewrite filter_cons, decide_True by done.
  cbn [fmap list_fmap]. f_equal.
  induction Hm as [|c cs Hc _ IH]; [done|].
  by rewrite filter_cons, decide_False.
Qed.

Lemma yields_condense mdl w more r :
  yields mdl w more r → Forall (λ c, call_kind c ≠ Extract) more.
Proof.
  intros (s & cap & _ & _ & _ & [(_ & -> & _) | (_ & -> & _)]);
    repeat constructor. discriminate.
Qed.

(** C2, as amended. In persona querying a candidate that is not the last of
    its list and for which [shouldSkipModel] is true is passed over with no
    chat call made: the loop goes on with the rest from a world that differs
    only in the tracker. The last model of the list is attempted without
    its load being looked at. Condition extraction and search-context
    fetching do not consult [shouldSkipModel]: each opens with a call on the
    first model of its list, ends the same way and makes the same calls
    whatever the tracker holds, and attempts the models of its list in
    order, the first alone or the first and then the last; the last is
    attempted exactly when the attempt on the first gave nothing to return
    (for extraction no condition, for search a thrown call). *)
Theorem fallback_skip_policy :
  (∀ opts start mdl rest w,
     rest ≠ [] →
     (shouldSkipModel (clock w) mdl (tracker w)).1 = true →
     let w' := setTracker (shouldSkipModel (clock w) mdl (tracker w)).2 w in
     calls w' = calls w
     ∧ queryLoop sanitizeContent t opts start (mdl :: rest) w
       = queryLoop sanitizeContent t opts start rest w')
  ∧ (∀ opts start mdl w,
       opens (queryLoop sanitizeContent t opts start [mdl]) w (entry Persona mdl w))
  ∧ (∀ question language imageContext fileContext w,
       let run := extractCondition question language imageContext fileContext in
       opens run w (entry Extract DATA_PROCESSING_MODEL w)
       ∧ (∀ tr, (run (setTracker tr w)).1 = (run w).1
                ∧ calls (run (setTracker tr w)).2 = calls (run w).2)
       ∧ ∃ more,
           calls (run w).2 = calls w ++ more
           ∧ (attempted Extract more = [DATA_PROCESSING_MODEL]
              ∨ attempted Extract more = [DATA_PROCESSING_MODEL; EMERGENCY_MODEL])
           ∧ (attempted Extract more = [DATA_PROCESSING_MODEL; EMERGENCY_MODEL]
              ↔ noCondition (chat Extract DATA_PROCESSING_MODEL w).1))
  ∧ (∀ question approvalCondition l imageContext w,
       let run := fetchSearchContext question approvalCondition l imageContext in
       opens run w (entry Search COMPOUND w)
       ∧ (∀ tr, (run (setTracker tr w)).1 = (run w).1
                ∧ calls (run (setTracker tr w)).2 = calls (run w).2)
       ∧ ∃ more,
           calls (run w).2 = calls w ++ more
           ∧ (attempted Search more = [COMPOUND]
              ∨ attempted Search more = [COMPOUND; COMPOUND_MINI])
           ∧ (attempted Search more = [COMPOUND; COMPOUND_MINI]
              ↔ ∃ e, (chat Search COMPOUND w).1 = Throw e)).
Proof.
  split; [|split; [|split]].
  - intros opts start mdl rest w Hrest Hskip. cbv zeta. split; [reflexivity|].
    destruct rest as [|m2 rest]; [done|].
    cbn [queryLoop isLast]. unfold bind at 1. unfold withTracker, setTracker.
    destruct (shouldSkipModel (clock w) mdl (tracker w)) as [skip tr].
    simpl in Hskip. subst skip. reflexivity.
  - intros opts start mdl w. cbn [queryLoop isLast].
    change (bind (ret false) ?k) with (λ w, k false w). cbv beta iota.
    apply opens_bind; [|solve_grows].
    unfold queryAttempt, answered. apply opens_try_chat; solve_grows.
  - intros question language imageContext fileContext w. cbv zeta.
    split; [|split].
    + unfold extractCondition, DATA_MODELS. cbn [extractLoop].
      apply opens_bind; [|solve_grows].
      unfold extractAttempt. apply opens_try_chat; solve_grows.
    + intros tr. unfold extractCondition.
      destruct (blind_extractLoop language DATA_MODELS (setTracker tr w) w
                  (sameButLoad_setTracker tr w)) as [E (_ & _ & Hl)].
      by split.
    + unfold extractCondition.
      destruct (extractLoop_chain language w) as (r & w' & E & H).
      rewrite E. cbn [snd].
      destruct H as [(Hsome & more & Hc & Hy) | (Hno & more & Hc & H2)].
      * exists (entry Extract DATA_PROCESSING_MODEL w :: more).
        split; [exact Hc|].
        rewrite (attempted_turn Extract) by (by eapply yields_condense).
        split; [by left|]. split; [discriminate | done].
      * exists (entry Extract DATA_PROCESSING_MODEL w
                :: entry Extract EMERGENCY_MODEL
                     (chat Extract DATA_PROCESSING_MODEL w).2 :: more).
        split; [exact Hc|].
        assert (Hm : Forall (λ c, call_kind c ≠ Extract) more).
        { destruct H2 as [Hy | (_ & -> & _)]; [by eapply yields_condense|].
          constructor. }
        assert (Ha : attempted Extract
                       (entry Extract DATA_PROCESSING_MODEL w
                        :: entry Extract EMERGENCY_MODEL
                             (chat Extract DATA_PROCESSING_MODEL w).2 :: more)
                     = [DATA_PROCESSING_MODEL; EMERGENCY_MODEL]).
        { pose proof (attempted_turn Extract EMERGENCY_MODEL
                        (chat Extract DATA_PROCESSING_MODEL w).2 more Hm) as Ht.
          unfold attempted in *. rewrite filter_cons, decide_True by done.
          cbn [fmap list_fmap]. by rewrite Ht. }
        rewrite Ha. split; [by right|]. done.
  - intros question approvalCondition l imageContext w. cbv zeta.
    split; [|split].
    + unfold fetchSearchContext, SEARCH_MODELS. cbn [searchLoop].
      apply opens_bind; [|solve_grows].
      unfold searchAttempt. apply opens_try_chat; solve_grows.
    + intros tr. unfold fetchSearchContext.
      destruct (blind_searchLoop SEARCH_MODELS (setTracker tr w) w
                  (sameButLoad_setTracker tr w)) as [E (_ & _ & Hl)].
      by split.
    + unfold fetchSearchContext, SEARCH_MODELS. cbn [searchLoop isLast].
      destruct (searchAttempt_trace COMPOUND false w) as (s1 & E1 & H1).
      pose proof (chat_calls Search COMPOUND w) as Hc1.
      unfold bind at 1. rewrite E1. destruct s1 as [|r1].
      * destruct (searchAttempt_trace COMPOUND_MINI true (chat Search COMPOUND w).2)
          as (s2 & E2 & H2).
        pose proof (chat_calls Search COMPOUND_MINI (chat Search COMPOUND w).2) as Hc2.
        unfold bind at 1. rewrite E2.
        assert (Hr : ∃ r2, s2 = Return r2).
        { destruct s2 as [|r2]; [|by eexists].
          destruct (proj1 H2 eq_refl) as [[=] _]. }
        destruct Hr as [r2 ->]. cbn [snd ret].
        exists [entry Search COMPOUND w;
                entry Search COMPOUND_MINI (chat Search COMPOUND w).2].
        split; [rewrite Hc2, Hc1, <- app_assoc; reflexivity|].
        split; [by right|]. split; [intros _; by apply H1 | done].
      * cbn [snd ret]. exists [entry Search COMPOUND w].
        split; [exact Hc1|]. split; [by left|].
        split; [discriminate|]. intros He.
        assert (Hcont : Return r1 = Continue) by (apply H1; by split).
        discriminate Hcont.
Qed.

(** A [replacement] fits the limit, and after a failed condense call it is
    the cut of the raw condition. *)
Lemma replacement_length rawCond condensed :
  length (replacement rawCond condensed) ≤ 120.
Proof.
  unfold replacement. pose proof (cut_length 119 rawCond) as H1.
  unfold slice0 in H1. destruct condensed as [s|e]; [|exact H1].
  repeat case_decide; [exact H1 | done |].
  pose proof (cut_length 119 (trim s)) as H2. exact H2.
Qed.

Lemma replacement_failed rawCond condensed :
  failedAnswer condensed → replacement rawCond condensed = take 119 rawCond ++ ellipsis.
Proof.
  unfold replacement. destruct condensed as [s|e]; [|done].
  simpl. intros E. by rewrite decide_True.
Qed.

(** C9. [extractCondition] always returns, and a condition it returns is
    at most CONDITION_LIMIT = 120 characters long. The run opens with the
    extraction call on the data processing model. A condition that is
    returned comes from the reply of the last extraction call made: it is
    the trimmed capture of its CONDITION line when that has at most 120
    characters, and then this call is the last of the run; when the capture
    is longer, one condense call on the same model follows and the condition
    is its [replacement]: the trimmed result of that call, cut to 119
    characters and an ellipsis if still over 120, or, when that call threw
    or gave a blank text, the first 119 characters of the raw condition and
    an ellipsis, 120 characters in all. No condition is returned only when
    no extraction reply held one. *)
Theorem extractCondition_length question language imageContext fileContext w :
  ∃ r w' more,
    extractCondition question language imageContext fileContext w = (Ok r, w')
    ∧ calls w' = calls w ++ entry Extract DATA_PROCESSING_MODEL w :: more
    ∧ (∀ c, condition r = Some c →
         length c ≤ 120
         ∧ ∃ pre ce s cap,
             call_kind ce = Extract ∧ call_result ce = Ok s
             ∧ matchCondition s = Some cap ∧ trim cap ≠ []
             ∧ ((length (trim cap) ≤ 120 ∧ c = trim cap
                 ∧ entry Extract DATA_PROCESSING_MODEL w :: more = pre ++ [ce])
                ∨ (120 < length (trim cap)
                   ∧ ∃ cc, entry Extract DATA_PROCESSING_MODEL w :: more
                           = pre ++ [ce; cc]
                           ∧ call_kind cc = Condense target_condition
                           ∧ call_model cc = call_model ce
                           ∧ c = replacement (trim cap) (call_result cc)
                           ∧ (failedAnswer (call_result cc) →
                              c = take 119 (trim cap) ++ ellipsis
                              ∧ length c = 120))))
    ∧ (condition r = None →
       Forall (λ ce, call_kind ce = Extract ∧ noCondition (call_result ce))
              (entry Extract DATA_PROCESSING_MODEL w :: more)).
Proof.
  assert (Hy : ∀ mdl w0 more0 (r : ExtractionResult) pre,
            yields mdl w0 more0 r →
            (∀ c, condition r = Some c →
               length c ≤ 120
               ∧ ∃ pre' ce s cap,
                   call_kind ce = Extract ∧ call_result ce = Ok s
                   ∧ matchCondition s = Some cap ∧ trim cap ≠ []
                   ∧ ((length (trim cap) ≤ 120 ∧ c = trim cap
                       ∧ pre ++ entry Extract mdl w0 :: more0 = pre' ++ [ce])
                      ∨ (120 < length (trim cap)
                         ∧ ∃ cc, pre ++ entry Extract mdl w0 :: more0
                                 = pre' ++ [ce; cc]
                                 ∧ call_kind cc = Condense target_condition
                                 ∧ call_model cc = call_model ce
                                 ∧ c = replacement (trim cap) (call_result cc)
                                 ∧ (failedAnswer (call_result cc) →
                                    c = take 119 (trim cap) ++ ellipsis
                                    ∧ length c = 120))))
            ∧ condition r ≠ None).
  { intros mdl w0 more0 r pre (s & cap & E & Em & Hne & H).
    unfold CONDITION_LIMIT in H.
    destruct H as [(Hlen & -> & Hr) | (Hlen & -> & Hr)];
      (split; [|by rewrite Hr]); intros c Hc; rewrite Hr in Hc;
      injection Hc as <-.
    - split; [exact Hlen|]. exists pre, (entry Extract mdl w0), s, cap.
      do 4 (split; [done|]). by left.
    - split; [apply replacement_length|].
      exists pre, (entry Extract mdl w0), s, cap. do 4 (split; [done|]). right.
      split; [exact Hlen|]. eexists. split; [reflexivity|].
      do 3 (split; [done|]). intros Hf. cbn [entry call_result] in Hf |- *.
      rewrite (replacement_failed _ _ Hf). split; [reflexivity|].
      apply (cut_length_exact 119). lia. }
  unfold extractCondition.
  destruct (extractLoop_chain language w) as (r & w' & E & H).
  destruct H as [(Hsome & more & Hc & H1) | (Hno & more & Hc & H2)].
  - exists r, w', more. split; [exact E|]. split; [exact Hc|].
    destruct (Hy _ _ _ _ [] H1) as [Hshape Hnn]. split; [exact Hshape | done].
  - eexists r, w', _. split; [exact E|]. split; [exact Hc|].
    destruct H2 as [H2 | (Hno2 & -> & Hr)].
    + destruct (Hy _ _ _ _ [entry Extract DATA_PROCESSING_MODEL w] H2)
        as [Hshape Hnn].
      split; [exact Hshape | done].
    + split; [intros c Hcond; congruence|]. intros _.
      constructor; [by split|]. constructor; [by split | constructor].
Qed.

End Chains.

Section PersonaErrors.
Import Models RateLimits Run Client Text Engine Triple.
Local Open Scope run_scope.

Variable sanitizeContent : jsstring → jsstring.
Variable t : SupportedLanguage → MessageKey → jsstring.

(** [condense] returns nothing exactly when its chat call failed. *)
Lemma condense_spec mdl text l target w :
  ∃ r, condense mdl text l target w = (Ok r, (chat (Condense target) mdl w).2)
       ∧ (r = None ↔ failedAnswer (chat (Condense target) mdl w).1).
Proof.
  unfold condense, tryCatch, bind. cbv zeta.
  destruct (chat (Condense target) mdl w) as [[s|e] w1]; simpl.
  - destruct (decide (length (trim s) = 0)) as [Hz|Hz]; simpl.
    + exists None. split; [reflexivity|]. split; [|done].
      intros _. by apply length_zero_iff_nil.
    + assert (Hne : trim s ≠ []) by (intros E; by rewrite E in Hz).
      case_decide; simpl; eexists; (split; [reflexivity|]); split; done.
  - exists None. by repeat split.
Qed.

Lemma purifyLanguage_spec mdl text l q w :
  ∃ r, purifyLanguage mdl text l q w = (Ok r, (chat Purify mdl w).2).
Proof.
  unfold purifyLanguage, tryCatch, bind. cbv zeta.
  destruct (chat Purify mdl w) as [[s|e] w1]; simpl.
  - case_decide; simpl; by eexists.
  - by eexists.
Qed.

Lemma queryAttempt_spec opts start mdl lastTurn w :
  ∃ s w' more,
    queryAttempt sanitizeContent t opts start mdl lastTurn w = (Ok s, w')
    ∧ calls w' = calls w ++ more
    ∧ turnOutcome mdl lastTurn more s.
Proof.
  pose proof (chat_calls Persona mdl w) as Hc0.
  unfold queryAttempt. cbv zeta.
  set (body := λ content : jsstring, _).
  set (handler := λ err : Err, _).
  assert (E : tryCatch (bind (chat Persona mdl) body) handler w
              = match chat Persona mdl w with
                | (Ok s, w1) => tryCatch (body s) handler w1
                | (Throw e, w1) => handler e w1
                end).
  { unfold tryCatch, bind. by destruct (chat Persona mdl w) as [[s|e] w1]. }
  rewrite E. clear E.
  (* the catch clause, entered after a failed persona call *)
  assert (Hcatch : ∀ e w1 res,
    calls w1 = calls w ++ [{| call_kind := Persona; call_model := mdl;
                              call_result := res |}] →
    failedAnswer res →
    ∃ s w' more, handler e w1 = (Ok s, w') ∧ calls w' = calls w ++ more
                 ∧ turnOutcome mdl lastTurn more s).
  { intros e w1 res Hc Hfail. subst handler. cbv beta.
    destruct lastTurn.
    - eexists _, w1, _. split; [reflexivity|]. split; [exact Hc|].
      eexists. split; [reflexivity|]. simpl. repeat split; eauto.
    - eexists _, w1, _. split; [reflexivity|]. split; [exact Hc|].
      eexists. split; [reflexivity|]. reflexivity. }
  destruct (chat Persona mdl w) as [[content|e] w1]; simpl in Hc0;
    [|by apply (Hcatch e w1 (Throw e))].
  subst body. cbv beta.
  destruct (decide (length (trim content) = 0)) as [Hz|Hz].
  { unfold tryCatch, throw. apply (Hcatch _ w1 (Ok content)); [exact Hc0|].
    by apply length_zero_iff_nil. }
  assert (Hok : ¬ failedAnswer (Ok content)).
  { simpl. intros E. by rewrite E in Hz. }
  (* the purification step *)
  set (purify := if hasLanguageMixing (trim content) (o_language opts) then _ else _).
  assert (Hp : ∃ final w2 c1 pre,
    purify w1 = (Ok final, w2) ∧ calls w2 = calls w ++ pre ++ [c1]
    ∧ (call_kind c1 = Purify
       ∨ c1 = {| call_kind := Persona; call_model := mdl; call_result := Ok content |})).
  { subst purify. destruct (hasLanguageMixing _ _).
    - destruct (purifyLanguage_spec mdl (trim content) (o_language opts)
                  (o_question opts) w1) as [r Er].
      pose proof (chat_calls Purify mdl w1) as Hc1.
      unfold bind. rewrite Er. simpl.
      eexists _, _, _, _. split; [reflexivity|].
      split; [rewrite Hc1, Hc0, <- app_assoc; reflexivity|]. by left.
    - eexists _, w1, _, []. split; [reflexivity|]. split; [exact Hc0|]. by right. }
  destruct Hp as (final & w2 & c1 & pre & Ep & Hc2 & Hc1).
  assert (Hc1' : ¬ (failedAnswer (call_result c1)
                    ∧ (call_kind c1 = Condense target_response ∨ call_kind c1 = Persona))
                 ∧ (call_kind c1 = Persona → failedAnswer (call_result c1) →
                    lastTurn = true ∧ call_model c1 = mdl)).
  { destruct Hc1 as [Hk | ->]; simpl.
    - rewrite Hk. split; [intros [_ [?|?]]; discriminate | discriminate].
    - split; [by intros [? _] | done]. }
  unfold tryCatch, bind at 1. rewrite Ep. cbv beta iota.
  destruct (decide (CHAR_LIMIT < length final)) as [Hlong|Hshort].
  - (* condensation *)
    destruct (condense_spec mdl final (o_language opts) target_response w2)
      as (r & Er & Hr).
    pose proof (chat_calls (Condense target_response) mdl w2) as Hc3.
    unfold bind. rewrite Er. cbv beta iota.
    destruct r as [c|]; simpl.
    + eexists _, _, _. split; [reflexivity|].
      split; [rewrite Hc3, Hc2, <- !app_assoc; reflexivity|].
      eexists. split; [rewrite !app_assoc; apply last_snoc|]. simpl.
      split; [|discriminate].
      split; [by intros [? [=]] | intros [Hf _]; by apply Hr in Hf].
    + eexists _, _, _. split; [reflexivity|].
      split; [rewrite Hc3, Hc2, <- !app_assoc; reflexivity|].
      eexists. split; [rewrite !app_assoc; apply last_snoc|]. simpl.
      split; [|discriminate].
      split; [intros _; split; [by apply Hr | by left] | by eexists].
  - eexists _, w2, _. unfold answered, bind. simpl.
    split; [reflexivity|]. split; [exact Hc2|].
    eexists. split; [apply last_snoc|]. simpl.
    split; [|apply Hc1'].
    split; [by intros [? [=]] | intros Hf; by apply Hc1' in Hf].
Qed.

Lemma queryLoop_spec opts start models lastModel :
  last models = Some lastModel →
  ∀ w, ∃ r w' more c,
    queryLoop sanitizeContent t opts start models w = (Ok r, w')
    ∧ calls w' = calls w ++ more
    ∧ last more = Some c
    ∧ (is_Some (error r) ↔ chainFailure lastModel c).
Proof.
  induction models as [|mdl rest IH]; [done|]. intros Hlast w.
  cbn [queryLoop].
  destruct rest as [|m2 rest].
  - (* the last model: no skip test *)
    injection Hlast as ->. cbn [isLast].
    change (bind (ret false) ?k w) with (k false w). cbv beta iota.
    destruct (queryAttempt_spec opts start lastModel true w)
      as (s & w1 & more & Ea & Hc & c & Hl & Hs).
    unfold bind. rewrite Ea. destruct s as [|r]; [done|].
    destruct Hs as [Herr Hpers].
    exists r, w1, more, c. do 3 (split; [done|]). split.
    + intros He. apply Herr in He as [Hf Hk]. split; [exact Hf|].
      destruct Hk as [Hk|Hk]; [by left | right].
      split; [exact Hk|]. by apply Hpers.
    + intros (Hf & [Hk|[Hk _]]); apply Herr; auto.
  - rewrite last_cons_cons in Hlast. specialize (IH Hlast).
    cbn [isLast]. unfold bind at 1, withTracker.
    destruct (shouldSkipModel (clock w) mdl (tracker w)) as [skip tr].
    set (w0 := {| tracker := tr; clock := clock w; replies := replies w;
                  calls := calls w |}).
    destruct skip; [apply (IH w0)|].
    destruct (queryAttempt_spec opts start mdl false w0)
      as (s & w1 & more & Ea & Hc & c & Hl & Hs).
    unfold bind. rewrite Ea. destruct s as [|r].
    + destruct (IH w1) as (r & w2 & more2 & c2 & E2 & Hc2 & Hl2 & Hr2).
      exists r, w2, (more ++ more2), c2. split; [exact E2|].
      split; [rewrite Hc2, Hc, <- app_assoc; reflexivity|].
      split; [|exact Hr2].
      destruct more2 as [|x more2 _] using rev_ind; [done|].
      rewrite last_snoc in Hl2. rewrite app_assoc, last_snoc. exact Hl2.
    + destruct Hs as [Herr Hpers].
      exists r, w1, more, c. do 3 (split; [done|]). split.
      * intros He. apply Herr in He as [Hf Hk]. split; [exact Hf|].
        destruct Hk as [Hk|Hk]; [by left|]. by destruct (Hpers Hk Hf).
      * intros (Hf & [Hk|[Hk _]]); [apply Herr; auto|].
        by destruct (Hpers Hk Hf).
Qed.

End PersonaErrors.

Section Instances.
Import Models RateLimits Run Client Text Engine Triple.

Lemma fallback_skip_policy_witness :
  ([LLAMA4_MAVERICK; EMERGENCY_MODEL] ≠ []
   ∧ (shouldSkipModel (clock Samples.primaryOverloaded) QWEN3_32B
        (tracker Samples.primaryOverloaded)).1 = true)
  ∧ queryLoop (λ s, s) Samples.messages Samples.melchiorOptions 1000%Q
      (QWEN3_32B :: [LLAMA4_MAVERICK; EMERGENCY_MODEL]) Samples.primaryOverloaded
    = queryLoop (λ s, s) Samples.messages Samples.melchiorOptions 1000%Q
        [LLAMA4_MAVERICK; EMERGENCY_MODEL]
        (setTracker (shouldSkipModel (clock Samples.primaryOverloaded) QWEN3_32B
                       (tracker Samples.primaryOverloaded)).2
           Samples.primaryOverloaded).
Proof.
  assert (H1 : [LLAMA4_MAVERICK; EMERGENCY_MODEL] ≠ []) by discriminate.
  assert (H2 : (shouldSkipModel (clock Samples.primaryOverloaded) QWEN3_32B
                  (tracker Samples.primaryOverloaded)).1 = true)
    by (vm_compute; reflexivity).
  split; [auto|].
  exact (proj2 (proj1 (fallback_skip_policy (λ s, s) Samples.messages)
                  Samples.melchiorOptions 1000%Q QWEN3_32B
                  [LLAMA4_MAVERICK; EMERGENCY_MODEL] Samples.primaryOverloaded H1 H2)).
Defined.

(** C2, as the specification words it, fails for condition extraction: the
    first data model is not the last of its list and [shouldSkipModel] is
    true for it, and it is attempted all the same. *)
Lemma extraction_attempts_overloaded_model :
  ¬ (∀ w mdl rest,
       DATA_MODELS = mdl :: rest → rest ≠ [] →
       (shouldSkipModel (clock w) mdl (tracker w)).1 = true →
       ∀ c, c ∈ calls (extractCondition [] (lang en) None None w).2 →
            c ∈ calls w ∨ call_model c ≠ mdl).
Proof.
  intros H.
  specialize (H Samples.overloaded DATA_PROCESSING_MODEL [EMERGENCY_MODEL]
                eq_refl ltac:(discriminate) ltac:(vm_compute; reflexivity)).
  destruct (extractCondition [] (lang en) None None Samples.overloaded)
    as [res w'] eqn:E.
  vm_compute in E. injection E as <- <-.
  destruct (H _ (list_elem_of_here _ _)) as [Hin | Hne].
  - by apply elem_of_nil in Hin.
  - by apply Hne.
Qed.

(** C6, as the specification words it, fails: the primary model answers, at
    300 characters; the condense call fails; the response carries an error,
    and the emergency model was never called. *)
Lemma persona_error_without_emergency_failure :
  ¬ (∀ opts w r w',
       queryPersona (λ s, s) Samples.messages opts w = (Ok r, w') →
       is_Some (error r) →
       ∃ c, c ∈ calls w' ∧ call_kind c = Persona
            ∧ call_model c = emergencyModel (o_config opts)
            ∧ failedAnswer (call_result c)).
Proof.
  intros H.
  pose proof (H Samples.melchiorOptions Samples.verbose) as H'.
  destruct (queryPersona (λ s, s) Samples.messages Samples.melchiorOptions
              Samples.verbose) as [res w'] eqn:E.
  vm_compute in E. injection E as <- <-.
  destruct (H' _ _ eq_refl ltac:(by eexists)) as (c & Hin & Hk & Hm & _).
  repeat (apply elem_of_cons in Hin as [-> | Hin]; [discriminate Hm|]).
  by apply elem_of_nil in Hin.
Qed.

End Instances.

Section ConditionInstances.
Import Models RateLimits Run Client Text Engine Triple More Trace.

(** The run on a reply with a condition of 130 characters, the condense
    call failing: what is returned is the cut of the raw condition. *)
Lemma extractCondition_length_witness :
  ∃ r w',
    extractCondition [] (lang en) None None Samples.longCondition = (Ok r, w')
    ∧ condition r = Some (take 119 (replicate 130 97%N) ++ ellipsis)
    ∧ (∀ c, condition r = Some c → length c ≤ 120).
Proof.
  destruct (extractCondition_length [] (lang en) None None Samples.longCondition)
    as (r & w' & more & E & _ & Hshape & _).
  exists r, w'. split; [exact E|]. split; [|intros c Hc; apply (Hshape c Hc)].
  apply (f_equal fst) in E. vm_compute in E. injection E as <-. reflexivity.
Defined.

End ConditionInstances.

(** * Further properties of the code *)

Section ConsensusShape.
Import Spec.

(** X1. With three votes the four outcomes are told apart by the counts
    alone: approved exactly when two or more approve, denied exactly when
    two or more deny, conditional exactly when neither holds and approvals
    and conditionals together are two or more, no consensus otherwise. *)
Theorem computeDeliberationResult_outcomes d :
  let a := count_occ Verdict_eq_dec (votes d) APPROVE in
  let n := count_occ Verdict_eq_dec (votes d) DENY in
  let c := count_occ Verdict_eq_dec (votes d) CONDITIONAL in
  (computeDeliberationResult d = approved ↔ 2 ≤ a)
  ∧ (computeDeliberationResult d = denied ↔ 2 ≤ n)
  ∧ (computeDeliberationResult d = conditional ↔ a < 2 ∧ n < 2 ∧ 2 ≤ a + c)
  ∧ (computeDeliberationResult d = noConsensus ↔ a + c < 2 ∧ n < 2).
Proof.
  rewrite computeDeliberationResult_votes.
  destruct d as [? ? ? ? ? ? ? ? [? ? v1 ? ? ?] [? ? v2 ? ? ?] [? ? v3 ? ? ?]].
  unfold votes. cbn [melchior balthasar casper verdict].
  destruct v1, v2, v3; vm_compute;
    repeat split; intros; try discriminate; try reflexivity; lia.
Qed.

End ConsensusShape.

Section TrackerMore.
Import Models RateLimits Spec.
Local Open Scope Q_scope.

(** X2. Recording a request leaves the model's window ending in [now]
    with nothing in it as old as 60 s, and touches nothing else: not the
    windows of other models, not the header data, not the token counters. *)
Theorem recordModelRequest_window now model tr :
  let tr' := recordModelRequest now model tr in
  (∃ w, rpmWindows tr' !! model = Some w
        ∧ last w = Some now
        ∧ Forall (λ ts, now - RPM_WINDOW_MS < ts) w)
  ∧ (∀ other, other ≠ model → rpmWindows tr' !! other = rpmWindows tr !! other)
  ∧ store tr' = store tr
  ∧ tpdWindows tr' = tpdWindows tr.
Proof.
  cbv zeta. unfold recordModelRequest. simpl. split; [|split; [|done]].
  - eexists. rewrite lookup_insert_eq. split; [reflexivity|].
    split; [apply last_snoc|].
    apply Forall_app. split.
    + apply Forall_forall. intros ts Hts. by apply list_elem_of_filter in Hts as [? _].
    + constructor; [|constructor]. unfold RPM_WINDOW_MS. lra.
  - intros other Hne. by rewrite lookup_insert_ne.
Qed.

(** What reading the load does to the tracker: at most, it prunes the
    window of the model read. *)
Lemma getLoadInfo_tracker now model tr :
  let tr' := (getLoadInfo now model tr).2 in
  store tr' = store tr ∧ tpdWindows tr' = tpdWindows tr
  ∧ ∀ other, rpmWindows tr' !! other = rpmWindows tr !! other
             ∨ rpmWindows tr' !! other
               = filter (λ ts, now - RPM_WINDOW_MS < ts) <$> rpmWindows tr !! other.
Proof.
  cbv zeta. unfold getLoadInfo, rpmUsagePercent.
  destruct (MODEL_LIMITS !! model) as [limits|];
    destruct (rpmWindows tr !! model) as [w|] eqn:Hw;
    destruct (store tr !! model); simpl; repeat split; auto.
  all: intros other; destruct (decide (model = other)) as [<-|Hne];
    [right; by rewrite lookup_insert_eq, Hw | left; by rewrite lookup_insert_ne].
Qed.

Lemma prune_prune (c1 c2 : Q) (w : list Q) :
  c1 <= c2 →
  filter (λ ts, c2 < ts) (filter (λ ts, c1 < ts) w) = filter (λ ts, c2 < ts) w.
Proof.
  intros Hc. induction w as [|ts w IH]; [done|].
  rewrite !filter_cons. destruct (decide (c1 < ts)) as [H1|H1].
  - rewrite filter_cons. destruct (decide (c2 < ts)); by rewrite IH.
  - destruct (decide (c2 < ts)); [lra | exact IH].
Qed.

(** The four readings, as a function of the three maps. *)
Lemma getLoadInfo_reading now model tr :
  (getLoadInfo now model tr).1
  = {| tpm := match store tr !! model with
              | Some i => dimensionUsage now (tpmLimit i) (tpmRemaining i) (tpmResetAt i)
              | None => -1
              end;
       rpm := (let r := match MODEL_LIMITS !! model, rpmWindows tr !! model with
                        | Some l, Some w =>
                            len (filter (λ ts, now - RPM_WINDOW_MS < ts) w)
                            / limit_rpm l * 100
                        | _, _ => -1
                        end in
               if decide (0 <= r) then r else -1);
       rpd := match store tr !! model with
              | Some i => dimensionUsage now (rpdLimit i) (rpdRemaining i) (rpdResetAt i)
              | None => -1
              end;
       tpd := match MODEL_LIMITS !! model with
              | Some l =>
                  match limit_tpd l, tpdWindows tr !! model with
                  | Some tl, Some e =>
                      if decide (TPD_WINDOW_MS <= now - dayStart e) then 0
                      else Qmin 100 (tokens e / tl * 100)
                  | _, _ => -1
                  end
              | None => -1
              end |}.
Proof.
  unfold getLoadInfo, rpmUsagePercent, tpdUsagePercent.
  destruct (MODEL_LIMITS !! model) as [limits|];
    destruct (rpmWindows tr !! model) as [w|];
    destruct (store tr !! model); simpl; try reflexivity;
    destruct (limit_tpd limits); reflexivity.
Qed.

(** X3. Reading the load is invisible to later readings: what
    [getLoadInfo] reports for any model at a time [t2] is the same whether
    or not the load of some model was read at an earlier time [t1]. *)
Theorem getLoadInfo_read_invisible t1 t2 model other tr :
  t1 <= t2 →
  (getLoadInfo t2 model (getLoadInfo t1 other tr).2).1 = (getLoadInfo t2 model tr).1.
Proof.
  intros Ht. rewrite !getLoadInfo_reading.
  destruct (getLoadInfo_tracker t1 other tr) as (Hs & Hd & Hw).
  rewrite Hs, Hd. f_equal.
  destruct (Hw model) as [-> | ->]; [done|].
  destruct (MODEL_LIMITS !! model) as [l|]; [|done].
  destruct (rpmWindows tr !! model) as [w|]; [|done]. simpl.
  rewrite prune_prune; [done | lra].
Qed.

Lemma getLoadInfo_read_invisible_witness :
  (1000 <= 2000)
  ∧ (getLoadInfo 2000 LLAMA31_8B (getLoadInfo 1000 LLAMA31_8B Samples.burst).2).1
    = (getLoadInfo 2000 LLAMA31_8B Samples.burst).1.
Proof.
  assert (H : 1000 <= 2000) by discriminate.
  split; [exact H|].
  exact (getLoadInfo_read_invisible 1000 2000 LLAMA31_8B LLAMA31_8B Samples.burst H).
Defined.

Lemma prune_none (cutoff : Q) (w : list Q) :
  Forall (λ ts, cutoff < ts) w → filter (λ ts, cutoff < ts) w = w.
Proof.
  intros Hw. induction Hw as [|ts w Hts _ IH]; [done|].
  rewrite filter_cons. case_decide; [by rewrite IH | done].
Qed.

Lemma skip_of_reading now model tr :
  (shouldSkipModel now model tr).1
  = (let load := (getLoadInfo now model tr).1 in
     bool_decide (SKIP_THRESHOLD <= tpm load) || bool_decide (SKIP_THRESHOLD <= rpm load)
     || bool_decide (SKIP_THRESHOLD <= rpd load)
     || bool_decide (SKIP_THRESHOLD <= tpd load)).
Proof. unfold shouldSkipModel. by destruct (getLoadInfo now model tr). Qed.

(** X4. A model whose window holds, all within the last 60 s, requests to
    95 % or more of its per-minute limit is skipped. *)
Theorem shouldSkipModel_busy now model limits w tr :
  MODEL_LIMITS !! model = Some limits →
  rpmWindows tr !! model = Some w →
  Forall (λ ts, now - RPM_WINDOW_MS < ts) w →
  95 * limit_rpm limits <= 100 * len w →
  (shouldSkipModel now model tr).1 = true.
Proof.
  intros Hm Hw Hall Hk. rewrite skip_of_reading, getLoadInfo_reading. cbv zeta.
  cbn [tpm rpm rpd tpd]. rewrite Hm, Hw, prune_none by done.
  destruct (MODEL_LIMITS_positive _ _ Hm) as [Hpos _].
  assert (H95 : 95 <= len w / limit_rpm limits * 100).
  { generalize dependent (len w). generalize dependent (limit_rpm limits).
    intros x Hx y Hk.
    assert (H : (19 # 20) <= y / x) by (apply Qle_shift_div_l; [exact Hx | lra]).
    lra. }
  rewrite decide_True by lra.
  rewrite (bool_decide_eq_true_2 (SKIP_THRESHOLD <= len w / limit_rpm limits * 100))
    by exact H95.
  by rewrite orb_true_r.
Qed.

Lemma shouldSkipModel_busy_witness :
  (MODEL_LIMITS !! LLAMA31_8B = Some {| limit_rpm := 30; limit_tpd := Some 500000 |}
   ∧ rpmWindows Samples.burst !! LLAMA31_8B = Some Samples.burstTimes
   ∧ Forall (λ ts, 31000 - RPM_WINDOW_MS < ts) Samples.burstTimes
   ∧ 95 * 30 <= 100 * len Samples.burstTimes)
  ∧ (shouldSkipModel 31000 LLAMA31_8B Samples.burst).1 = true.
Proof.
  assert (H1 : MODEL_LIMITS !! LLAMA31_8B
               = Some {| limit_rpm := 30; limit_tpd := Some 500000 |}) by reflexivity.
  assert (H2 : rpmWindows Samples.burst !! LLAMA31_8B = Some Samples.burstTimes)
    by (vm_compute; reflexivity).
  assert (H3 : Forall (λ ts, 31000 - RPM_WINDOW_MS < ts) Samples.burstTimes)
    by (unfold Samples.burstTimes; simpl; repeat constructor).
  assert (H4 : 95 * 30 <= 100 * len Samples.burstTimes) by (vm_compute; discriminate).
  split; [auto|].
  exact (shouldSkipModel_busy 31000 LLAMA31_8B _ _ Samples.burst H1 H2 H3 H4).
Defined.

(** X5. Once the headers of a response report a daily request budget that
    is 95 % or more spent, the model is skipped at every time up to the
    reset they announce; past a reset time that is set, the daily dimension
    reads 0 again. *)
Theorem spent_budget_until_reset t0 t model h tr (L R d : Q) :
  limitReq h = Some L → remainReq h = Some R → resetReq h = Some d →
  0 < L →
  let tr' := updateFromHeaders t0 model h tr in
  (95 * L <= 100 * (L - R) → t <= t0 + d → (shouldSkipModel t model tr').1 = true)
  ∧ (0 < t0 + d → t0 + d < t → rpd (getLoadInfo t model tr').1 == 0).
Proof.
  intros HL HR Hd Hpos. cbv zeta.
  assert (Hs : store (updateFromHeaders t0 model h tr) !! model
               = Some {| rpdLimit := L; rpdRemaining := R; rpdResetAt := t0 + d;
                         tpmLimit := default 0 (limitTok h);
                         tpmRemaining := default 0 (remainTok h);
                         tpmResetAt := match resetTok h with
                                       | Some d' => t0 + d' | None => 0 end;
                         updatedAt := t0 |}).
  { unfold updateFromHeaders. rewrite HL, HR, Hd. simpl. by rewrite lookup_insert_eq. }
  split.
  - intros H95 Ht. rewrite skip_of_reading, getLoadInfo_reading. cbv zeta.
    cbn [tpm rpm rpd tpd]. rewrite Hs. cbn [rpdLimit rpdRemaining rpdResetAt].
    assert (Hr : 95 <= dimensionUsage t L R (t0 + d)).
    { unfold dimensionUsage. rewrite decide_False by lra.
      rewrite decide_False by (intros [_ ?]; lra).
      assert (Hu : 95 <= (L - R) / L * 100).
      { assert (H : (19 # 20) <= (L - R) / L) by (apply Qle_shift_div_l; lra). lra. }
      apply Q.max_le_iff. right. apply Q.min_glb; [lra | exact Hu]. }
    rewrite (bool_decide_eq_true_2 (SKIP_THRESHOLD <= dimensionUsage t L R (t0 + d)))
      by exact Hr.
    by rewrite orb_true_r.
  - intros H0 Ht. rewrite getLoadInfo_reading. cbn [rpd]. rewrite Hs.
    cbn [rpdLimit rpdRemaining rpdResetAt]. unfold dimensionUsage.
    rewrite decide_False by lra. by rewrite decide_True by (split; lra).
Qed.

Lemma spent_budget_until_reset_witness :
  (0 < 1000 ∧ 95 * 1000 <= 100 * (1000 - 20) ∧ 7000 <= 5000 + 3000)
  ∧ (shouldSkipModel 7000 QWEN3_32B
       (updateFromHeaders 5000 QWEN3_32B
          {| limitReq := Some 1000; remainReq := Some 20; resetReq := Some 3000;
             limitTok := None; remainTok := None; resetTok := None |}
          emptyTracker)).1 = true.
Proof.
  assert (H1 : 0 < 1000) by reflexivity.
  assert (H2 : 95 * 1000 <= 100 * (1000 - 20)) by discriminate.
  assert (H3 : 7000 <= 5000 + 3000) by discriminate.
  split; [auto|].
  exact (proj1 (spent_budget_until_reset 5000 7000 QWEN3_32B
                  {| limitReq := Some 1000; remainReq := Some 20;
                     resetReq := Some 3000; limitTok := None; remainTok := None;
                     resetTok := None |}
                  emptyTracker 1000 20 3000 eq_refl eq_refl eq_refl H1) H2 H3).
Defined.

(** X6. Token counts of a model add up within a day and start over after
    it: for a model with a daily limit [l] and no counter yet, recording
    [n1] at [t1] and [n2] at [t2] makes the TPD reading at [t2]
    min(100, (n1 + n2) / l * 100) when [t2] is less than 24 h past [t1], and
    min(100, n2 / l * 100) when it is 24 h or more. *)
Theorem recordModelTokens_day model limits l tr (t1 t2 n1 n2 : Q) :
  MODEL_LIMITS !! model = Some limits → limit_tpd limits = Some l →
  tpdWindows tr !! model = None →
  let tr' := recordModelTokens t2 model n2 (recordModelTokens t1 model n1 tr) in
  (t2 - t1 < TPD_WINDOW_MS →
   tpd (getLoadInfo t2 model tr').1 = Qmin 100 ((n1 + n2) / l * 100))
  ∧ (TPD_WINDOW_MS <= t2 - t1 →
     tpd (getLoadInfo t2 model tr').1 = Qmin 100 (n2 / l * 100)).
Proof.
  intros Hm Hl Hnone. cbv zeta.
  assert (H1 : tpdWindows (recordModelTokens t1 model n1 tr) !! model
               = Some {| tokens := n1; dayStart := t1 |}).
  { unfold recordModelTokens. rewrite Hnone. simpl. by rewrite lookup_insert_eq. }
  split; intros Ht;
    rewrite getLoadInfo_reading; cbn [tpd]; rewrite Hm, Hl;
    unfold recordModelTokens at 1; rewrite H1; cbn [dayStart tokens].
  - rewrite decide_False by lra. simpl. rewrite lookup_insert_eq. simpl.
    rewrite decide_False by lra. reflexivity.
  - rewrite decide_True by lra. simpl. rewrite lookup_insert_eq. simpl.
    rewrite decide_False by (unfold TPD_WINDOW_MS; lra). reflexivity.
Qed.

Lemma recordModelTokens_day_witness :
  (MODEL_LIMITS !! LLAMA31_8B = Some {| limit_rpm := 30; limit_tpd := Some 500000 |}
   ∧ tpdWindows emptyTracker !! LLAMA31_8B = None
   ∧ 5000 - 1000 < TPD_WINDOW_MS)
  ∧ tpd (getLoadInfo 5000 LLAMA31_8B
           (recordModelTokens 5000 LLAMA31_8B 300
              (recordModelTokens 1000 LLAMA31_8B 200 emptyTracker))).1
    = Qmin 100 ((200 + 300) / 500000 * 100).
Proof.
  assert (H1 : MODEL_LIMITS !! LLAMA31_8B
               = Some {| limit_rpm := 30; limit_tpd := Some 500000 |}) by reflexivity.
  assert (H2 : tpdWindows emptyTracker !! LLAMA31_8B = None) by reflexivity.
  assert (H3 : 5000 - 1000 < TPD_WINDOW_MS) by reflexivity.
  split; [auto|].
  exact (proj1 (recordModelTokens_day LLAMA31_8B _ 500000 emptyTracker 1000 5000 200 300
                  H1 eq_refl H2) H3).
Defined.

End TrackerMore.

Section Strings.
Import Client Text More.

Lemma trimStart_head s : cleanHead (trimStart s).
Proof.
  induction s as [|c s IH]; simpl; [done|].
  destruct (isSpace c) eqn:E; [exact IH | exact E].
Qed.

Lemma trimStart_id s : cleanHead s → trimStart s = s.
Proof. destruct s as [|c s]; simpl; [done|]. by intros ->. Qed.

Lemma trimStart_length s : length (trimStart s) ≤ length s.
Proof. induction s as [|c s IH]; simpl; [done|]. destruct (isSpace c); simpl; lia. Qed.

Lemma trimStart_nil s : trimStart s = [] ↔ forallb isSpace s = true.
Proof.
  induction s as [|c s IH]; simpl; [done|].
  destruct (isSpace c); simpl; [exact IH | done].
Qed.

Lemma trimStart_app s c r :
  isSpace c = false → trimStart (s ++ c :: r) = trimStart s ++ c :: r.
Proof.
  intros Hc. induction s as [|x s IH]; simpl; [by rewrite Hc|].
  by destruct (isSpace x).
Qed.

Lemma trimEnd_cons c r : isSpace c = false → trimEnd (c :: r) = c :: trimEnd r.
Proof.
  intros Hc. unfold trimEnd. rewrite reverse_cons, trimStart_app by done.
  by rewrite reverse_app.
Qed.

Lemma trimEnd_idem r : trimEnd (trimEnd r) = trimEnd r.
Proof.
  unfold trimEnd. rewrite reverse_involutive.
  by rewrite (trimStart_id (trimStart _)) by apply trimStart_head.
Qed.

Lemma trimEnd_length r : length (trimEnd r) ≤ length r.
Proof.
  unfold trimEnd. rewrite length_reverse.
  etrans; [apply trimStart_length|]. by rewrite length_reverse.
Qed.

Lemma trim_cases s :
  (trimStart s = [] ∧ trim s = [])
  ∨ (∃ c r, trimStart s = c :: r ∧ isSpace c = false ∧ trim s = c :: trimEnd r).
Proof.
  unfold trim. pose proof (trimStart_head s) as Hh.
  destruct (trimStart s) as [|c r]; [by left|].
  right. exists c, r. simpl in Hh. by rewrite trimEnd_cons.
Qed.

Lemma trim_idem s : trim (trim s) = trim s.
Proof.
  destruct (trim_cases s) as [[_ ->] | (c & r & _ & Hc & ->)]; [done|].
  unfold trim. rewrite (trimStart_id (c :: _)) by done.
  by rewrite trimEnd_cons, trimEnd_idem.
Qed.

Lemma trim_nil s : trim s = [] ↔ forallb isSpace s = true.
Proof.
  split.
  - intros H. destruct (trim_cases s) as [[H0 _] | (c & r & _ & _ & E)];
      [by apply trimStart_nil | congruence].
  - intros H. apply trimStart_nil in H. unfold trim. by rewrite H.
Qed.

(** [trim] is idempotent, never lengthens, leaves no white space at
    either end, and gives the empty string exactly on strings of white space
    only. *)
Lemma trim_clean s :
  trim (trim s) = trim s
  ∧ length (trim s) ≤ length s
  ∧ cleanHead (trim s) ∧ cleanHead (reverse (trim s))
  ∧ (trim s = [] ↔ forallb isSpace s = true).
Proof.
  split; [apply trim_idem|]. split; [|split; [|split; [|apply trim_nil]]].
  - unfold trim. etrans; [apply trimEnd_length | apply trimStart_length].
  - destruct (trim_cases s) as [[_ ->] | (c & r & _ & Hc & ->)]; done.
  - unfold trim, trimEnd. rewrite reverse_involutive. apply trimStart_head.
Qed.

Lemma removeThink_plain fuel s :
  Forall (λ c, c ≠ 60%N) s → removeThink fuel s = s.
Proof.
  revert s. induction fuel as [|fuel IH]; intros s Hs; [by destruct s|].
  destruct Hs as [|c s Hc Hs]; [done|]. cbn [removeThink].
  assert (E : startsWith (js "<think>") (c :: s) = false).
  { change (js "<think>") with [60; 116; 104; 105; 110; 107; 62]%N.
    cbn [startsWith]. destruct (60 =? c)%N eqn:E; [|done].
    apply N.eqb_eq in E. congruence. }
  rewrite E. by rewrite IH.
Qed.

Lemma blank_plain s :
  forallb isSpace s = true → Forall (λ c, c ≠ 60%N) s.
Proof.
  intros H. apply Forall_forall. intros c Hc ->.
  rewrite forallb_forall in H. apply list_elem_of_In in Hc.
  specialize (H _ Hc). discriminate H.
Qed.

(** X7. Stripping think blocks gives a trimmed string; it gives the empty
    string exactly when the raw content is blank, so a reply that is one
    think block and nothing else is kept whole; and content without a [<]
    is only trimmed. *)
Theorem stripThinkBlocks_keeps content :
  trim (stripThinkBlocks content) = stripThinkBlocks content
  ∧ (stripThinkBlocks content = [] ↔ trim content = [])
  ∧ (Forall (λ c, c ≠ 60%N) content → stripThinkBlocks content = trim content).
Proof.
  unfold stripThinkBlocks. cbv zeta. split; [|split].
  - case_decide; apply trim_idem.
  - split.
    + case_decide as H; [|done].
      intros E. rewrite E in H. simpl in H. lia.
    + intros E. rewrite removeThink_plain by (by apply blank_plain, trim_nil).
      rewrite E. by rewrite decide_False by (simpl; lia).
  - intros Hp. rewrite removeThink_plain by done. by case_decide.
Qed.

Lemma stripThinkBlocks_keeps_witness :
  Forall (λ c, c ≠ 60%N) (js "  plain answer ")
  ∧ stripThinkBlocks (js "  plain answer ") = trim (js "  plain answer ").
Proof.
  assert (H : Forall (λ c, c ≠ 60%N) (js "  plain answer "))
    by (repeat constructor; discriminate).
  split; [exact H|].
  exact (proj2 (proj2 (stripThinkBlocks_keeps (js "  plain answer "))) H).
Defined.

Lemma takeWhile_all f s : Forall (λ c, f c = true) (takeWhile f s).
Proof.
  induction s as [|c s IH]; simpl; [constructor|].
  destruct (f c) eqn:E; by constructor.
Qed.

Lemma condCapture_some j r c :
  condCapture j r = Some c → c ≠ [] ∧ oneLine c.
Proof.
  assert (Hcap : ∀ n x cap,
            takeWhile (λ c, negb (isLineTerminator c)) (drop n r) = x :: cap →
            oneLine (x :: cap)).
  { intros n x cap E.
    pose proof (takeWhile_all (λ c, negb (isLineTerminator c)) (drop n r)) as Hall.
    rewrite E in Hall. eapply Forall_impl; [exact Hall|].
    intros y Hy. by apply negb_true_iff. }
  induction j as [|j IH]; cbn [condCapture].
  - destruct (takeWhile _ (drop 0 r)) as [|x cap] eqn:E; [done|].
    intros [= <-]. split; [done | by apply (Hcap 0)].
  - destruct (takeWhile _ (drop (S j) r)) as [|x cap] eqn:E; [exact IH|].
    intros [= <-]. split; [done | by apply (Hcap (S j))].
Qed.

(** X8. What [CONDITION:\s*(.+)] captures is never empty and holds no
    line terminator, and it is found only in a text that includes
    [CONDITION:]. *)
Theorem matchCondition_capture s c :
  matchCondition s = Some c →
  c ≠ [] ∧ oneLine c ∧ includes (js "CONDITION:") s = true.
Proof.
  induction s as [|x s IH]; cbn [matchCondition includes].
  - unfold condAt. by destruct (startsWith _ []).
  - unfold condAt at 1.
    destruct (startsWith (js "CONDITION:") (x :: s)) eqn:Es.
    + destruct (condCapture _ _) as [c'|] eqn:Ec.
      * intros [= <-]. destruct (condCapture_some _ _ _ Ec). done.
      * intros H. destruct (IH H) as (? & ? & ?). done.
    + intros H. destruct (IH H) as (? & ? & ->). by rewrite orb_true_r.
Qed.

Lemma matchCondition_capture_witness :
  matchCondition (js "PROPOSITION: p CONDITION:   the plan holds") = Some (js "the plan holds")
  ∧ js "the plan holds" ≠ [] ∧ oneLine (js "the plan holds").
Proof.
  assert (H : matchCondition (js "PROPOSITION: p CONDITION:   the plan holds")
              = Some (js "the plan holds")) by (vm_compute; reflexivity).
  split; [exact H|].
  destruct (matchCondition_capture _ _ H) as (H1 & H2 & _). by split.
Defined.

Lemma countIf_cons f c s :
  countIf f (c :: s) = (if f c then S (countIf f s) else countIf f s).
Proof. unfold countIf. simpl. by destruct (f c). Qed.

Lemma countIf_perm f s s' : s ≡ₚ s' → countIf f s = countIf f s'.
Proof.
  induction 1 as [|c s s' _ IH|c c' s|s s' s'' _ IH1 _ IH2].
  - done.
  - rewrite !countIf_cons. by rewrite IH.
  - rewrite !countIf_cons. by destruct (f c), (f c').
  - by rewrite IH1.
Qed.

Lemma countIf_letters f g s :
  (∀ c, f c = true → g c = true) → countIf f (List.filter g s) = countIf f s.
Proof.
  intros Hfg. induction s as [|c s IH]; [done|]. simpl.
  destruct (g c) eqn:Eg; rewrite !countIf_cons, IH; [done|].
  destruct (f c) eqn:Ef; [|done]. apply Hfg in Ef. congruence.
Qed.

(** X9. [detectLanguage] returns Korean exactly when the text has a
    letter and Hangul is at least as frequent as kana and as Latin; Japanese
    exactly when kana outnumbers Hangul and is at least as frequent as Latin;
    English otherwise, in particular on a text with no letter at all. The
    answer does not depend on the order of the characters, nor on the
    characters that are neither Hangul, kana nor Latin letters. *)
Theorem detectLanguage_priority text :
  let k := countIf isKorean text in
  let j := countIf isKana text in
  let e := countIf isLatin text in
  (detectLanguage text = ko ↔ 0 < k + j + e ∧ j ≤ k ∧ e ≤ k)
  ∧ (detectLanguage text = ja ↔ k < j ∧ e ≤ j)
  ∧ (detectLanguage text = en ↔ k + j + e = 0 ∨ (k < e ∧ j < e))
  ∧ (∀ other, text ≡ₚ other → detectLanguage other = detectLanguage text)
  ∧ detectLanguage (List.filter (λ c, isKorean c || isKana c || isLatin c) text)
    = detectLanguage text.
Proof.
  cbv zeta. split; [|split; [|split; [|split]]].
  1-3: unfold detectLanguage; repeat case_decide; split; intros; try discriminate;
    try reflexivity; lia.
  - intros other Hp. unfold detectLanguage.
    by rewrite !(countIf_perm _ _ _ Hp).
  - unfold detectLanguage.
    rewrite !countIf_letters; [done| | |]; intros c ->;
      by rewrite ?orb_true_r.
Qed.

Lemma inRange_below lo hi c : (c < lo)%N → inRange lo hi c = false.
Proof.
  intros H. unfold inRange. apply andb_false_iff. left. by apply N.leb_gt.
Qed.

(** X10. Text made of ASCII characters only is never flagged as mixed for
    English or for Korean; text without Latin letters is never flagged for
    Japanese. *)
Theorem hasLanguageMixing_plain text :
  (Forall (λ c, (c < 128)%N) text →
   hasLanguageMixing text en = false ∧ hasLanguageMixing text ko = false)
  ∧ (Forall (λ c, isLatin c = false) text → hasLanguageMixing text ja = false).
Proof.
  split.
  - intros H. unfold hasLanguageMixing, isKana.
    split; apply not_true_is_false; intros E;
      apply existsb_exists in E as (c & Hc & E);
      apply list_elem_of_In in Hc; rewrite Forall_forall in H; specialize (H c Hc);
      rewrite !inRange_below in E by lia; discriminate E.
  - intros H. unfold hasLanguageMixing.
    assert (E : latinWords 0 text = 0).
    { induction H as [|c s Hc _ IH]; simpl; [done|]. by rewrite Hc, IH. }
    rewrite E. by apply bool_decide_eq_false_2; lia.
Qed.

Lemma hasLanguageMixing_plain_witness :
  Forall (λ c, (c < 128)%N) (js "A plain answer.")
  ∧ hasLanguageMixing (js "A plain answer.") en = false.
Proof.
  assert (H : Forall (λ c, (c < 128)%N) (js "A plain answer."))
    by (repeat constructor).
  split; [exact H|].
  exact (proj1 (proj1 (hasLanguageMixing_plain (js "A plain answer.")) H)).
Defined.

End Strings.

Section Shapes.
Import Models RateLimits Run Client Text Engine Compress Triple More.
Local Open Scope run_scope.

Variable sanitizeContent : jsstring → jsstring.
Variable t : SupportedLanguage → MessageKey → jsstring.

Lemma purifyLanguage_total mdl text l q :
  total (purifyLanguage mdl text l q) (λ r, ∀ s, r = Some s → 0 < length s).
Proof.
  unfold purifyLanguage. cbv zeta. apply total_tryCatch.
  - apply post_bind with (P := any); [apply post_any|].
    intros res _. case_decide; apply post_ret; intros s [= <-]. lia.
  - intros e. by apply total_ret.
Qed.

Lemma queryAttempt_shape opts start mdl lastTurn :
  total (queryAttempt sanitizeContent t opts start mdl lastTurn)
        (λ s, ∀ r, s = Return r → wellShaped sanitizeContent t opts r ∧ model r = mdl).
Proof.
  assert (Hans : ∀ final, 0 < length final ≤ CHAR_LIMIT →
            post (answered sanitizeContent opts start mdl final)
                 (λ s, ∀ r, s = Return r
                            → wellShaped sanitizeContent t opts r ∧ model r = mdl)).
  { intros final Hf. unfold answered.
    apply post_bind with (P := any); [apply post_any|]. intros t1 _.
    apply post_ret. intros r [= <-]. split; [|done].
    unfold wellShaped. simpl. do 2 (split; [done|]).
    split; [intros _; by exists final | by intros [? [=]]]. }
  unfold queryAttempt. cbv zeta. apply total_tryCatch.
  - apply post_bind with (P := any); [apply post_any|]. intros content _.
    case_decide as Hz; [apply post_throw|].
    apply post_bind with (P := λ final, 0 < length final).
    + destruct (hasLanguageMixing _ _); [|apply post_ret; lia].
      eapply post_bind; [apply total_post, purifyLanguage_total|].
      intros [[|c p]|] Hp; apply post_ret; simpl; try lia.
    + intros final Hpos. case_decide as Hlen; [|apply Hans; lia].
      eapply post_bind; [apply total_post, condense_total|].
      intros [c|] Hc; [apply Hans, (Hc c eq_refl)|].
      apply post_bind with (P := any); [apply post_any|]. intros t1 _.
      apply post_ret. intros r [= <-]. split; [|done].
      unfold wellShaped. simpl. do 2 (split; [done|]).
      split; [done | intros _; by left].
  - intros e. destruct lastTurn; [|by apply total_ret].
    apply total_bind with (P := any); [by apply total_now|]. intros t1 _.
    apply total_ret. intros r [= <-]. split; [|done].
    unfold wellShaped. simpl. do 2 (split; [done|]).
    split; [done | intros _; by right].
Qed.

Lemma queryLoop_shape opts start models :
  total (queryLoop sanitizeContent t opts start models)
        (λ r, wellShaped sanitizeContent t opts r
              ∧ (model r ∈ models ∨ model r = cfg_model (o_config opts))).
Proof.
  induction models as [|mdl rest IH]; cbn [queryLoop].
  - apply total_bind with (P := any); [by apply total_now|]. intros t1 _.
    apply total_ret. split; [|by right].
    unfold wellShaped. simpl. do 2 (split; [done|]).
    split; [done | intros _; by right].
  - assert (Hrest : total (queryLoop sanitizeContent t opts start rest)
              (λ r, wellShaped sanitizeContent t opts r
                    ∧ (model r ∈ mdl :: rest ∨ model r = cfg_model (o_config opts)))).
    { eapply total_mono; [exact IH|]. intros r [Hs [Hm|Hm]]; split; auto.
      left. by apply elem_of_cons; right. }
    apply total_bind with (P := any).
    { destruct (isLast rest); [by apply total_ret|].
      intros w. unfold withTracker.
      destruct (shouldSkipModel (clock w) mdl (tracker w)) as [b tr]. by eexists _, _. }
    intros [|] _; [exact Hrest|].
    eapply total_bind; [apply queryAttempt_shape|].
    intros [|r] Hr; [exact Hrest|].
    apply total_ret. destruct (Hr r eq_refl) as [Hs Hm]. split; [exact Hs|].
    left. rewrite Hm. apply list_elem_of_here.
Qed.

(** X11. A persona query always returns, never throws. Its response names
    the persona, carries the placeholder verdict REFUSE and a model of the
    persona's chain; without an error its content is the markup-stripped
    form of a non-empty text of at most 240 characters, and with an error it
    is one of the two canned messages. *)
Theorem queryPersona_shape opts w :
  ∃ r w',
    queryPersona sanitizeContent t opts w = (Ok r, w')
    ∧ wellShaped sanitizeContent t opts r
    ∧ model r ∈ chainOf (o_config opts).
Proof.
  unfold queryPersona, bind, now. cbv beta iota.
  destruct (queryLoop_shape opts (clock w) (chainOf (o_config opts)) w)
    as (r & w' & E & Hs & Hm).
  exists r, w'. split; [exact E|]. split; [exact Hs|].
  destruct Hm as [Hm | ->]; [exact Hm | apply list_elem_of_here].
Qed.

Lemma describeImage_bounded img l :
  total (describeImage img l) (within IMAGE_DESCRIPTION_LIMIT).
Proof.
  unfold describeImage. apply total_tryCatch; [|intros e; by apply total_ret].
  apply post_bind with (P := any); [apply post_any|]. intros res _.
  repeat case_decide; apply post_ret; intros s [= <-];
    unfold IMAGE_DESCRIPTION_LIMIT in *.
  - pose proof (cut_length (200 - 1) (trim res)).
    rewrite length_app in *. simpl in *. lia.
  - lia.
Qed.

(** X12. The image description and the compressed context are bounded and
    never empty: [describeImage] returns nothing or 1 to 200 characters,
    [compressContext] nothing or 1 to 800, and neither throws. *)
Theorem bounded_summaries w :
  (∀ img l, ∃ r w',
     describeImage img l w = (Ok r, w') ∧ within IMAGE_DESCRIPTION_LIMIT r)
  ∧ (∀ tag previous question d, ∃ r w',
       compressContext tag previous question d w = (Ok r, w')
       ∧ within CONTEXT_LIMIT r).
Proof.
  split.
  - intros img l. apply describeImage_bounded.
  - intros tag previous question d. revert w.
    change (total (compressContext tag previous question d) (within CONTEXT_LIMIT)).
    unfold compressContext. apply total_tryCatch; [|intros e; by apply total_ret].
    apply post_bind with (P := any); [apply post_any|]. intros res _. cbv zeta.
    repeat case_decide; apply post_ret; intros s [= <-]; unfold CONTEXT_LIMIT in *.
    + pose proof (cut_length (800 - 1) (trim (result res))).
      rewrite length_app in *. simpl in *. lia.
    + lia.
Qed.

End Shapes.

Section PersonaResponses.
Import Models RateLimits Run Client Text Engine Triple More Trace.
Local Open Scope run_scope.

Variable sanitizeContent : jsstring → jsstring.
Variable t : SupportedLanguage → MessageKey → jsstring.

(** What [purifyLanguage] returns, read off its chat call. *)
Lemma purifyLanguage_exact mdl text l q w :
  purifyLanguage mdl text l q w
  = (Ok (match (chat Purify mdl w).1 with
         | Ok s => if decide (length (trim s) = 0) then None else Some (trim s)
         | Throw _ => None
         end), (chat Purify mdl w).2).
Proof.
  unfold purifyLanguage, tryCatch, bind. cbv zeta.
  destruct (chat Purify mdl w) as [[s|e] w1]; simpl; [|done].
  by case_decide.
Qed.

Lemma overLimit_app mdl pre more : overLimit mdl more → overLimit mdl (pre ++ more).
Proof.
  intros (p & s & Hin & H). exists p, s. split; [|exact H].
  apply elem_of_app. by right.
Qed.

Lemma responseDetail_app l pre more c r :
  responseDetail t l more c r → responseDetail t l (pre ++ more) c r.
Proof.
  intros [H1 H2]. split; [|exact H2].
  intros Hf Hk. destruct (H1 Hf Hk) as (? & ? & ? & Ho).
  do 3 (split; [done|]). by apply overLimit_app.
Qed.

(** One turn of the persona loop: what the response is, given the last
    chat call the turn made. *)
Lemma queryAttempt_detail opts start mdl lastTurn w :
  ∃ s w' more c,
    queryAttempt sanitizeContent t opts start mdl lastTurn w = (Ok s, w')
    ∧ calls w' = calls w ++ more
    ∧ last more = Some c
    ∧ ∀ r, s = Return r → responseDetail t (o_language opts) more c r.
Proof.
  pose proof (chat_calls Persona mdl w) as Hc0.
  unfold queryAttempt. cbv zeta.
  set (body := λ content : jsstring, _).
  set (handler := λ err : Err, _).
  assert (E : tryCatch (bind (chat Persona mdl) body) handler w
              = match chat Persona mdl w with
                | (Ok s, w1) => tryCatch (body s) handler w1
                | (Throw e, w1) => handler e w1
                end).
  { unfold tryCatch, bind. by destruct (chat Persona mdl w) as [[s|e] w1]. }
  rewrite E. clear E.
  (* the catch clause, entered after a failed persona call *)
  assert (Hcatch : ∀ e w1 res,
    calls w1 = calls w ++ [call Persona mdl res] →
    errMessage e = failureMessage res →
    ∃ s w' more c, handler e w1 = (Ok s, w') ∧ calls w' = calls w ++ more
                   ∧ last more = Some c
                   ∧ ∀ r, s = Return r → responseDetail t (o_language opts) more c r).
  { intros e w1 res Hc Hmsg. subst handler. cbv beta.
    destruct lastTurn.
    - eexists _, w1, _, _. split; [reflexivity|]. split; [exact Hc|].
      split; [reflexivity|]. intros r [= <-].
      split; [intros _ [=] | intros _ _; simpl; by rewrite Hmsg].
    - eexists _, w1, _, _. split; [reflexivity|]. split; [exact Hc|].
      split; [reflexivity|]. by intros r [=]. }
  destruct (chat Persona mdl w) as [[content|e] w1]; simpl in Hc0;
    [|by apply (Hcatch e w1 (Throw e))].
  subst body. cbv beta.
  destruct (decide (length (trim content) = 0)) as [Hz|Hz].
  { unfold tryCatch, throw. by apply (Hcatch _ w1 (Ok content)). }
  assert (Hok : ¬ failedAnswer (Ok content)).
  { simpl. intros E. by rewrite E in Hz. }
  (* the purification step *)
  set (purify := if hasLanguageMixing (trim content) (o_language opts) then _ else _).
  assert (Hp : ∃ final w2 pre c1 p s,
    purify w1 = (Ok final, w2) ∧ calls w2 = calls w ++ pre ++ [c1]
    ∧ (call_kind c1 = Purify ∨ c1 = call Persona mdl (Ok content))
    ∧ p ∈ pre ++ [c1] ∧ call_model p = mdl
    ∧ (call_kind p = Persona ∨ call_kind p = Purify)
    ∧ call_result p = Ok s ∧ final = trim s).
  { subst purify. destruct (hasLanguageMixing _ _).
    - unfold bind. rewrite purifyLanguage_exact.
      pose proof (chat_calls Purify mdl w1) as Hc1.
      assert (Hkeep : ∀ res w2,
        calls w2 = calls w1 ++ [call Purify mdl res] →
        ∃ pre c1 p s,
          calls w2 = calls w ++ pre ++ [c1]
          ∧ (call_kind c1 = Purify ∨ c1 = call Persona mdl (Ok content))
          ∧ p ∈ pre ++ [c1] ∧ call_model p = mdl
          ∧ (call_kind p = Persona ∨ call_kind p = Purify)
          ∧ call_result p = Ok s ∧ trim content = trim s).
      { intros res w2 Hc2.
        exists [call Persona mdl (Ok content)], (call Purify mdl res),
               (call Persona mdl (Ok content)), content.
        split; [rewrite Hc2, Hc0, <- app_assoc; reflexivity|].
        split; [by left|]. split; [apply list_elem_of_here|].
        split; [done|]. split; [by left|]. done. }
      destruct (chat Purify mdl w1) as [[ps|pe] w2]; cbn [fst snd] in *.
      + destruct (decide (length (trim ps) = 0)) as [Hpz|Hpz].
        * destruct (Hkeep _ _ Hc1) as (pre & c1 & p & s & H).
          exists (trim content), w2, pre, c1, p, s. by split.
        * exists (trim ps), w2, [call Persona mdl (Ok content)],
                 (call Purify mdl (Ok ps)), (call Purify mdl (Ok ps)), ps.
          split.
          { unfold ret. f_equal. f_equal. destruct (trim ps); [done | reflexivity]. }
          split; [rewrite Hc1, Hc0, <- app_assoc; reflexivity|].
          split; [by left|].
          split; [apply list_elem_of_further, list_elem_of_here|].
          split; [done|]. split; [by right|]. done.
      + destruct (Hkeep _ _ Hc1) as (pre & c1 & p & s & H).
        exists (trim content), w2, pre, c1, p, s. by split.
    - exists (trim content), w1, [], (call Persona mdl (Ok content)),
             (call Persona mdl (Ok content)), content.
      split; [reflexivity|]. split; [exact Hc0|]. split; [by right|].
      split; [apply list_elem_of_here|]. split; [done|]. split; [by left|]. done. }
  destruct Hp as (final & w2 & pre & c1 & p & s & Ep & Hc2 & Hc1 & Hin & Hpm & Hpk
                  & Hpr & Hfinal).
  assert (Hc1' : responseDetail t (o_language opts) (pre ++ [c1]) c1
                   {| persona := name (o_config opts);
                      content := sanitizeContent final; verdict := REFUSE;
                      model := mdl; latencyMs := (clock w2 - start)%Q;
                      error := None |}).
  { split.
    - intros _ Hk. destruct Hc1 as [Hk' | ->]; [congruence | discriminate Hk].
    - intros Hf Hk. destruct Hc1 as [Hk' | ->]; [congruence | done]. }
  unfold tryCatch, bind at 1. rewrite Ep. cbv beta iota.
  destruct (decide (CHAR_LIMIT < length final)) as [Hlong|Hshort].
  - (* condensation *)
    unfold bind at 1. rewrite condense_exact.
    pose proof (chat_calls (Condense target_response) mdl w2) as Hc3.
    destruct (chat (Condense target_response) mdl w2) as [cres w3]. cbn [fst snd] in *.
    assert (Hlast : last (pre ++ [c1; call (Condense target_response) mdl cres])
                    = Some (call (Condense target_response) mdl cres)).
    { change [c1; ?x] with ([c1] ++ [x]). rewrite app_assoc. apply last_snoc. }
    assert (Hcalls : calls w3 = calls w ++ pre
                                ++ [c1; call (Condense target_response) mdl cres]).
    { rewrite Hc3, Hc2, <- !app_assoc. reflexivity. }
    assert (Hover : overLimit mdl (pre ++ [c1; call (Condense target_response) mdl cres])).
    { exists p, s. split.
      - change [c1; ?x] with ([c1] ++ [x]). rewrite app_assoc.
        apply elem_of_app. by left.
      - rewrite <- Hfinal. done. }
    assert (Hnone : ∀ w4, ∃ s',
              (do t1 <- now;
               ret (Return {| persona := name (o_config opts);
                              content := t (o_language opts) outputOverflow;
                              verdict := REFUSE; model := mdl;
                              latencyMs := (t1 - start)%Q;
                              error := Some condenseFailed |})) w4 = (Ok s', w4)
              ∧ ∀ r, s' = Return r →
                     responseDetail t (o_language opts)
                       (pre ++ [c1; call (Condense target_response) mdl cres])
                       (call (Condense target_response) mdl cres) r).
    { intros w4. eexists. split; [reflexivity|].
      intros r [= <-]. split; [by intros _ _ | intros _ [=]]. }
    destruct cres as [cs|ce]; cbn [fst snd].
    + destruct (decide (length (trim cs) = 0)) as [Hcz|Hcz].
      * destruct (Hnone w3) as (s' & E' & Hd).
        rewrite E'. eexists s', w3, _, _. split; [reflexivity|].
        split; [exact Hcalls|]. split; [exact Hlast | exact Hd].
      * assert (Hcok : ¬ failedAnswer (Ok cs)).
        { simpl. intros E. by rewrite E in Hcz. }
        case_decide; unfold answered, bind; simpl;
          eexists _, w3, _, _; (split; [reflexivity|]); (split; [exact Hcalls|]);
          (split; [exact Hlast|]); intros r [= <-];
          (split; [by intros Hf | by intros _ [=]]).
    + destruct (Hnone w3) as (s' & E' & Hd).
      rewrite E'. eexists s', w3, _, _. split; [reflexivity|].
      split; [exact Hcalls|]. split; [exact Hlast | exact Hd].
  - eexists _, w2, _, _. unfold answered, bind. simpl.
    split; [reflexivity|]. split; [exact Hc2|].
    split; [apply last_snoc|]. intros r [= <-]. exact Hc1'.
Qed.

Lemma queryLoop_detail opts start models :
  models ≠ [] →
  ∀ w, ∃ r w' more c,
    queryLoop sanitizeContent t opts start models w = (Ok r, w')
    ∧ calls w' = calls w ++ more
    ∧ last more = Some c
    ∧ responseDetail t (o_language opts) more c r.
Proof.
  induction models as [|mdl rest IH]; [done|]. intros _ w.
  cbn [queryLoop].
  destruct rest as [|m2 rest].
  - cbn [isLast].
    change (bind (ret false) ?k w) with (k false w). cbv beta iota.
    destruct (queryAttempt_detail opts start mdl true w)
      as (s & w1 & more & c & Ea & Hc & Hl & Hs).
    unfold bind. rewrite Ea. destruct s as [|r].
    + (* the last turn does not go on *)
      exfalso. clear -Ea. unfold queryAttempt, tryCatch, bind in Ea.
      pose proof (queryAttempt_spec sanitizeContent t opts start mdl true w)
        as (s' & w' & more' & Ea' & _ & c' & _ & Hs').
      unfold queryAttempt, tryCatch, bind in Ea'. rewrite Ea in Ea'.
      injection Ea' as <- <-. discriminate Hs'.
    + exists r, w1, more, c. do 3 (split; [done|]). by apply Hs.
  - specialize (IH ltac:(discriminate)).
    cbn [isLast]. unfold bind at 1, withTracker.
    destruct (shouldSkipModel (clock w) mdl (tracker w)) as [skip tr].
    set (w0 := {| tracker := tr; clock := clock w; replies := replies w;
                  calls := calls w |}).
    destruct skip; [apply (IH w0)|].
    destruct (queryAttempt_detail opts start mdl false w0)
      as (s & w1 & more & c & Ea & Hc & Hl & Hs).
    unfold bind. rewrite Ea. destruct s as [|r].
    + destruct (IH w1) as (r & w2 & more2 & c2 & E2 & Hc2 & Hl2 & Hr2).
      exists r, w2, (more ++ more2), c2. split; [exact E2|].
      split; [rewrite Hc2, Hc, <- app_assoc; reflexivity|].
      split; [|by apply responseDetail_app].
      destruct more2 as [|x more2 _] using rev_ind; [done|].
      rewrite last_snoc in Hl2. rewrite app_assoc, last_snoc. exact Hl2.
    + exists r, w1, more, c. do 3 (split; [done|]). by apply Hs.
Qed.

(** C6, as amended. [queryPersona] always returns a response, and the error
    field of that response is present exactly when the run of the chain
    ended on a failed call: the persona call on the emergency (last) model
    threw or gave an empty answer, or the condense call on a model's answer
    threw or gave nothing. After a failed condense call the response is the
    output-overflow notice, under the model whose answer was condensed, with
    the error [Condense failed after max attempts], and that model had given
    a text of more than 240 characters. After a failed persona call it is
    the core-malfunction notice, under the emergency model, with the message
    of the failure as error. Without an error the content is the sanitized
    form of a text that is not empty and has at most 240 characters. *)
Theorem queryPersona_error opts w :
  ∃ r w' more c,
    queryPersona sanitizeContent t opts w = (Ok r, w')
    ∧ calls w' = calls w ++ more
    ∧ last more = Some c
    ∧ (is_Some (error r) ↔ chainFailure (emergencyModel (o_config opts)) c)
    ∧ (failedAnswer (call_result c) → call_kind c = Condense target_response →
       error r = Some condenseFailed
       ∧ content r = t (o_language opts) outputOverflow
       ∧ model r = call_model c ∧ overLimit (call_model c) more)
    ∧ (failedAnswer (call_result c) → call_kind c = Persona →
       error r = Some (failureMessage (call_result c))
       ∧ content r = t (o_language opts) coreMalfunction
       ∧ model r = emergencyModel (o_config opts))
    ∧ (error r = None →
       ∃ s, content r = sanitizeContent s ∧ 0 < length s ≤ 240).
Proof.
  unfold queryPersona, bind, now. cbv beta iota.
  assert (Hlast : last (chainOf (o_config opts)) = Some (emergencyModel (o_config opts))).
  { unfold chainOf. rewrite app_comm_cons. apply last_snoc. }
  destruct (queryLoop_spec sanitizeContent t opts (clock w) (chainOf (o_config opts))
              _ Hlast w) as (r & w' & more & c & E & Hc & Hl & Herr).
  destruct (queryLoop_detail opts (clock w) (chainOf (o_config opts))
              ltac:(discriminate) w) as (r2 & w2 & more2 & c2 & E2 & Hc2 & Hl2 & Hd).
  destruct (queryLoop_shape sanitizeContent t opts (clock w) (chainOf (o_config opts)) w)
    as (r3 & w3 & E3 & (_ & _ & Hshape & _) & _).
  rewrite E in E2, E3. injection E2 as <- <-. injection E3 as <-.
  rewrite Hc in Hc2. apply app_inv_head in Hc2. subst more2.
  rewrite Hl in Hl2. injection Hl2 as <-.
  exists r, w', more, c. do 4 (split; [done|]).
  destruct Hd as [Hd1 Hd2]. split; [exact Hd1|]. split; [|exact Hshape].
  intros Hf Hk. destruct (Hd2 Hf Hk) as (He & Hcont & Hm).
  do 2 (split; [done|]). rewrite Hm.
  assert (Hsome : is_Some (error r)) by (rewrite He; by eexists).
  apply Herr in Hsome as (_ & [Hk' | [_ Hmodel]]); [congruence | exact Hmodel].
Qed.

End PersonaResponses.

Section PersonaInstances.
Import Models RateLimits Run Client Text Engine Triple More Trace.

(** The run in which the primary model answers at 300 characters and the
    condense call fails: the response is the overflow notice, under the
    primary model, with the fixed error. *)
Lemma queryPersona_error_witness :
  ∃ r w',
    queryPersona (λ s, s) Samples.messages Samples.melchiorOptions Samples.verbose
    = (Ok r, w')
    ∧ error r = Some condenseFailed
    ∧ content r = js "OUTPUT OVERFLOW"
    ∧ model r = QWEN3_32B.
Proof.
  destruct (queryPersona_error (λ s, s) Samples.messages Samples.melchiorOptions
              Samples.verbose) as (r & w' & more & c & E & Hc & Hl & _ & Hcond & _).
  exists r, w'. split; [exact E|].
  pose proof E as E'. vm_compute in E'. injection E' as <- <-.
  vm_compute in Hc. subst more.
  vm_compute in Hl. injection Hl as <-.
  destruct (Hcond I eq_refl) as (He & Hcont & Hm & _).
  split; [exact He|]. split; [exact Hcont | exact Hm].
Defined.

End PersonaInstances.

Section DataChains.
Import Models RateLimits Run Client Text Engine Triple More.
Local Open Scope run_scope.

Lemma stripThinkBlocks_trimmed content :
  trim (stripThinkBlocks content) = stripThinkBlocks content.
Proof. unfold stripThinkBlocks. cbv zeta. case_decide; apply trim_idem. Qed.

(** What a chat call returns is the stripped content of a 2xx reply. *)
Lemma chat_ok kind mdl w s w' :
  chat kind mdl w = (Ok s, w') →
  ∃ i rs h raw n,
    replies w = i :: rs ∧ reply i = HttpOk h raw n ∧ s = stripThinkBlocks raw
    ∧ replies w' = rs ∧ clock w' = (clock w + elapsed i)%Q.
Proof.
  unfold chat, chatBody, bind, onTracker, withTracker, fetch, throw, ret. simpl.
  destruct (replies w) as [|[dt f r] rs]; simpl; [discriminate|].
  destruct r as [msg | h status body | h msg | h raw n]; simpl; try discriminate.
  - destruct ((status =? 429)%N || (status =? 503)%N); discriminate.
  - intros [= <- <-]. by eexists _, rs, h, raw, n.
Qed.

Lemma chat_ok_trimmed kind mdl w s w' :
  chat kind mdl w = (Ok s, w') → trim s = s.
Proof.
  intros E. apply chat_ok in E as (i & rs & h & raw & n & _ & _ & -> & _).
  apply stripThinkBlocks_trimmed.
Qed.

(** X13. A chat call returns a text only on a 2xx reply; the text is the
    content stripped of think blocks, so it is trimmed; the call uses up
    one reply of the provider and the clock moves on by the time it took. *)
Theorem chat_returns kind mdl w s w' :
  chat kind mdl w = (Ok s, w') →
  trim s = s
  ∧ ∃ i h raw n,
      replies w = i :: replies w' ∧ reply i = HttpOk h raw n
      ∧ s = stripThinkBlocks raw ∧ clock w' = (clock w + elapsed i)%Q.
Proof.
  intros E. split; [by apply chat_ok_trimmed in E|].
  apply chat_ok in E as (i & rs & h & raw & n & Hr & Hi & Hs & Hrs & Hc).
  exists i, h, raw, n. by rewrite Hrs.
Qed.

Lemma chat_returns_witness :
  ∃ s w',
    chat Extract DATA_PROCESSING_MODEL Samples.overloaded = (Ok s, w') ∧ trim s = s.
Proof.
  destruct (chat Extract DATA_PROCESSING_MODEL Samples.overloaded) as [[s|e] w'] eqn:E;
    [|vm_compute in E; discriminate E].
  exists s, w'. split; [reflexivity|].
  exact (proj1 (chat_returns Extract DATA_PROCESSING_MODEL Samples.overloaded s w' E)).
Defined.

(** X14. [dataChat] returns the answer of the data processing model when
    that call succeeds, and otherwise the answer of the emergency model; it
    throws only when both calls threw, and then what the second threw. *)
Theorem dataChat_fallback kind w :
  match dataChat kind w with
  | (Ok r, w') =>
      (data_model r = DATA_PROCESSING_MODEL
       ∧ calls w' = calls w ++ [call kind DATA_PROCESSING_MODEL (Ok (result r))])
      ∨ (data_model r = EMERGENCY_MODEL
         ∧ ∃ e, calls w' = calls w ++ [call kind DATA_PROCESSING_MODEL (Throw e);
                                       call kind EMERGENCY_MODEL (Ok (result r))])
  | (Throw e, w') =>
      ∃ e1, calls w' = calls w ++ [call kind DATA_PROCESSING_MODEL (Throw e1);
                                   call kind EMERGENCY_MODEL (Throw e)]
  end.
Proof.
  unfold dataChat, DATA_MODELS. cbn [dataChatLoop isLast].
  unfold bind, tryCatch, ret, throw.
  pose proof (chat_calls kind DATA_PROCESSING_MODEL w) as H1.
  destruct (chat kind DATA_PROCESSING_MODEL w) as [[s1|e1] w1]; simpl in *.
  - left. by split.
  - pose proof (chat_calls kind EMERGENCY_MODEL w1) as H2.
    destruct (chat kind EMERGENCY_MODEL w1) as [[s2|e2] w2]; simpl in *.
    + right. split; [done|]. exists e1. by rewrite H2, H1, <- app_assoc.
    + exists e1. by rewrite H2, H1, <- app_assoc.
Qed.

(** X15. [fetchSearchContext] never throws. It reports failure exactly
    when both search models threw, and then gives no context; a context it
    gives is trimmed, not empty, and not the word NONE. *)
Theorem fetchSearchContext_failed question approvalCondition l imageContext w :
  ∃ r w',
    fetchSearchContext question approvalCondition l imageContext w = (Ok r, w')
    ∧ (failed r = true → context r = None)
    ∧ (∀ s, context r = Some s → s ≠ [] ∧ s ≠ js "NONE" ∧ trim s = s)
    ∧ (failed r = true ↔
       ∃ e1 e2, calls w' = calls w ++ [call Search COMPOUND (Throw e1);
                                       call Search COMPOUND_MINI (Throw e2)]).
Proof.
  assert (Hone : ∀ (a b : ChatCall) l0, l0 ++ [a] = l0 ++ [b] → a = b).
  { intros a b l0 H. apply app_inv_head in H. by injection H. }
  assert (Hlen : ∀ (a b c : ChatCall) l0, l0 ++ [a] ≠ l0 ++ [b; c]).
  { intros a b c l0 H. apply app_inv_head in H. discriminate H. }
  assert (Hshape : ∀ kind mdl w0 res w1,
            chat kind mdl w0 = (Ok res, w1) →
            ∀ s, (if decide (res = [] ∨ trim res = js "NONE")
                  then None else Some (trim res)) = Some s →
                 s ≠ [] ∧ s ≠ js "NONE" ∧ trim s = s).
  { intros kind mdl w0 res w1 E s. apply chat_ok_trimmed in E.
    case_decide as Hd; [discriminate|]. intros [= <-]. rewrite E.
    split; [tauto|]. split; [|exact E]. intros Hn. apply Hd. right. by rewrite E. }
  unfold fetchSearchContext, SEARCH_MODELS. cbn [searchLoop isLast].
  unfold searchAttempt, bind, tryCatch, ret.
  pose proof (chat_calls Search COMPOUND w) as H1.
  destruct (chat Search COMPOUND w) as [[s1|e1] w1] eqn:E1; simpl in H1.
  - pose proof (Hshape _ _ _ _ _ E1) as Hs1.
    destruct (decide (s1 = [] ∨ trim s1 = js "NONE")); simpl;
      eexists _, w1; (split; [reflexivity|]); simpl;
      (split; [done|]); (split; [first [done | exact Hs1]|]);
      (split; [done|]); intros (e1 & e2 & H); rewrite H1 in H;
      by apply Hlen in H.
  - simpl. pose proof (chat_calls Search COMPOUND_MINI w1) as H2.
    destruct (chat Search COMPOUND_MINI w1) as [[s2|e2] w2] eqn:E2; simpl in H2.
    + pose proof (Hshape _ _ _ _ _ E2) as Hs2.
      destruct (decide (s2 = [] ∨ trim s2 = js "NONE")); simpl;
        eexists _, w2; (split; [reflexivity|]); simpl;
        (split; [done|]); (split; [first [done | exact Hs2]|]);
        (split; [done|]); intros (x1 & x2 & H); rewrite H2, H1, <- app_assoc in H;
        apply app_inv_head in H; discriminate H.
    + simpl. eexists _, w2. split; [reflexivity|]. simpl.
      split; [done|]. split; [done|]. split; [|done].
      intros _. exists e1, e2. by rewrite H2, H1, <- app_assoc.
Qed.

End DataChains.

Section Deliberated.
Import Models RateLimits Run Client Text Engine Renderer Triple More.
Local Open Scope run_scope.

Variable toLowerCase : jsstring → jsstring.
Variable sanitizeContent : jsstring → jsstring.
Variable t : SupportedLanguage → MessageKey → jsstring.
Variables melchiorPrompt balthasarPrompt casperPrompt : SupportedLanguage → jsstring.

Lemma searchLoop_offline models :
  total (searchLoop models) (λ r, failed r = true → context r = None).
Proof.
  induction models as [|mdl rest IH]; simpl; [by apply total_ret|].
  apply total_bind with (P := λ s, ∀ r, s = Return r → failed r = true → context r = None).
  - unfold searchAttempt. apply total_tryCatch.
    + apply post_bind with (P := any); [apply post_any|]. intros res _.
      case_decide; apply post_ret; by intros r [= <-].
    + intros e. destruct (isLast rest); apply total_ret; by intros r [= <-].
  - intros [|r] Hr; [exact IH | apply total_ret; by apply Hr].
Qed.

Lemma settle_ok {A} (m : M A) (P : A → Prop) :
  total m P → total (settle m) (λ res, ∃ r, res = Ok r ∧ P r).
Proof.
  intros Hm w. destruct (Hm w) as (r & w' & E & Hr).
  exists (Ok r), w'. unfold settle. rewrite E. eauto.
Qed.

Lemma classifyResponse_refuse r approvalCondition :
  total (classifyResponse toLowerCase r approvalCondition)
        (λ v, truthy (error r) = true → v = REFUSE).
Proof.
  unfold classifyResponse. destruct (truthy (error r)); [by apply total_ret|].
  apply total_tryCatch; [|intros e; by apply total_ret].
  by eapply post_bind; [apply post_any|]; intros; case_match; apply post_ret.
Qed.

Lemma queryPersona_core opts :
  total (queryPersona sanitizeContent t opts)
        (λ r, persona r = name (o_config opts) ∧ model r ∈ chainOf (o_config opts)).
Proof.
  intros w. unfold queryPersona, bind, now. cbv beta iota.
  destruct (queryLoop_shape sanitizeContent t opts (clock w) (chainOf (o_config opts)) w)
    as (r & w' & E & Hs & Hm).
  exists r, w'. split; [exact E|]. split; [apply Hs|].
  destruct Hm as [Hm | ->]; [exact Hm | apply list_elem_of_here].
Qed.

(** What holds of every deliberation [deliberate] returns. *)
Lemma deliberate_post question language imageBase64 userContext fileContext :
  total (deliberate toLowerCase sanitizeContent t melchiorPrompt balthasarPrompt
           casperPrompt question language imageBase64 userContext fileContext)
        (λ d, Types.question d = question
              ∧ Types.userContext d = userContext
              ∧ Types.fileContext d = fileContext
              ∧ length (approvalCondition d) ≤ CONDITION_LIMIT
              ∧ within IMAGE_DESCRIPTION_LIMIT (imageContext d)
              ∧ (searchFailed d = true → searchContext d = None)
              ∧ core MELCHIOR_1 [QWEN3_32B; LLAMA4_MAVERICK; EMERGENCY_MODEL] (melchior d)
              ∧ core BALTHASAR_2 [LLAMA33_70B; GPT_OSS_120B; EMERGENCY_MODEL] (balthasar d)
              ∧ core CASPER_3 [KIMI_K2; KIMI_K2_0905; EMERGENCY_MODEL] (casper d)).
Proof.
  unfold deliberate.
  apply total_bind with (P := any); [by apply total_now|]. intros start _.
  apply total_bind with (P := within IMAGE_DESCRIPTION_LIMIT).
  { destruct imageBase64 as [[|c img]|]; try (apply total_ret; by intros s).
    apply describeImage_bounded. }
  intros imageContext Himg.
  eapply total_bind; [apply (extractLoop_total language DATA_MODELS)|].
  intros extraction Hex. cbn beta iota zeta.
  eapply total_bind; [apply (searchLoop_offline SEARCH_MODELS)|]. intros search Hsearch.
  unfold getPersonaConfigs. cbn beta iota zeta.
  eapply total_bind; [apply settle_ok, queryPersona_core|]. intros ? (r0 & -> & Hn0 & Hm0).
  eapply total_bind; [apply settle_ok, queryPersona_core|]. intros ? (r1 & -> & Hn1 & Hm1).
  eapply total_bind; [apply settle_ok, queryPersona_core|]. intros ? (r2 & -> & Hn2 & Hm2).
  cbn [unwrap].
  eapply total_bind; [apply classifyResponse_refuse|]. intros v0 Hv0.
  eapply total_bind; [apply classifyResponse_refuse|]. intros v1 Hv1.
  eapply total_bind; [apply classifyResponse_refuse|]. intros v2 Hv2.
  apply total_ret. cbn.
  do 3 (split; [done|]).
  split; [destruct (condition extraction) as [c|] eqn:Ec; simpl;
          [by apply Hex | unfold CONDITION_LIMIT; lia]|].
  split; [exact Himg|]. split; [exact Hsearch|].
  unfold core. simpl. repeat split; done.
Qed.

(** X16. [deliberate] always returns, and in what it returns a core whose
    error is a message that is not empty has the verdict REFUSE; when all
    three cores carry such an error the consensus is noConsensus. The code
    tests the error field for truthiness, so an error that is the empty
    string counts as no error and is not covered. *)
Theorem deliberate_failed_cores question language imageBase64 userContext fileContext w :
  ∃ d w',
    deliberate toLowerCase sanitizeContent t melchiorPrompt balthasarPrompt casperPrompt
      question language imageBase64 userContext fileContext w = (Ok d, w')
    ∧ (∀ p, p ∈ [melchior d; balthasar d; casper d] →
            truthy (error p) = true → verdict p = REFUSE)
    ∧ (truthy (error (melchior d)) = true → truthy (error (balthasar d)) = true →
       truthy (error (casper d)) = true →
       computeDeliberationResult d = noConsensus).
Proof.
  destruct (deliberate_post question language imageBase64 userContext fileContext w)
    as (d & w' & E & _ & _ & _ & _ & _ & _ & (_ & _ & Hm) & (_ & _ & Hb) & (_ & _ & Hc)).
  exists d, w'. split; [exact E|]. split.
  - intros p Hp. repeat (apply elem_of_cons in Hp as [-> | Hp]; [done|]).
    by apply elem_of_nil in Hp.
  - intros Em Eb Ec. unfold computeDeliberationResult.
    by rewrite (Hm Em), (Hb Eb), (Hc Ec).
Qed.

(** X17. What [deliberate] returns keeps the question, the user context
    and the file context it was given; its approval condition is at most 120
    characters, its image description, if any, 1 to 200; and when the search
    is reported failed there is no search context. *)
Theorem deliberate_bounds question language imageBase64 userContext fileContext w :
  ∃ d w',
    deliberate toLowerCase sanitizeContent t melchiorPrompt balthasarPrompt casperPrompt
      question language imageBase64 userContext fileContext w = (Ok d, w')
    ∧ Types.question d = question
    ∧ Types.userContext d = userContext
    ∧ Types.fileContext d = fileContext
    ∧ length (approvalCondition d) ≤ 120
    ∧ within 200 (imageContext d)
    ∧ (searchFailed d = true → searchContext d = None).
Proof.
  destruct (deliberate_post question language imageBase64 userContext fileContext w)
    as (d & w' & E & H1 & H2 & H3 & H4 & H5 & H6 & _).
  by exists d, w'.
Qed.

Lemma tier_of_chain (mdl primary sub emergency : string) :
  mdl ∈ [primary; sub; emergency] →
  modelTier mdl primary [sub] emergency ∈ ["PRIMARY"; "SUB"; "EMERGENCY"].
Proof.
  intros H. unfold modelTier.
  destruct (decide (mdl = primary)); [apply list_elem_of_here|].
  destruct (decide ([sub] !! 0%nat = Some mdl));
    [apply list_elem_of_further, list_elem_of_here|].
  destruct (decide ([sub] !! 1%nat = Some mdl)); [done|].
  destruct (decide (mdl = emergency));
    [do 2 apply list_elem_of_further; apply list_elem_of_here|].
  exfalso. apply elem_of_cons in H as [?|H]; [done|].
  apply elem_of_cons in H as [->|H]; [by simpl in *|].
  apply elem_of_cons in H as [?|H]; [done|]. by apply elem_of_nil in H.
Qed.

(** X18. The renderer never shows a core of a deliberation as tier
    UNKNOWN or BACKUP: the model a core answered with is, in the chain of
    its persona, the primary, the first fallback or the emergency model. *)
Theorem deliberate_tiers question language imageBase64 userContext fileContext w :
  ∃ d w',
    deliberate toLowerCase sanitizeContent t melchiorPrompt balthasarPrompt casperPrompt
      question language imageBase64 userContext fileContext w = (Ok d, w')
    ∧ let '(cM, cB, cC) :=
        getPersonaConfigs melchiorPrompt balthasarPrompt casperPrompt en in
      Forall (λ '(p, c),
                modelTier (model p) (cfg_model c) (fallbackModels c) (emergencyModel c)
                ∈ ["PRIMARY"; "SUB"; "EMERGENCY"])
             [(melchior d, cM); (balthasar d, cB); (casper d, cC)].
Proof.
  destruct (deliberate_post question language imageBase64 userContext fileContext w)
    as (d & w' & E & _ & _ & _ & _ & _ & _ & (_ & Hm & _) & (_ & Hb & _) & (_ & Hc & _)).
  exists d, w'. split; [exact E|].
  unfold getPersonaConfigs. cbn beta iota zeta.
  do 3 (constructor; [by apply tier_of_chain|]). constructor.
Qed.


End Deliberated.

Section Fallbacks.
Import Models RateLimits Run Client Text Engine Triple More.
Local Open Scope run_scope.

Variable sanitizeContent : jsstring → jsstring.
Variable t : SupportedLanguage → MessageKey → jsstring.

(** X20. Soft failure falls through: when the reply of the data processing
    model yields no condition (the call threw, or there is no CONDITION line,
    or a blank one) and the emergency model replies with a condition within
    the limit, [extractCondition] returns that condition, and in auto mode
    the language of that same reply. *)
Theorem extractCondition_soft_failure question language imageContext fileContext
    w r1 w1 s2 w2 cap :
  chat Extract DATA_PROCESSING_MODEL w = (r1, w1) →
  noCondition r1 →
  chat Extract EMERGENCY_MODEL w1 = (Ok s2, w2) →
  matchCondition s2 = Some cap →
  trim cap ≠ [] →
  length (trim cap) ≤ CONDITION_LIMIT →
  extractCondition question language imageContext fileContext w
  = (Ok {| condition := Some (trim cap);
           detectedLang := match language with
                           | auto => matchLang s2
                           | lang _ => None
                           end |}, w2).
Proof.
  intros E1 Hno E2 Hcap Hne Hlen.
  assert (Hfirst : extractAttempt language DATA_PROCESSING_MODEL false w
                   = (Ok Continue, w1)).
  { unfold extractAttempt, tryCatch, bind. rewrite E1.
    destruct r1 as [s1|e1]; [|reflexivity]. simpl in Hno.
    destruct s1 as [|c0 s1]; [reflexivity|].
    destruct (matchCondition (c0 :: s1)) as [c1|]; [|reflexivity].
    rewrite Hno. reflexivity. }
  assert (Hsecond : extractAttempt language EMERGENCY_MODEL true w1
                    = (Ok (Return {| condition := Some (trim cap);
                                     detectedLang := match language with
                                                     | auto => matchLang s2
                                                     | lang _ => None
                                                     end |}), w2)).
  { unfold extractAttempt, tryCatch, bind. rewrite E2.
    destruct s2 as [|c0 s2]; [by vm_compute in Hcap|].
    rewrite Hcap. rewrite decide_False by (intros Hz; by apply length_zero_iff_nil in Hz).
    rewrite decide_False by lia. unfold ret. by destruct language. }
  unfold extractCondition, DATA_MODELS. cbn [extractLoop isLast].
  unfold bind at 1. rewrite Hfirst. unfold bind at 1. rewrite Hsecond. reflexivity.
Qed.

(** X21. The chain falls back as far as it must: with a first model that
    is skipped for its load, a second that is tried and fails, and a last
    that answers with a clean text within the limit, the response is the
    last model's answer, markup-stripped, under that model's name and
    without an error. *)
Theorem queryLoop_fallback opts start A B C w trA trB rB w2 s w3 :
  shouldSkipModel (clock w) A (tracker w) = (true, trA) →
  shouldSkipModel (clock w) B trA = (false, trB) →
  chat Persona B (setTracker trB w) = (rB, w2) →
  failedAnswer rB →
  chat Persona C w2 = (Ok s, w3) →
  trim s ≠ [] →
  hasLanguageMixing (trim s) (o_language opts) = false →
  length (trim s) ≤ CHAR_LIMIT →
  queryLoop sanitizeContent t opts start [A; B; C] w
  = (Ok {| persona := name (o_config opts); content := sanitizeContent (trim s);
           verdict := REFUSE; model := C; latencyMs := (clock w3 - start)%Q;
           error := None |}, w3).
Proof.
  intros HA HB EB Hfail EC Hne Hmix Hlen.
  assert (Hsecond : queryAttempt sanitizeContent t opts start B false (setTracker trB w)
                    = (Ok Continue, w2)).
  { unfold queryAttempt, tryCatch, bind. rewrite EB.
    destruct rB as [sB|eB]; [|reflexivity]. simpl in Hfail.
    rewrite Hfail. reflexivity. }
  assert (Hlast : queryAttempt sanitizeContent t opts start C true w2
                  = (Ok (Return {| persona := name (o_config opts);
                                   content := sanitizeContent (trim s);
                                   verdict := REFUSE; model := C;
                                   latencyMs := (clock w3 - start)%Q;
                                   error := None |}), w3)).
  { unfold queryAttempt, tryCatch, bind. rewrite EC.
    rewrite decide_False by (intros Hz; by apply length_zero_iff_nil in Hz).
    rewrite Hmix. unfold ret. rewrite decide_False by lia. reflexivity. }
  cbn [queryLoop isLast].
  unfold bind at 1. unfold withTracker. rewrite HA.
  unfold bind at 1. cbn [tracker clock]. rewrite HB.
  unfold bind at 1.
  change {| tracker := trB; clock := _; replies := _; calls := _ |}
    with (setTracker trB w).
  rewrite Hsecond.
  unfold bind at 1. unfold ret at 1. unfold bind at 1. rewrite Hlast. reflexivity.
Qed.

End Fallbacks.

Section FallbackInstances.
Import Models RateLimits Run Client Text Engine Triple More.

Lemma extractCondition_soft_failure_witness :
  let first := chat Extract DATA_PROCESSING_MODEL Samples2.softFailure in
  let second := chat Extract EMERGENCY_MODEL first.2 in
  (noCondition first.1
   ∧ second.1 = Ok (js "PROPOSITION: p CONDITION: using the backup plan")
   ∧ matchCondition (js "PROPOSITION: p CONDITION: using the backup plan")
     = Some (js "using the backup plan")
   ∧ trim (js "using the backup plan") ≠ []
   ∧ length (trim (js "using the backup plan")) ≤ CONDITION_LIMIT)
  ∧ extractCondition [] (lang en) None None Samples2.softFailure
    = (Ok {| condition := Some (trim (js "using the backup plan"));
             detectedLang := None |}, second.2).
Proof.
  cbv zeta.
  set (first := chat Extract DATA_PROCESSING_MODEL Samples2.softFailure).
  set (second := chat Extract EMERGENCY_MODEL first.2).
  assert (H1 : noCondition first.1) by (vm_compute; exact I).
  assert (H2 : second.1 = Ok (js "PROPOSITION: p CONDITION: using the backup plan"))
    by (vm_compute; reflexivity).
  assert (H3 : matchCondition (js "PROPOSITION: p CONDITION: using the backup plan")
               = Some (js "using the backup plan")) by (vm_compute; reflexivity).
  assert (H4 : trim (js "using the backup plan") ≠ []) by (vm_compute; discriminate).
  assert (H5 : length (trim (js "using the backup plan")) ≤ CONDITION_LIMIT)
    by (vm_compute; lia).
  split; [auto|].
  refine (extractCondition_soft_failure [] (lang en) None None Samples2.softFailure
            first.1 first.2 _ second.2 _ _ H1 _ H3 H4 H5).
  - apply surjective_pairing.
  - rewrite <- H2. apply surjective_pairing.
Defined.

Lemma queryLoop_fallback_witness :
  let w := Samples2.degraded in
  let a := shouldSkipModel (clock w) QWEN3_32B (tracker w) in
  let b := shouldSkipModel (clock w) LLAMA4_MAVERICK a.2 in
  let second := chat Persona LLAMA4_MAVERICK (setTracker b.2 w) in
  let third := chat Persona EMERGENCY_MODEL second.2 in
  (a.1 = true ∧ b.1 = false ∧ failedAnswer second.1
   ∧ third.1 = Ok (js "Approved, with reason."))
  ∧ queryLoop (λ s, s) Samples.messages Samples.melchiorOptions 1000%Q
      [QWEN3_32B; LLAMA4_MAVERICK; EMERGENCY_MODEL] w
    = (Ok {| persona := MELCHIOR_1; content := trim (js "Approved, with reason.");
             verdict := REFUSE; model := EMERGENCY_MODEL;
             latencyMs := (clock third.2 - 1000)%Q; error := None |}, third.2).
Proof.
  cbv zeta.
  set (w := Samples2.degraded).
  set (a := shouldSkipModel (clock w) QWEN3_32B (tracker w)).
  set (b := shouldSkipModel (clock w) LLAMA4_MAVERICK a.2).
  set (second := chat Persona LLAMA4_MAVERICK (setTracker b.2 w)).
  set (third := chat Persona EMERGENCY_MODEL second.2).
  assert (H1 : a.1 = true) by (vm_compute; reflexivity).
  assert (H2 : b.1 = false) by (vm_compute; reflexivity).
  assert (H3 : failedAnswer second.1) by (vm_compute; exact I).
  assert (H4 : third.1 = Ok (js "Approved, with reason.")) by (vm_compute; reflexivity).
  split; [auto|].
  refine (queryLoop_fallback (λ s, s) Samples.messages Samples.melchiorOptions 1000%Q
            QWEN3_32B LLAMA4_MAVERICK EMERGENCY_MODEL w a.2 b.2 second.1 second.2
            (js "Approved, with reason.") third.2 _ _ _ H3 _ _ _ _).
  - rewrite <- H1. apply surjective_pairing.
  - rewrite <- H2. apply surjective_pairing.
  - apply surjective_pairing.
  - rewrite <- H4. apply surjective_pairing.
  - vm_compute. discriminate.
  - vm_compute. reflexivity.
  - vm_compute. lia.
Defined.

End FallbackInstances.

Section BotHelpers.
Import Models RateLimits Storage Bot More.

(** What [escapeHtml] does to one character. *)
Lemma escapeHtml_cons c s :
  escapeHtml (c :: s)
  = (if (c =? 38)%N then js "&amp;"
     else if (c =? 60)%N then js "&lt;"
     else if (c =? 62)%N then js "&gt;"
     else if (c =? 34)%N then js "&quot;"
     else [c]) ++ escapeHtml s.
Proof.
  unfold escapeHtml, replaceChar. cbn [flat_map].
  destruct (c =? 38)%N eqn:E38.
  { rewrite !flat_map_app. reflexivity. }
  cbn [app]. cbn [flat_map]. destruct (c =? 60)%N eqn:E60.
  { rewrite !flat_map_app. reflexivity. }
  cbn [app]. cbn [flat_map]. destruct (c =? 62)%N eqn:E62.
  { rewrite !flat_map_app. reflexivity. }
  cbn [app]. cbn [flat_map]. destruct (c =? 34)%N eqn:E34; reflexivity.
Qed.

Lemma escapeHtml_app a b : escapeHtml (a ++ b) = escapeHtml a ++ escapeHtml b.
Proof. unfold escapeHtml, replaceChar. by rewrite !flat_map_app. Qed.

(** X22. What [escapeHtml] returns holds no [<], no [>] and no double
    quote. It escapes piece by piece, leaves text without the four special
    characters as it is, and never shortens. *)
Theorem escapeHtml_safe text :
  Forall (λ c, c ≠ 60 ∧ c ≠ 62 ∧ c ≠ 34)%N (escapeHtml text)
  ∧ (∀ more, escapeHtml (text ++ more) = escapeHtml text ++ escapeHtml more)
  ∧ (forallb (λ c, negb (isHtmlSpecial c)) text = true → escapeHtml text = text)
  ∧ length text ≤ length (escapeHtml text).
Proof.
  split; [|split; [intros more; apply escapeHtml_app|split]].
  - induction text as [|c s IH]; [constructor|].
    rewrite escapeHtml_cons. apply Forall_app. split; [|exact IH].
    destruct (N.eqb_spec c 38); [repeat constructor; discriminate|].
    destruct (N.eqb_spec c 60); [repeat constructor; discriminate|].
    destruct (N.eqb_spec c 62); [repeat constructor; discriminate|].
    destruct (N.eqb_spec c 34); [repeat constructor; discriminate|].
    by repeat constructor.
  - induction text as [|c s IH]; [done|]. cbn [forallb].
    intros [Hc Hs]%andb_true_iff. rewrite escapeHtml_cons, IH by done.
    unfold isHtmlSpecial in Hc.
    destruct (c =? 38)%N, (c =? 60)%N, (c =? 62)%N, (c =? 34)%N; done.
  - induction text as [|c s IH]; [done|].
    rewrite escapeHtml_cons, length_app. cbn [length].
    destruct (c =? 38)%N, (c =? 60)%N, (c =? 62)%N, (c =? 34)%N; simpl; lia.
Qed.

Lemma escapeHtml_safe_witness :
  forallb (λ c, negb (isHtmlSpecial c)) (js "MELCHIOR approves") = true
  ∧ escapeHtml (js "MELCHIOR approves") = js "MELCHIOR approves".
Proof.
  assert (H : forallb (λ c, negb (isHtmlSpecial c)) (js "MELCHIOR approves") = true)
    by reflexivity.
  split; [exact H|].
  exact (proj1 (proj2 (proj2 (escapeHtml_safe (js "MELCHIOR approves")))) H).
Defined.

(** X23. [escapeHtml] loses nothing: two texts with the same escaped form
    are the same text. *)
Theorem escapeHtml_injective a b : escapeHtml a = escapeHtml b → a = b.
Proof.
  revert b. induction a as [|x a IH]; intros [|y b].
  - done.
  - rewrite escapeHtml_cons.
    destruct (y =? 38)%N, (y =? 60)%N, (y =? 62)%N, (y =? 34)%N; discriminate.
  - rewrite escapeHtml_cons.
    destruct (x =? 38)%N, (x =? 60)%N, (x =? 62)%N, (x =? 34)%N; discriminate.
  - rewrite !escapeHtml_cons.
    destruct (N.eqb_spec x 38) as [->|Hx1]; [|destruct (N.eqb_spec x 60) as [->|Hx2];
      [|destruct (N.eqb_spec x 62) as [->|Hx3];
        [|destruct (N.eqb_spec x 34) as [->|Hx4]]]];
    (destruct (N.eqb_spec y 38) as [->|Hy1]; [|destruct (N.eqb_spec y 60) as [->|Hy2];
      [|destruct (N.eqb_spec y 62) as [->|Hy3];
        [|destruct (N.eqb_spec y 34) as [->|Hy4]]]]);
    intros H; injection H; intros; subst; try done; f_equal; by apply IH.
Qed.

Lemma escapeHtml_injective_witness :
  escapeHtml (js "a<b") = escapeHtml (js "a<b") ∧ js "a<b" = js "a<b".
Proof.
  assert (H : escapeHtml (js "a<b") = escapeHtml (js "a<b")) by reflexivity.
  split; [exact H | exact (escapeHtml_injective _ _ H)].
Defined.

(** Two digits for every number under 100, and [00] for zero only. *)
Lemma padStart2_digits (n : Z) :
  (0 ≤ n < 100)%Z →
  ∃ d1 d2, padStart2 (showZ n) = [d1; d2]
           ∧ isDigit d1 = true ∧ isDigit d2 = true
           ∧ (d1 = 48%N → d2 = 48%N → n = 0%Z).
Proof.
  intros Hn.
  assert (Hall : forallb (λ k,
            match padStart2 (showZ (Z.of_nat k)) with
            | [d1; d2] => isDigit d1 && isDigit d2
                          && (negb ((d1 =? 48) && (d2 =? 48))%N || (k =? 0)%nat)
            | _ => false
            end) (seq 0 100) = true) by (vm_compute; reflexivity).
  rewrite forallb_forall in Hall.
  specialize (Hall (Z.to_nat n)). rewrite Z2Nat.id in Hall by lia.
  assert (Hin : In (Z.to_nat n) (seq 0 100)) by (apply in_seq; lia).
  specialize (Hall Hin).
  destruct (padStart2 (showZ n)) as [|d1 [|d2 [|? ?]]]; try discriminate.
  apply andb_true_iff in Hall as [[H1 H2]%andb_true_iff H3].
  exists d1, d2. repeat split; try done.
  intros -> ->. simpl in H3. apply Nat.eqb_eq in H3. lia.
Qed.

Lemma seconds_range (ms : Q) :
  (0 <= ms)%Q → (ms <= 359999000)%Q →
  (0 ≤ Qceiling (ms / 1000) ≤ 359999)%Z
  ∧ ((0 < ms)%Q → (0 < Qceiling (ms / 1000))%Z).
Proof.
  intros H0 H1. split; [split|].
  - change 0%Z with (Qceiling 0). apply Qceiling_resp_le.
    apply Qle_shift_div_l; [reflexivity | lra].
  - change 359999%Z with (Qceiling 359999). apply Qceiling_resp_le.
    apply Qle_shift_div_r; [reflexivity | lra].
  - intros Hpos. pose proof (Qle_ceiling (ms / 1000)) as Hc.
    assert (Hq : (0 < ms / 1000)%Q) by (apply Qlt_shift_div_l; [reflexivity | lra]).
    assert (Hz : (0 < inject_Z (Qceiling (ms / 1000)))%Q) by lra.
    change 0%Q with (inject_Z 0) in Hz. by rewrite <- Zlt_Qlt in Hz.
Qed.

(** X24. For a remaining time from 0 up to 99 h 59 min 59 s,
    [formatRemaining] gives eight characters, [hh:mm:ss]; and as long as
    any time remains it does not read [00:00:00], the count being rounded
    up to the next second. *)
Theorem formatRemaining_clock (ms : Q) :
  (0 <= ms)%Q → (ms <= 359999000)%Q →
  clockShaped (formatRemaining ms)
  ∧ ((0 < ms)%Q → formatRemaining ms ≠ js "00:00:00").
Proof.
  intros H0 H1. destruct (seconds_range ms H0 H1) as [HT Hpos].
  unfold formatRemaining. cbv zeta. set (T := Qceiling (ms / 1000)) in *.
  clearbody T.
  assert (Hrem1 : Z.rem T 3600 = (T mod 3600)%Z) by (apply Z.rem_mod_nonneg; lia).
  assert (Hrem2 : Z.rem T 60 = (T mod 60)%Z) by (apply Z.rem_mod_nonneg; lia).
  rewrite Hrem1, Hrem2.
  destruct (padStart2_digits (T / 3600)) as (h1 & h2 & -> & Hh1 & Hh2 & Hh0);
    [Z.div_mod_to_equations; lia|].
  destruct (padStart2_digits (T mod 3600 / 60)) as (m1 & m2 & -> & Hm1 & Hm2 & Hm0);
    [Z.div_mod_to_equations; lia|].
  destruct (padStart2_digits (T mod 60)) as (s1 & s2 & -> & Hs1 & Hs2 & Hs0);
    [Z.div_mod_to_equations; lia|].
  split.
  - exists h1, h2, m1, m2, s1, s2. split; [reflexivity|].
    cbn [forallb]. by rewrite Hh1, Hh2, Hm1, Hm2, Hs1, Hs2.
  - intros Hms. specialize (Hpos Hms). intros E. vm_compute in E.
    injection E as -> -> -> -> -> ->.
    specialize (Hh0 eq_refl eq_refl). specialize (Hm0 eq_refl eq_refl).
    specialize (Hs0 eq_refl eq_refl). Z.div_mod_to_equations. lia.
Qed.

Lemma formatRemaining_clock_witness :
  ((0 <= 1500)%Q ∧ (1500 <= 359999000)%Q ∧ (0 < 1500)%Q)
  ∧ clockShaped (formatRemaining 1500) ∧ formatRemaining 1500 ≠ js "00:00:00".
Proof.
  assert (H0 : (0 <= 1500)%Q) by discriminate.
  assert (H1 : (1500 <= 359999000)%Q) by discriminate.
  assert (H2 : (0 < 1500)%Q) by reflexivity.
  split; [auto|].
  split; [exact (proj1 (formatRemaining_clock 1500 H0 H1))
         | exact (proj2 (formatRemaining_clock 1500 H0 H1) H2)].
Defined.

Local Open Scope Q_scope.

Lemma active_of_reading (load : LoadInfo) (v : Q) :
  v ∈ [tpm load; rpm load; rpd load; tpd load] → 95 <= v →
  let dims := filter (λ v, 0 <= v) [tpm load; rpm load; rpd load; tpd load] in
  length dims ≠ 0%nat
  ∧ forallb (λ v, Qeq_bool v 0) dims = false
  ∧ existsb (λ v, bool_decide (90 <= v)) dims = true.
Proof.
  intros Hv H95. cbv zeta.
  set (dims := filter (λ v, 0 <= v) [tpm load; rpm load; rpd load; tpd load]).
  assert (Hin : v ∈ dims) by (apply list_elem_of_filter; split; [lra | exact Hv]).
  split; [|split].
  - intros Hz. apply length_zero_iff_nil in Hz. rewrite Hz in Hin.
    by apply elem_of_nil in Hin.
  - apply not_true_is_false. intros Hall. rewrite forallb_forall in Hall.
    apply list_elem_of_In in Hin. specialize (Hall v Hin).
    apply Qeq_bool_iff in Hall. lra.
  - apply existsb_exists. exists v. split; [by apply list_elem_of_In|].
    apply bool_decide_eq_true. lra.
Qed.

(** X25. A model that [shouldSkipModel] skips is shown by the status
    command as active and under high load. *)
Theorem isActive_of_skipped now model tr :
  (shouldSkipModel now model tr).1 = true →
  (isActive now model tr).1 = (true, true).
Proof.
  rewrite skip_of_reading. cbv zeta. unfold isActive.
  destruct (getLoadInfo now model tr) as [load tr']. cbn [fst].
  rewrite !orb_true_iff, !bool_decide_eq_true. unfold SKIP_THRESHOLD.
  intros H.
  assert (Hv : ∃ v, v ∈ [tpm load; rpm load; rpd load; tpd load] ∧ 95 <= v).
  { destruct H as [[[H|H]|H]|H]; eexists; (split; [|exact H]);
      repeat first [apply list_elem_of_here | apply list_elem_of_further]. }
  destruct Hv as (v & Hv & H95).
  destruct (active_of_reading load v Hv H95) as (Hlen & Hall & Hex).
  rewrite decide_False by exact Hlen. by rewrite Hall, Hex.
Qed.

Lemma isActive_of_skipped_witness :
  (shouldSkipModel 31000 LLAMA31_8B Samples.burst).1 = true
  ∧ (isActive 31000 LLAMA31_8B Samples.burst).1 = (true, true).
Proof.
  assert (H : (shouldSkipModel 31000 LLAMA31_8B Samples.burst).1 = true)
    by (vm_compute; reflexivity).
  split; [exact H | exact (isActive_of_skipped 31000 LLAMA31_8B Samples.burst H)].
Defined.

(** X26. [resolveLang] answers English for a user without an id and
    stores nothing. For a user with an id, a fixed language always wins and
    stays fixed. The language detected from a text is saved, so that a later
    call without a text gives the same answer; and no other user's
    preferences change. *)
Theorem resolveLang_remembers (uid : Z) (text : jsstring) (kv : gmap Z UserPref) :
  resolveLang None (Some text) kv = (en, kv)
  ∧ resolveLang (Some 0%Z) (Some text) kv = (en, kv)
  ∧ (uid ≠ 0%Z → text ≠ [] →
     let '(l, kv') := resolveLang (Some uid) (Some text) kv in
     resolveLang (Some uid) None kv' = (l, kv')
     ∧ (∀ fixed, (getUserPref uid kv ≫= fixedLang) = Some fixed →
                 l = fixed ∧ (getUserPref uid kv' ≫= fixedLang) = Some fixed)
     ∧ ((getUserPref uid kv ≫= fixedLang) = None → l = Text.detectLanguage text)
     ∧ (∀ other, other ≠ uid → getUserPref other kv' = getUserPref other kv)).
Proof.
  split; [done|]. split; [done|].
  intros Huid Htext. destruct text as [|c txt]; [done|].
  unfold resolveLang. rewrite !decide_False by done. cbv zeta.
  unfold getUserPref, setUserPref. cbn [fixedLang detectedLang].
  rewrite lookup_insert_eq. cbn.
  split; [by destruct (kv !! uid ≫= fixedLang)|].
  split; [by intros fixed ->|]. split; [by intros ->|].
  intros other Hne. by rewrite lookup_insert_ne.
Qed.

Lemma resolveLang_remembers_witness :
  (7%Z ≠ 0%Z ∧ js "hello there" ≠ [])
  ∧ resolveLang (Some 7%Z) None (resolveLang (Some 7%Z) (Some (js "hello there")) ∅).2
    = resolveLang (Some 7%Z) (Some (js "hello there")) ∅.
Proof.
  assert (H1 : 7%Z ≠ 0%Z) by discriminate.
  assert (H2 : js "hello there" ≠ []) by discriminate.
  split; [auto|].
  pose proof (proj2 (proj2 (resolveLang_remembers 7 (js "hello there") ∅)) H1 H2) as H.
  destruct (resolveLang (Some 7%Z) (Some (js "hello there")) ∅) as [l kv'].
  exact (proj1 H).
Defined.

End BotHelpers.
